(** * terminal-webcam: the adaptive video-to-terminal rendering pipeline

    A shallow embedding of the TypeScript sources of the repository and the
    properties of its specification.

    Conventions of the embedding.
    - A JavaScript [number] that holds a count or an index is a [nat] or a
      [Z]; a [number] that holds a real quantity (zoom level, pan position,
      luminance) is an exact rational [Q].  [Math.floor] and [Math.round]
      go from [Q] to [Z].  Rounding of IEEE doubles, infinities and NaN are
      outside the embedding.
    - A [Uint8Array] or [Buffer] is a [list byte]; a store outside the array
      is ignored, as in the source language, and this is also what the list
      update of stdpp does.
    - The object state of a class is a record; a method is a function from
      the record to the new record.  What a method sends to a collaborator
      (a frame handed to the renderer, bytes written to the terminal, a
      spawned capture process, a process exit) is returned or logged in a
      list. *)

From Stdlib Require Import ZArith QArith Qround Qminmax Qabs Lia Lqa.
From Stdlib.Strings Require Import Byte Ascii.
From stdpp Require Import base numbers list strings gmap pretty sorting.

#[global] Instance byte_inhabited : Inhabited byte := populate x00.
#[global] Instance byte_eq_dec : EqDecision byte := Byte.byte_eq_dec.

(** ** Frame assembly: [processVideoData]

    The buffer fields of [WebcamViewer].  [processVideoData] touches only
    these.  The two viewers that the specification follows
    (terminal-webcam and pong-game/webcam-dynamic-res.ts) have the same
    loop; they differ in where the frame size comes from. *)

Record Assembler := mkAssembler {
  videoBuffer : list byte;
  bufferPos : nat;
  frameCount : nat
}.

(** [for (let i = 0; i < toRead; i++)
       this.videoBuffer[this.bufferPos + i] = chunk[offset + i]].
    A read past the end of [chunk] is [undefined], stored as 0. *)
Definition copyChunk (buf chunk : list byte) (pos offset toRead : nat) : list byte :=
  foldl (λ b i, <[pos + i := default x00 (chunk !! (offset + i))]> b)
        buf (seq 0 toRead).

(** The [while] loop of [processVideoData].  [renderFrame()] reads
    [this.videoBuffer]: the call is recorded as the contents of the buffer at
    that moment, appended to [out].  [None] is an exhausted [fuel]. *)
Fixpoint processVideoData_loop (fuel expectedSize : nat) (chunk : list byte)
    (offset : nat) (a : Assembler) (out : list (list byte))
    : option (Assembler * list (list byte)) :=
  match fuel with
  | O => None
  | S fuel' =>
    if (offset <? length chunk) && (bufferPos a <? expectedSize) then
      let toRead := (expectedSize - bufferPos a) `min` (length chunk - offset) in
      let buf := copyChunk (videoBuffer a) chunk (bufferPos a) offset toRead in
      let pos := bufferPos a + toRead in
      let offset' := offset + toRead in
      if expectedSize <=? pos then
        processVideoData_loop fuel' expectedSize chunk offset'
          (mkAssembler buf 0 (S (frameCount a))) (out ++ [buf])
      else
        processVideoData_loop fuel' expectedSize chunk offset'
          (mkAssembler buf pos (frameCount a)) out
    else Some (a, out)
  end.

(** Every iteration but the last consumes a byte of [chunk]. *)
Definition processVideoData (expectedSize : nat) (chunk : list byte) (a : Assembler)
    : option (Assembler * list (list byte)) :=
  processVideoData_loop (S (length chunk)) expectedSize chunk 0 a [].

(** The ['data'] events of the capture process, one call per chunk. *)
Fixpoint feed (expectedSize : nat) (chunks : list (list byte)) (a : Assembler)
    : option (Assembler * list (list byte)) :=
  match chunks with
  | [] => Some (a, [])
  | c :: cs =>
    '(a1, fs1) ← processVideoData expectedSize c a;
    '(a2, fs2) ← feed expectedSize cs a1;
    Some (a2, fs1 ++ fs2)
  end.

(** The [i]-th slice of [frameSize] bytes of a stream. *)
Definition slice (frameSize i : nat) (stream : list byte) : list byte :=
  take frameSize (drop (i * frameSize) stream).


(** ** Numbers, bytes and strings of the source language *)

Definition Math_floor (q : Q) : Z := Qfloor q.

(** [Math.round] rounds to the nearest integer, a half towards +infinity. *)
Definition Math_round (q : Q) : Z := Qfloor (q + 0.5)%Q.

(** An element of a [Uint8Array] as a number. *)
Definition byteQ (c : byte) : Q := inject_Z (Z.of_N (Byte.to_N c)).

(** [buf[i]] for a number [i].  Outside the array the source language gives
    [undefined]; the readers below test their index first, and the
    embedding gives 0 there. *)
Definition readByte (buf : list byte) (i : Z) : Q :=
  if (i <? 0)%Z then 0%Q
  else match buf !! Z.to_nat i with Some c => byteQ c | None => 0%Q end.

(** [new Uint8Array(n)] *)
Definition Uint8Array_new (n : Z) : list byte := replicate (Z.to_nat n) x00.

(** [s[i]] on a string split into its characters: [None] is [undefined]. *)
Definition charAt (s : list string) (i : Z) : option string :=
  if (i <? 0)%Z then None else s !! Z.to_nat i.

(** A pixel [{r, g, b}]. *)
Record RGB := mkRGB { r : Q; g : Q; b : Q }.

Definition black : RGB := mkRGB 0%Q 0%Q 0%Q.

(** [n.toString(16).padStart(2, '0')] for an integer [0 <= n <= 255]. *)
Definition hexDigit (n : Z) : string :=
  match n with
  | 0 => "0" | 1 => "1" | 2 => "2" | 3 => "3" | 4 => "4" | 5 => "5"
  | 6 => "6" | 7 => "7" | 8 => "8" | 9 => "9" | 10 => "a" | 11 => "b"
  | 12 => "c" | 13 => "d" | 14 => "e" | _ => "f"
  end%Z.

Definition toHex (n : Q) : string :=
  let m := Math_round (Qmax 0%Q (Qmin 255%Q n)) in
  hexDigit (m / 16)%Z +:+ hexDigit (m mod 16)%Z.

(** [`#${toHex(r)}${toHex(g)}${toHex(b)}`] *)
Definition hexColor (p : RGB) : string := "#" +:+ toHex (r p) +:+ toHex (g p) +:+ toHex (b p).

(** The glyph ramps, one string per character of the source string. *)
Definition blockChars : list string := [" "; "▁"; "▂"; "▃"; "▄"; "▅"; "▆"; "▇"; "█"].
Definition shadeChars : list string := [" "; "░"; "▒"; "▓"; "█"].
Definition asciiChars : list string := [" "; "."; ","; ":"; ";"; "o"; "x"; "%"; "#"; "@"].
Definition brailleChars : list string := [" "; "⡀"; "⡄"; "⡆"; "⡇"; "⣇"; "⣧"; "⣷"; "⣿"].
Definition dotChars : list string :=
  [" "; "·"; "∙"; "●"; "○"; "◐"; "◑"; "◒"; "◓"; "◔"; "◕"; "◖"; "◗"; "◌"; "◍"; "◎"; "◉"].
Definition pixelChar : string := "█".

(** [ramp[Math.floor(normalizedBrightness * (ramp.length - 1))]] *)
Definition rampIndex (ramp : list string) (normalizedBrightness : Q) : Z :=
  Math_floor (normalizedBrightness * inject_Z (Z.of_nat (length ramp) - 1))%Q.

(** [Math.min(1, Math.max(0, brightness / 255))] *)
Definition normalize (brightness : Q) : Q := Qmin 1%Q (Qmax 0%Q (brightness / 255)%Q).

(** [r * 0.299 + g * 0.587 + b * 0.114] *)
Definition luma (p : RGB) : Q := (r p * 0.299 + g p * 0.587 + b p * 0.114)%Q.

(** [Math.max(0, Math.min(v, size - 1))] on integers. *)
Definition clampCoord (v size : Z) : Z := (0 `max` (v `min` (size - 1)))%Z.

(** [Math.max(0, Math.min(1, p))] *)
Definition clamp01 (p : Q) : Q := Qmax 0%Q (Qmin 1%Q p).

(** ** terminal-webcam: the viewer whose capture resolution follows the zoom *)

Module TerminalWebcam.

Inductive DisplayMode := blocks | shades | ascii | pixels.

(** A capture process started by [spawn('ffmpeg', ...)]: the size it
    scales to and the zoom level it was started for. *)
Record Capture := mkCapture { scaleWidth : Z; scaleHeight : Z; forZoom : Q }.

Record WebcamViewer := mkViewer {
  termWidth : Z;
  termHeight : Z;
  captureWidth : Z;
  captureHeight : Z;
  asm : Assembler;              (* videoBuffer, bufferPos, frameCount *)
  displayMode : DisplayMode;
  isRestarting : bool;
  restartTimer : option Z;      (* the time a pending timeout is due, in ms *)
  pendingZoomLevel : Q;
  zoomLevel : Q;
  panX : Q;
  panY : Q;
  panSpeed : Q;
  spawned : list Capture        (* the capture processes started so far *)
}.

Definition set_capture (w h : Z) (v : WebcamViewer) : WebcamViewer :=
  mkViewer (termWidth v) (termHeight v) w h (asm v) (displayMode v)
    (isRestarting v) (restartTimer v) (pendingZoomLevel v) (zoomLevel v)
    (panX v) (panY v) (panSpeed v) (spawned v).
Definition set_asm (a : Assembler) (v : WebcamViewer) : WebcamViewer :=
  mkViewer (termWidth v) (termHeight v) (captureWidth v) (captureHeight v) a
    (displayMode v) (isRestarting v) (restartTimer v) (pendingZoomLevel v)
    (zoomLevel v) (panX v) (panY v) (panSpeed v) (spawned v).
Definition set_isRestarting (f : bool) (v : WebcamViewer) : WebcamViewer :=
  mkViewer (termWidth v) (termHeight v) (captureWidth v) (captureHeight v)
    (asm v) (displayMode v) f (restartTimer v) (pendingZoomLevel v)
    (zoomLevel v) (panX v) (panY v) (panSpeed v) (spawned v).
Definition set_restartTimer (t : option Z) (v : WebcamViewer) : WebcamViewer :=
  mkViewer (termWidth v) (termHeight v) (captureWidth v) (captureHeight v)
    (asm v) (displayMode v) (isRestarting v) t (pendingZoomLevel v)
    (zoomLevel v) (panX v) (panY v) (panSpeed v) (spawned v).
Definition set_pendingZoomLevel (z : Q) (v : WebcamViewer) : WebcamViewer :=
  mkViewer (termWidth v) (termHeight v) (captureWidth v) (captureHeight v)
    (asm v) (displayMode v) (isRestarting v) (restartTimer v) z
    (zoomLevel v) (panX v) (panY v) (panSpeed v) (spawned v).
Definition set_zoomLevel (z : Q) (v : WebcamViewer) : WebcamViewer :=
  mkViewer (termWidth v) (termHeight v) (captureWidth v) (captureHeight v)
    (asm v) (displayMode v) (isRestarting v) (restartTimer v)
    (pendingZoomLevel v) z (panX v) (panY v) (panSpeed v) (spawned v).
Definition set_pan (px py : Q) (v : WebcamViewer) : WebcamViewer :=
  mkViewer (termWidth v) (termHeight v) (captureWidth v) (captureHeight v)
    (asm v) (displayMode v) (isRestarting v) (restartTimer v)
    (pendingZoomLevel v) (zoomLevel v) px py (panSpeed v) (spawned v).
Definition set_spawned (l : list Capture) (v : WebcamViewer) : WebcamViewer :=
  mkViewer (termWidth v) (termHeight v) (captureWidth v) (captureHeight v)
    (asm v) (displayMode v) (isRestarting v) (restartTimer v)
    (pendingZoomLevel v) (zoomLevel v) (panX v) (panY v) (panSpeed v) l.

(** [updateCaptureResolution] *)
Definition updateCaptureResolution (v : WebcamViewer) : WebcamViewer :=
  let baseWidth := (termWidth v * 10)%Z in
  let baseHeight := (termHeight v * 10)%Z in
  let w := (1920 `min` Math_round (inject_Z baseWidth * zoomLevel v)%Q)%Z in
  let h := (1080 `min` Math_round (inject_Z baseHeight * zoomLevel v)%Q)%Z in
  let w := (Math_round (inject_Z w / 2)%Q * 2)%Z in
  let h := (Math_round (inject_Z h / 2)%Q * 2)%Z in
  let w := (640 `max` w)%Z in
  let h := (480 `max` h)%Z in
  let v := set_capture w h v in
  let frameSize := (w * h * 3)%Z in
  if bool_decide (Z.of_nat (length (videoBuffer (asm v))) ≠ frameSize) then
    set_asm (mkAssembler (Uint8Array_new frameSize) 0 (frameCount (asm v))) v
  else v.

(** [processVideoData]: the frame size is computed from the capture size
    at each call.  The completed frames are returned with the viewer. *)
Definition processVideoData (chunk : list byte) (v : WebcamViewer)
    : option (WebcamViewer * list (list byte)) :=
  let expectedSize := Z.to_nat (captureWidth v * captureHeight v * 3) in
  '(a, frames) ← processVideoData expectedSize chunk (asm v);
  Some (set_asm a v, frames).

(** [getCharForBrightness]; [None] is [undefined]. *)
Definition getCharForBrightness (v : WebcamViewer) (brightness : Q) : option string :=
  let normalizedBrightness := normalize brightness in
  match displayMode v with
  | blocks => charAt blockChars (rampIndex blockChars normalizedBrightness)
  | shades => charAt shadeChars (rampIndex shadeChars normalizedBrightness)
  | ascii => charAt asciiChars (rampIndex asciiChars normalizedBrightness)
  | pixels => Some pixelChar
  end.

(** The source coordinates of a terminal cell, before clamping:
    [videoX] and [videoY] of [sampleVideoPixel]. *)
Definition videoXY (v : WebcamViewer) (termX termY : Z) : Z * Z :=
  let displayHeight := (termHeight v - 2)%Z in
  let adjustedY := (termY - 1)%Z in
  let viewWidth := (inject_Z (captureWidth v) / zoomLevel v)%Q in
  let viewHeight := (inject_Z (captureHeight v) / zoomLevel v)%Q in
  let startX := ((inject_Z (captureWidth v) - viewWidth) * panX v)%Q in
  let startY := ((inject_Z (captureHeight v) - viewHeight) * panY v)%Q in
  let videoX := Math_floor (startX + (inject_Z termX / inject_Z (termWidth v)) * viewWidth)%Q in
  let videoY := Math_floor (startY + (inject_Z adjustedY / inject_Z displayHeight) * viewHeight)%Q in
  (videoX, videoY).

(** [(y * this.captureWidth + x) * 3] *)
Definition bufferIndex (v : WebcamViewer) (x y : Z) : Z := ((y * captureWidth v + x) * 3)%Z.

(** The neighbours visited by the two [for] loops over [dy] and [dx]. *)
Definition neighbourhood (radius : Z) : list (Z * Z) :=
  let range := (λ k : nat, (Z.of_nat k - radius)%Z) <$> seq 0 (Z.to_nat (2 * radius + 1)) in
  dy ← range; dx ← range; [(dx, dy)].

(** The accumulation [r += ...; g += ...; b += ...; count++] over the
    neighbourhood of [(x, y)]. *)
Definition averageAround (v : WebcamViewer) (x y : Z) : RGB * Z :=
  foldl (λ (acc : RGB * Z) (d : Z * Z),
           let sx := clampCoord (x + d.1) (captureWidth v) in
           let sy := clampCoord (y + d.2) (captureHeight v) in
           let sidx := bufferIndex v sx sy in
           if (sidx + 2 <? Z.of_nat (length (videoBuffer (asm v))))%Z then
             (mkRGB (r acc.1 + readByte (videoBuffer (asm v)) sidx)%Q
                    (g acc.1 + readByte (videoBuffer (asm v)) (sidx + 1)%Z)%Q
                    (b acc.1 + readByte (videoBuffer (asm v)) (sidx + 2)%Z)%Q,
              (acc.2 + 1)%Z)
           else acc)
        (black, 0%Z) (neighbourhood 1).

(** [sampleVideoPixel] *)
Definition sampleVideoPixel (v : WebcamViewer) (termX termY : Z) : RGB :=
  let '(videoX, videoY) := videoXY v termX termY in
  let x := clampCoord videoX (captureWidth v) in
  let y := clampCoord videoY (captureHeight v) in
  let idx := bufferIndex v x y in
  let buf := videoBuffer (asm v) in
  let normal := mkRGB (readByte buf idx) (readByte buf (idx + 1)%Z) (readByte buf (idx + 2)%Z) in
  if (idx + 2 <? Z.of_nat (length buf))%Z then
    if Qlt_le_dec 3%Q (zoomLevel v) then
      let '(sum, count) := averageAround v x y in
      if (0 <? count)%Z then
        mkRGB (r sum / inject_Z count)%Q (g sum / inject_Z count)%Q (b sum / inject_Z count)%Q
      else normal
    else normal
  else black.

(** The body of the loops of [renderFrame]: what one cell of the text
    grid receives ([content], [fg], [bg]). *)
Definition renderCell (v : WebcamViewer) (p : RGB) : option string * string * string :=
  let brightness := luma p in
  let char := getCharForBrightness v brightness in
  let color := hexColor p in
  match displayMode v with
  | pixels => (char, color, color)
  | _ => (char, color, "#000000")
  end.

(** [scheduleRestart]: a pending timeout is cleared and a new one set,
    due 500 ms after [now]. *)
Definition scheduleRestart (now : Z) (v : WebcamViewer) : WebcamViewer :=
  set_restartTimer (Some (now + 500)%Z) v.

(** [startFFmpeg].  The two waits of the function (300 ms after the kill
    of the old process, 100 ms after the spawn) are passed in one step: the
    embedding covers the runs in which no key arrives during them. *)
Definition startFFmpeg (now : Z) (v : WebcamViewer) : WebcamViewer :=
  if isRestarting v then v
  else
    let v := set_isRestarting true v in
    let v := if negb (Qeq_bool (pendingZoomLevel v) (zoomLevel v))
             then set_zoomLevel (pendingZoomLevel v) v else v in
    let v := updateCaptureResolution v in
    let v := set_spawned (spawned v ++ [mkCapture (captureWidth v) (captureHeight v) (zoomLevel v)]) v in
    let v := set_isRestarting false v in
    if negb (Qeq_bool (pendingZoomLevel v) (zoomLevel v))
    then scheduleRestart (now + 400)%Z v else v.

(** The callback of the timeout set by [scheduleRestart]. *)
Definition restartTimerFired (now : Z) (v : WebcamViewer) : WebcamViewer :=
  let v := set_restartTimer None v in
  if negb (Qeq_bool (pendingZoomLevel v) (zoomLevel v)) && negb (isRestarting v)
  then startFFmpeg now v else v.

(** [adjustZoom] at time [now].  The update of the resolution indicator is
    left out. *)
Definition adjustZoom (now : Z) (delta : Q) (v : WebcamViewer) : WebcamViewer :=
  let oldZoom := pendingZoomLevel v in
  let v := set_pendingZoomLevel (Qmax 1%Q (Qmin 8%Q (pendingZoomLevel v + delta)%Q)) v in
  if negb (Qeq_bool (pendingZoomLevel v) oldZoom) then
    let ratio := (oldZoom / pendingZoomLevel v)%Q in
    let px := (0.5 + (panX v - 0.5) * ratio)%Q in
    let py := (0.5 + (panY v - 0.5) * ratio)%Q in
    let v := set_pan (clamp01 px) (clamp01 py) v in
    scheduleRestart now v
  else v.

(** [pan] *)
Definition pan (dx dy : Q) (v : WebcamViewer) : WebcamViewer :=
  if Qlt_le_dec 1%Q (zoomLevel v) then
    let adjustedSpeed := panSpeed v in
    set_pan (clamp01 (panX v + dx * adjustedSpeed)%Q)
            (clamp01 (panY v + dy * adjustedSpeed)%Q) v
  else v.

(** *** The event loop around the zoom keys

    A zoom request is a key press at a time [t] (in ms) with its [delta].
    A timeout that is due runs before a later key is handled. *)
Definition runDueTimer (t : Z) (v : WebcamViewer) : WebcamViewer :=
  match restartTimer v with
  | Some due => if (due <=? t)%Z then restartTimerFired due v else v
  | None => v
  end.

Definition request (v : WebcamViewer) (e : Z * Q) : WebcamViewer :=
  adjustZoom e.1 e.2 (runDueTimer e.1 v).

Definition burst (reqs : list (Z * Q)) (v : WebcamViewer) : WebcamViewer :=
  foldl request v reqs.

(** No further key: the pending timeout, if any, runs when it is due. *)
Definition quiesce (v : WebcamViewer) : WebcamViewer :=
  match restartTimer v with
  | Some due => restartTimerFired due v
  | None => v
  end.

(** The zoom level that a sequence of requests leaves pending. *)
Definition requestedZoom (z : Q) (deltas : list Q) : Q :=
  foldl (λ z d, Qmax 1%Q (Qmin 8%Q (z + d)%Q)) z deltas.

End TerminalWebcam.

(** ** pong-game/webcam-dynamic-res.ts: the viewer with resolution tiers *)

Module DynamicRes.

Inductive DisplayMode := blocks | shades | ascii | braille | dots | pixels.

Record WebcamViewer := mkViewer {
  termWidth : Z;
  termHeight : Z;
  videoWidth : Z;
  videoHeight : Z;
  captureWidth : Z;
  captureHeight : Z;
  frameSize : Z;
  asm : Assembler;              (* videoBuffer, bufferPos, frameCount *)
  displayMode : DisplayMode;
  isRestarting : bool;
  zoomLevel : Q;
  zoomX : Q;
  zoomY : Q;
  panSpeed : Q;
  lastCaptureScale : Q
}.

Definition set_asm (a : Assembler) (v : WebcamViewer) : WebcamViewer :=
  mkViewer (termWidth v) (termHeight v) (videoWidth v) (videoHeight v)
    (captureWidth v) (captureHeight v) (frameSize v) a (displayMode v)
    (isRestarting v) (zoomLevel v) (zoomX v) (zoomY v) (panSpeed v)
    (lastCaptureScale v).
Definition set_isRestarting (f : bool) (v : WebcamViewer) : WebcamViewer :=
  mkViewer (termWidth v) (termHeight v) (videoWidth v) (videoHeight v)
    (captureWidth v) (captureHeight v) (frameSize v) (asm v) (displayMode v)
    f (zoomLevel v) (zoomX v) (zoomY v) (panSpeed v) (lastCaptureScale v).
Definition set_zoomXY (zx zy : Q) (v : WebcamViewer) : WebcamViewer :=
  mkViewer (termWidth v) (termHeight v) (videoWidth v) (videoHeight v)
    (captureWidth v) (captureHeight v) (frameSize v) (asm v) (displayMode v)
    (isRestarting v) (zoomLevel v) zx zy (panSpeed v) (lastCaptureScale v).

(** [updateFrameSize] *)
Definition updateFrameSize (v : WebcamViewer) : WebcamViewer :=
  let size := (videoWidth v * videoHeight v * 3)%Z in
  mkViewer (termWidth v) (termHeight v) (videoWidth v) (videoHeight v)
    (captureWidth v) (captureHeight v) size
    (mkAssembler (Uint8Array_new size) 0 (frameCount (asm v)))
    (displayMode v) (isRestarting v) (zoomLevel v) (zoomX v) (zoomY v)
    (panSpeed v) (lastCaptureScale v).

(** [processVideoData]: the frame size is the field [frameSize]. *)
Definition processVideoData (chunk : list byte) (v : WebcamViewer)
    : option (WebcamViewer * list (list byte)) :=
  '(a, frames) ← processVideoData (Z.to_nat (frameSize v)) chunk (asm v);
  Some (set_asm a v, frames).

(** [getCharForBrightness]; [None] is [undefined]. *)
Definition getCharForBrightness (v : WebcamViewer) (brightness : Q) : option string :=
  let normalizedBrightness := normalize brightness in
  match displayMode v with
  | blocks => charAt blockChars (rampIndex blockChars normalizedBrightness)
  | shades => charAt shadeChars (rampIndex shadeChars normalizedBrightness)
  | ascii => charAt asciiChars (rampIndex asciiChars normalizedBrightness)
  | braille => charAt brailleChars (rampIndex brailleChars normalizedBrightness)
  | dots => charAt dotChars (rampIndex dotChars normalizedBrightness)
  | pixels => Some pixelChar
  end.

(** [videoX] and [videoY] of [sampleVideoPixel], before clamping. *)
Definition videoXY (v : WebcamViewer) (termX termY : Z) : Z * Z :=
  let viewWidth := (inject_Z (videoWidth v) / zoomLevel v)%Q in
  let viewHeight := (inject_Z (videoHeight v) / zoomLevel v)%Q in
  let startX := ((inject_Z (videoWidth v) - viewWidth) * zoomX v)%Q in
  let startY := ((inject_Z (videoHeight v) - viewHeight) * zoomY v)%Q in
  let videoX := Math_floor (startX + (inject_Z termX / inject_Z (termWidth v)) * viewWidth)%Q in
  let videoY := Math_floor (startY + (inject_Z termY / inject_Z (termHeight v)) * viewHeight)%Q in
  (videoX, videoY).

(** [(y * this.videoWidth + x) * 3] *)
Definition bufferIndex (v : WebcamViewer) (x y : Z) : Z := ((y * videoWidth v + x) * 3)%Z.

(** [sampleVideoPixel] *)
Definition sampleVideoPixel (v : WebcamViewer) (termX termY : Z) : RGB :=
  let '(videoX, videoY) := videoXY v termX termY in
  let x := clampCoord videoX (videoWidth v) in
  let y := clampCoord videoY (videoHeight v) in
  let idx := bufferIndex v x y in
  let buf := videoBuffer (asm v) in
  if (idx + 2 <? Z.of_nat (length buf))%Z then
    mkRGB (readByte buf idx) (readByte buf (idx + 1)%Z) (readByte buf (idx + 2)%Z)
  else black.

(** The body of the loops of [renderFrame]: [content], [fg], [bg] of one
    cell of the text grid. *)
Definition renderCell (v : WebcamViewer) (p : RGB) : option string * string * string :=
  let brightness := luma p in
  let char := getCharForBrightness v brightness in
  let color := hexColor p in
  match displayMode v with
  | pixels => (char, color, color)
  | blocks | shades => (char, color, "#000000")
  | _ => (char, color, "#000000")
  end.

(** [pan] *)
Definition pan (dx dy : Q) (v : WebcamViewer) : WebcamViewer :=
  if Qlt_le_dec 1%Q (zoomLevel v) then
    let adjustedSpeed := (panSpeed v / zoomLevel v)%Q in
    set_zoomXY (clamp01 (zoomX v + dx * adjustedSpeed)%Q)
               (clamp01 (zoomY v + dy * adjustedSpeed)%Q) v
  else v.

(** [cleanup]: [process.exit(0)].  The second component is the exit code
    of the process, [None] while it keeps running. *)
Definition cleanup (v : WebcamViewer) : WebcamViewer * option Z :=
  (set_isRestarting true v, Some 0%Z).

(** [this.ffmpeg.on('exit', (code) => ...)]; [code] is [null] when a
    signal ended the capture process. *)
Definition onFfmpegExit (code : option Z) (v : WebcamViewer) : WebcamViewer * option Z :=
  if negb (isRestarting v) then cleanup v else (v, None).


(** The events that can end the process, and the exit code the handler of
    each passes to [process.exit]; [None]: the process keeps running. *)
Inductive Event :=
| KeyPress (key : string)
| FfmpegExit (code : option Z).


End DynamicRes.

(** ** The camera-selection viewer: its handlers of the capture process *)

Module SelectViewer.

Inductive Event :=
| FfmpegError                   (* ffmpeg.on('error'): the spawn failed *)
| FfmpegExit (code : option Z)  (* ffmpeg.on('exit') *)
| Sigint.                       (* process.on('SIGINT'): Ctrl+C *)


End SelectViewer.

(** ** The quadrant viewer: [getPixel] and [renderQuadrant] *)

(** [(char, fg, bg)] of a cell; [RGBA.fromRGB(r, g, b)] is kept as the
    triple of its arguments. *)
Record Cell := mkCell { char : option string; fg : RGB; bg : RGB }.

(** [{r, g, b, count}] *)
Record ColorSum := mkColorSum { sum : RGB; count : Z }.

Definition quadrantChars : list string :=
  [ " "; "▗"; "▖"; "▄"; "▝"; "▐"; "▞"; "▟";
    "▘"; "▚"; "▌"; "▙"; "▀"; "▜"; "▛"; "█" ].

(** [0.299 * p.r + 0.587 * p.g + 0.114 * p.b] *)
Definition luminance (p : RGB) : Q := (0.299 * r p + 0.587 * g p + 0.114 * b p)%Q.

(** [(q[0] ? 8 : 0) + (q[1] ? 4 : 0) + (q[2] ? 2 : 0) + (q[3] ? 1 : 0)];
    a missing element is [undefined], which counts as false. *)
Definition quadrantBits (q : list bool) : nat :=
  let at_ i := default false (q !! i) in
  (if at_ 0 then 8 else 0) + (if at_ 1 then 4 else 0)
  + (if at_ 2 then 2 else 0) + (if at_ 3 then 1 else 0).

Module Quadrant.

Record WebcamViewer := mkViewer {
  width : Z;
  height : Z;
  videoWidth : Z;
  videoHeight : Z;
  frameSize : Z;
  asm : Assembler
}.

(** [getPixel]: four bytes per pixel *)
Definition getPixel (v : WebcamViewer) (x y : Z) : RGB :=
  if (videoWidth v <=? x)%Z || (videoHeight v <=? y)%Z then black
  else
    let idx := ((y * videoWidth v + x) * 4)%Z in
    let buf := videoBuffer (asm v) in
    mkRGB (readByte buf idx) (readByte buf (idx + 1)%Z) (readByte buf (idx + 2)%Z).

(** [luminances.reduce((a, b) => a + b)]: without an initial value the
    call throws on an empty array ([None]). *)
Definition reduceSum (l : list Q) : option Q :=
  match l with
  | [] => None
  | x :: xs => Some (foldl Qplus x xs)
  end.

Definition addColor (c : ColorSum) (p : RGB) : ColorSum :=
  mkColorSum (mkRGB (r (sum c) + r p) (g (sum c) + g p) (b (sum c) + b p))%Q
             (count c + 1)%Z.

(** [c.r = Math.round(c.r / c.count)], and the same for [g] and [b]. *)
Definition roundColor (c : ColorSum) : ColorSum :=
  mkColorSum (mkRGB (inject_Z (Math_round (r (sum c) / inject_Z (count c))))
                    (inject_Z (Math_round (g (sum c) / inject_Z (count c))))
                    (inject_Z (Math_round (b (sum c) / inject_Z (count c)))))%Q
             (count c).

Definition zeroColor : ColorSum := mkColorSum black 0.

(** [luminances], [avgLum] and [isDark] of [renderQuadrant]; [pixels] is
    the array [TL, TR, BL, BR]. *)
Definition darkQuadrants (pixels : list RGB) : option (list bool) :=
  let luminances := luminance <$> pixels in
  total ← reduceSum luminances;
  let avgLum := (total / 4)%Q in
  Some ((λ l, if Qlt_le_dec l avgLum then true else false) <$> luminances).

(** [renderQuadrant] *)
Definition renderQuadrant (pixels : list RGB) : option Cell :=
  isDark ← darkQuadrants pixels;
  let bits := quadrantBits isDark in
  let char := quadrantChars !! bits in
  let '(darkColor, lightColor) :=
    foldl (λ (acc : ColorSum * ColorSum) (pd : RGB * bool),
             if pd.2 then (addColor acc.1 pd.1, acc.2)
             else (acc.1, addColor acc.2 pd.1))
          (zeroColor, zeroColor) (zip pixels isDark) in
  let darkColor := if (0 <? count darkColor)%Z then roundColor darkColor else darkColor in
  let lightColor := if (0 <? count lightColor)%Z then roundColor lightColor
                    else mkColorSum (mkRGB 255 255 255) 1 in
  Some (mkCell char (sum darkColor) (sum lightColor)).

(** The four sub-samples of the cell [(cx, cy)] in [renderFrame]. *)
Definition quadPixels (v : WebcamViewer) (cx cy : Z) : list RGB :=
  let px := (cx * 2)%Z in
  let py := (cy * 2)%Z in
  [ getPixel v px py; getPixel v (px + 1)%Z py;
    getPixel v px (py + 1)%Z; getPixel v (px + 1)%Z (py + 1)%Z ].

End Quadrant.

(** ** The super-sampling viewer: the body of [renderFallback] *)

Module SuperSample.

(** [Math.min(...l)] and [Math.max(...l)] of a non-empty array. *)
Definition minimum (l : list Q) : option Q :=
  match l with [] => None | x :: xs => Some (foldl Qmin x xs) end.
Definition maximum (l : list Q) : option Q :=
  match l with [] => None | x :: xs => Some (foldl Qmax x xs) end.

(** [l.indexOf(x)]: the first index that holds a number equal to [x]. *)
Fixpoint indexOf (l : list Q) (x : Q) : option nat :=
  match l with
  | [] => None
  | y :: ys => if Qeq_bool y x then Some 0 else S <$> indexOf ys x
  end.

(** What [renderFallback] puts in one cell, from its four sub-samples
    [TL, TR, BL, BR].  [None] is the exception of a read in an empty
    array. *)
Definition renderFallback (pixels : list RGB) : option Cell :=
  let avgColor :=
    mkRGB (foldl (λ s p, s + r p) 0 pixels / 4)%Q
          (foldl (λ s p, s + g p) 0 pixels / 4)%Q
          (foldl (λ s p, s + b p) 0 pixels / 4)%Q in
  let luminances := luminance <$> pixels in
  lo ← minimum luminances;
  hi ← maximum luminances;
  darkIdx ← indexOf luminances lo;
  lightIdx ← indexOf luminances hi;
  darkColor ← pixels !! darkIdx;
  lightColor ← pixels !! lightIdx;
  let quadrants :=
    (λ p, let lum := luminance p in
          let avgLum := luminance avgColor in
          if Qlt_le_dec lum avgLum then true else false) <$> pixels in
  let bits := quadrantBits quadrants in
  let char := quadrantChars !! bits in
  Some (mkCell char (mkRGB (r darkColor) (g darkColor) (b darkColor))
                    (mkRGB (r lightColor) (g lightColor) (b lightColor))).

End SuperSample.

(** ** opentui-core: [TextRenderable] and the render loop of
    [SimpleCliRenderer] *)

Module OpentuiCore.

Record TextRenderable := mkText {
  id : string;
  content : string;
  x : Z;
  y : Z;
  fg : option string;           (* [fg?: string] *)
  bg : option string;           (* [bg?: string] *)
  zIndex : Z
}.

Definition set_fg (c : option string) (t : TextRenderable) : TextRenderable :=
  mkText (id t) (content t) (x t) (y t) c (bg t) (zIndex t).
Definition set_bg (c : option string) (t : TextRenderable) : TextRenderable :=
  mkText (id t) (content t) (x t) (y t) (fg t) c (zIndex t).

(** [renderables] holds the values of the [Map] in the order of their
    insertion; [stdout] is written to, so the writes are returned by the
    functions that make them. *)
Record SimpleCliRenderer := mkRenderer {
  terminalWidth : Z;
  terminalHeight : Z;
  renderables : list TextRenderable;
  running : bool;
  lastRenderState : gmap string string
}.

Definition set_renderables (l : list TextRenderable) (s : SimpleCliRenderer)
    : SimpleCliRenderer :=
  mkRenderer (terminalWidth s) (terminalHeight s) l (running s) (lastRenderState s).
Definition set_lastRenderState (m : gmap string string) (s : SimpleCliRenderer)
    : SimpleCliRenderer :=
  mkRenderer (terminalWidth s) (terminalHeight s) (renderables s) (running s) m.

(** [this.renderables.set(renderable.id, renderable)]: a key that is
    present keeps its place. *)
Fixpoint mapSet (t : TextRenderable) (l : list TextRenderable) : list TextRenderable :=
  match l with
  | [] => [t]
  | u :: us => if String.eqb (id u) (id t) then t :: us else u :: mapSet t us
  end.

Definition add (t : TextRenderable) (s : SimpleCliRenderer) : SimpleCliRenderer :=
  set_renderables (mapSet t (renderables s)) s.

(** [sort((a, b) => a.zIndex - b.zIndex)]: a stable sort. *)
Fixpoint insertByZIndex (t : TextRenderable) (l : list TextRenderable) : list TextRenderable :=
  match l with
  | [] => [t]
  | u :: us => if (zIndex t <? zIndex u)%Z then t :: u :: us
               else u :: insertByZIndex t us
  end.

Definition sortByZIndex (l : list TextRenderable) : list TextRenderable :=
  foldl (λ acc t, insertByZIndex t acc) [] l.

(** A string or [undefined] in a template literal. *)
Definition text (c : option string) : string := default "undefined" c.

(** A string or [undefined] as a condition: the empty string is false. *)
Definition truthy (c : option string) : bool :=
  match c with
  | Some s => negb (String.eqb s "")
  | None => false
  end.

(** [`${content}|${fg}|${bg}|${x}|${y}`] *)
Definition stateHash (t : TextRenderable) : string :=
  content t +:+ "|" +:+ text (fg t) +:+ "|" +:+ text (bg t)
    +:+ "|" +:+ pretty (x t) +:+ "|" +:+ pretty (y t).

Definition hexValue (c : Ascii.ascii) : option Z :=
  let n := Z.of_nat (Ascii.nat_of_ascii c) in
  if (48 <=? n)%Z && (n <=? 57)%Z then Some (n - 48)%Z
  else if (97 <=? n)%Z && (n <=? 102)%Z then Some (n - 87)%Z
  else if (65 <=? n)%Z && (n <=? 70)%Z then Some (n - 55)%Z
  else None.

(** [parseInt(s, 16)] of two hexadecimal digits *)
Definition parseHex2 (c d : Ascii.ascii) : option Z :=
  hi ← hexValue c; lo ← hexValue d; Some (hi * 16 + lo)%Z.

(** [hexToRgb]: the pattern [^#?([a-f\d]{2})([a-f\d]{2})([a-f\d]{2})$],
    letters of both cases. *)
Definition hexToRgb (hex : string) : option (Z * Z * Z) :=
  let digits := match hex with
                | String "#"%char rest => rest
                | _ => hex
                end in
  match String.list_ascii_of_string digits with
  | [r1; r2; g1; g2; b1; b2] =>
    rv ← parseHex2 r1 r2; gv ← parseHex2 g1 g2; bv ← parseHex2 b1 b2;
    Some (rv, gv, bv)
  | _ => None
  end.

Definition ESC : string := String (Ascii.ascii_of_nat 27) "".

(** [`\x1b[${y + 1};${x + 1}H`] *)
Definition cursorTo (t : TextRenderable) : string :=
  ESC +:+ "[" +:+ pretty (y t + 1)%Z +:+ ";" +:+ pretty (x t + 1)%Z +:+ "H".

Definition clearLine : string := ESC +:+ "[K".
Definition resetColors : string := ESC +:+ "[0m".

(** [`\x1b[${layer};2;${r};${g};${b}m`], or nothing when the colour is
    absent or is not a hexadecimal colour. *)
Definition colorEscape (layer : string) (c : option string) : string :=
  if truthy c then
    match hexToRgb (text c) with
    | Some (rv, gv, bv) =>
      ESC +:+ "[" +:+ layer +:+ ";2;" +:+ pretty rv +:+ ";" +:+ pretty gv
          +:+ ";" +:+ pretty bv +:+ "m"
    | None => ""
    end
  else "".

Definition colorCode (t : TextRenderable) : string :=
  colorEscape "38" (fg t) +:+ colorEscape "48" (bg t).

(** An overlay: [renderable.zIndex >= 1000 && renderable.bg]. *)
Definition isOverlay (t : TextRenderable) : bool :=
  (1000 <=? zIndex t)%Z && truthy (bg t).

(** The calls of [this.stdout.write] for one renderable whose state has
    changed, in order. *)
Definition cellWrites (t : TextRenderable) : list string :=
  [cursorTo t]
  ++ (if isOverlay t then [clearLine; cursorTo t] else [])
  ++ (if truthy (fg t) || truthy (bg t) then [colorCode t] else [])
  ++ [content t]
  ++ (if truthy (fg t) || truthy (bg t) then [resetColors] else []).

(** The body of the [for] loop of [renderLoop]: the state of the last
    render and the groups of writes made so far, one group per renderable
    that was written. *)
Definition renderOne (acc : gmap string string * list (list string))
    (t : TextRenderable) : gmap string string * list (list string) :=
  let stateHash := stateHash t in
  let lastState := acc.1 !! id t in
  if bool_decide (lastState ≠ Some stateHash) then
    (<[id t := stateHash]> acc.1, acc.2 ++ [cellWrites t])
  else acc.

(** [renderLoop], one pass: the renderer after it and the writes of the
    pass, grouped by renderable.  The timeout that starts the next pass is
    not part of it. *)
Definition renderLoop (s : SimpleCliRenderer) : SimpleCliRenderer * list (list string) :=
  if negb (running s) then (s, [])
  else
    let sorted := sortByZIndex (renderables s) in
    let '(last, writes) := foldl renderOne (lastRenderState s, []) sorted in
    (set_lastRenderState last s, writes).

(** All the strings written to [stdout] by a pass, in order. *)
Definition stdoutWrites (groups : list (list string)) : list string := concat groups.

End OpentuiCore.

(** ** Vocabulary of the properties *)

(** The invariant of the assembler between two calls, for a frame of [F]
    bytes: the buffer has the size of a frame and holds an incomplete
    frame. *)
Definition assembling (F : nat) (a : Assembler) : Prop :=
  length (videoBuffer a) = F ∧ bufferPos a < F.

(** The three bytes read at the index [idx] are inside the buffer. *)
Definition reads_in_bounds (buf : list byte) (idx : Z) : Prop :=
  (0 ≤ idx)%Z ∧ (idx + 2 < Z.of_nat (length buf))%Z
  ∧ ∀ k, (0 ≤ k ≤ 2)%Z → is_Some (buf !! Z.to_nat (idx + k)).

(** Every field but the pan position is the same in [v] and [v']. *)
Definition terminal_webcam_same_but_pan (v v' : TerminalWebcam.WebcamViewer) : Prop :=
  TerminalWebcam.termWidth v' = TerminalWebcam.termWidth v
  ∧ TerminalWebcam.termHeight v' = TerminalWebcam.termHeight v
  ∧ TerminalWebcam.captureWidth v' = TerminalWebcam.captureWidth v
  ∧ TerminalWebcam.captureHeight v' = TerminalWebcam.captureHeight v
  ∧ TerminalWebcam.asm v' = TerminalWebcam.asm v
  ∧ TerminalWebcam.displayMode v' = TerminalWebcam.displayMode v
  ∧ TerminalWebcam.isRestarting v' = TerminalWebcam.isRestarting v
  ∧ TerminalWebcam.restartTimer v' = TerminalWebcam.restartTimer v
  ∧ TerminalWebcam.pendingZoomLevel v' = TerminalWebcam.pendingZoomLevel v
  ∧ TerminalWebcam.zoomLevel v' = TerminalWebcam.zoomLevel v
  ∧ TerminalWebcam.panSpeed v' = TerminalWebcam.panSpeed v
  ∧ TerminalWebcam.spawned v' = TerminalWebcam.spawned v.

Definition dynamic_res_same_but_pan (v v' : DynamicRes.WebcamViewer) : Prop :=
  DynamicRes.termWidth v' = DynamicRes.termWidth v
  ∧ DynamicRes.termHeight v' = DynamicRes.termHeight v
  ∧ DynamicRes.videoWidth v' = DynamicRes.videoWidth v
  ∧ DynamicRes.videoHeight v' = DynamicRes.videoHeight v
  ∧ DynamicRes.captureWidth v' = DynamicRes.captureWidth v
  ∧ DynamicRes.captureHeight v' = DynamicRes.captureHeight v
  ∧ DynamicRes.frameSize v' = DynamicRes.frameSize v
  ∧ DynamicRes.asm v' = DynamicRes.asm v
  ∧ DynamicRes.displayMode v' = DynamicRes.displayMode v
  ∧ DynamicRes.isRestarting v' = DynamicRes.isRestarting v
  ∧ DynamicRes.zoomLevel v' = DynamicRes.zoomLevel v
  ∧ DynamicRes.panSpeed v' = DynamicRes.panSpeed v
  ∧ DynamicRes.lastCaptureScale v' = DynamicRes.lastCaptureScale v.

(** A sample whose three channels are in [0,255]. *)
Definition channels_in_range (p : RGB) : Prop :=
  (0 <= r p <= 255)%Q ∧ (0 <= g p <= 255)%Q ∧ (0 <= b p <= 255)%Q.




(** The mean of the four luminances, added in the order of the array. *)
Definition meanLuminance (tl tr bl br : RGB) : Q :=
  ((luminance tl + luminance tr + luminance bl + luminance br) / 4)%Q.

(** A sub-sample is dark when its luminance is below the mean of the four. *)
Definition darker (mean : Q) (p : RGB) : bool :=
  if Qlt_le_dec (luminance p) mean then true else false.

(** The quadrant encoder in the words of the specification: the partition of
    the four sub-samples by the mean luminance, the rounded mean colour of a
    partition, and the 4-bit mask with the top-left quadrant as its most
    significant bit. *)
Module QuadrantSpec.


Definition lightPart (tl tr bl br : RGB) : list RGB :=
  List.filter (λ p, negb (darker (meanLuminance tl tr bl br) p)) [tl; tr; bl; br].




End QuadrantSpec.

(** What [renderFallback] takes as foreground and background: a sub-sample
    of least luminance and one of greatest luminance. *)
Definition darkest (quad : list RGB) (p : RGB) : Prop :=
  p ∈ quad ∧ ∀ q, q ∈ quad → (luminance p <= luminance q)%Q.
Definition lightest (quad : list RGB) (p : RGB) : Prop :=
  p ∈ quad ∧ ∀ q, q ∈ quad → (luminance q <= luminance p)%Q.

(** The debounce of the zoom keys. *)
Module Debounce.
Import TerminalWebcam.

(** Nothing is going on: no timeout is set, no restart runs and the
    pending zoom level is the active one. *)
Definition quiescent (v : WebcamViewer) : Prop :=
  restartTimer v = None ∧ isRestarting v = false
  ∧ pendingZoomLevel v == zoomLevel v.

(** All requests arrive less than 500 ms after [t0]. *)
Definition within_quiet_period (t0 : Z) (reqs : list (Z * Q)) : Prop :=
  ∀ e, e ∈ reqs → (t0 ≤ e.1 < t0 + 500)%Z.

(** What a burst that started at [t0] from [v0] keeps true. *)
Definition burst_inv (t0 : Z) (v0 v : WebcamViewer) : Prop :=
  isRestarting v = false
  ∧ spawned v = spawned v0
  ∧ zoomLevel v = zoomLevel v0
  ∧ (∀ due, restartTimer v = Some due → (t0 + 500 ≤ due)%Z)
  ∧ (restartTimer v = None → pendingZoomLevel v == zoomLevel v).

End Debounce.

(** The render loop. *)
Module DiffRender.
Import OpentuiCore.

(** A renderable whose state is the one written last. *)
Definition fresh (last : gmap string string) (t : TextRenderable) : Prop :=
  last !! id t = Some (stateHash t).

#[export] Instance fresh_dec last t : Decision (fresh last t).
Proof. unfold fresh. apply _. Defined.


End DiffRender.

(** ** Sample states *)

(** A terminal of 80 by 24 cells before any key: zoom 1, no timeout set. *)
Definition viewer_80x24 : TerminalWebcam.WebcamViewer :=
  TerminalWebcam.mkViewer 80 24 640 480 (mkAssembler [] 0 0) TerminalWebcam.pixels
    false None 1 1 0.5 0.5 0.02 [].

(** Viewers on a frame of 4 by 2 pixels, at zoom 2. *)
Definition small_terminal_webcam : TerminalWebcam.WebcamViewer :=
  TerminalWebcam.mkViewer 80 24 4 2 (mkAssembler (replicate 24 "255"%byte) 0 0)
    TerminalWebcam.blocks false None 2 2 0.5 0.5 0.02 [].

Definition small_dynamic_res : DynamicRes.WebcamViewer :=
  DynamicRes.mkViewer 80 24 4 2 640 480 24 (mkAssembler (replicate 24 "255"%byte) 0 0)
    DynamicRes.dots false 2 0.5 0.5 0.05 1.

Definition small_quadrant : Quadrant.WebcamViewer :=
  Quadrant.mkViewer 2 1 4 2 32 (mkAssembler (replicate 32 "255"%byte) 0 0).

(** Four sub-samples: black, white, dark grey and orange. *)
Definition sample_quad : list RGB :=
  [mkRGB 0 0 0; mkRGB 255 255 255; mkRGB 10 10 10; mkRGB 200 100 50].

(** A renderer with one cell of the grid and the status bar, before its
    first pass. *)
Definition cell_0_1 : OpentuiCore.TextRenderable :=
  OpentuiCore.mkText "0-1" "x" 0 1 (Some "#ff0000") (Some "#000000") 1.
Definition status_bar : OpentuiCore.TextRenderable :=
  OpentuiCore.mkText "status" "FPS: 0" 2 0 (Some "#FFFFFF") (Some "#333333") 1000.
Definition small_renderer : OpentuiCore.SimpleCliRenderer :=
  OpentuiCore.mkRenderer 80 24 [status_bar; cell_0_1] true ∅.

(** ** The quadrant and the super-sampling viewer: [processVideoData]

    The loop of these two viewers has no test of [bufferPos] in its
    condition.  [toRead] and [offset] are integers that the source does not
    keep from going below zero, so they are in [Z] here. *)

Module Unguarded.

(** [chunk[i]] as stored in a [Uint8Array]: [undefined] is stored as 0. *)
Definition chunkAt (chunk : list byte) (i : Z) : byte :=
  if (i <? 0)%Z then x00 else default x00 (chunk !! Z.to_nat i).

(** [for (let i = 0; i < toRead; i++)
       this.videoBuffer[this.bufferPos + i] = chunk[offset + i]] *)
Definition copyChunk (buf chunk : list byte) (pos : nat) (offset toRead : Z) : list byte :=
  foldl (λ b i, <[pos + i := chunkAt chunk (offset + Z.of_nat i)]> b)
        buf (seq 0 (Z.to_nat toRead)).

(** The [while (offset < chunk.length)] loop.  [bufferPos + toRead] is below
    zero only when [frameSize] is, and is then reset to 0 by the test that
    follows.  [None] is an exhausted [fuel]. *)
Fixpoint processVideoData_loop (fuel : nat) (frameSize : Z) (chunk : list byte)
    (offset : Z) (a : Assembler) (out : list (list byte))
    : option (Assembler * list (list byte)) :=
  match fuel with
  | O => None
  | S fuel' =>
    if (offset <? Z.of_nat (length chunk))%Z then
      let toRead := ((frameSize - Z.of_nat (bufferPos a))
                     `min` (Z.of_nat (length chunk) - offset))%Z in
      let buf := copyChunk (videoBuffer a) chunk (bufferPos a) offset toRead in
      let pos := (Z.of_nat (bufferPos a) + toRead)%Z in
      let offset' := (offset + toRead)%Z in
      if (frameSize <=? pos)%Z then
        processVideoData_loop fuel' frameSize chunk offset'
          (mkAssembler buf 0 (S (frameCount a))) (out ++ [buf])
      else
        processVideoData_loop fuel' frameSize chunk offset'
          (mkAssembler buf (Z.to_nat pos) (frameCount a)) out
    else Some (a, out)
  end.

(** [processVideoData] of the quadrant viewer, with the fuel that a frame
    size above zero needs: every iteration then consumes a byte. *)
Definition processVideoData (chunk : list byte) (v : Quadrant.WebcamViewer)
    : option (Quadrant.WebcamViewer * list (list byte)) :=
  '(a, frames) ← processVideoData_loop (S (length chunk)) (Quadrant.frameSize v)
                   chunk 0 (Quadrant.asm v) [];
  Some (Quadrant.mkViewer (Quadrant.width v) (Quadrant.height v)
          (Quadrant.videoWidth v) (Quadrant.videoHeight v) (Quadrant.frameSize v) a,
        frames).

End Unguarded.

(** ** terminal-webcam: the keys, the events and the start of the viewer *)

Module TerminalWebcamEvents.
Import TerminalWebcam.

Definition set_displayMode (m : DisplayMode) (v : WebcamViewer) : WebcamViewer :=
  mkViewer (termWidth v) (termHeight v) (captureWidth v) (captureHeight v)
    (asm v) m (isRestarting v) (restartTimer v) (pendingZoomLevel v)
    (zoomLevel v) (panX v) (panY v) (panSpeed v) (spawned v).

(** The constructor and the initial values of the fields; [videoBuffer] is
    not allocated yet. *)
Definition new_WebcamViewer (terminalWidth terminalHeight : Z) : WebcamViewer :=
  mkViewer terminalWidth terminalHeight 640 480 (mkAssembler [] 0 0) pixels
    false None 1 1 0.5 0.5 0.02 [].

(** [setDisplayMode]; the text of the mode indicator is left out. *)
Definition setDisplayMode (mode : DisplayMode) (v : WebcamViewer) : WebcamViewer :=
  set_displayMode mode v.

(** [resetZoom] *)
Definition resetZoom (now : Z) (v : WebcamViewer) : WebcamViewer :=
  if negb (Qeq_bool (pendingZoomLevel v) 1) || negb (Qeq_bool (zoomLevel v) 1) then
    let v := set_pendingZoomLevel 1 v in
    let v := set_pan 0.5 0.5 v in
    scheduleRestart now v
  else v.

(** [cleanup]: the second component is the code given to [process.exit]. *)
Definition cleanup (v : WebcamViewer) : WebcamViewer * option Z :=
  let v := set_isRestarting true v in
  let v := set_restartTimer None v in
  (v, Some 0%Z).

Definition ESC : string := String (Ascii.ascii_of_nat 27) "".
Definition CtrlC : string := String (Ascii.ascii_of_nat 3) "".

(** The [switch] of [setupKeyboard] on a key received at the time [now];
    a key that has no [case] changes nothing. *)
Definition handleKey (now : Z) (keyStr : string) (v : WebcamViewer)
    : WebcamViewer * option Z :=
  if String.eqb keyStr "1" then (setDisplayMode pixels v, None)
  else if String.eqb keyStr "2" then (setDisplayMode blocks v, None)
  else if String.eqb keyStr "3" then (setDisplayMode shades v, None)
  else if String.eqb keyStr "4" then (setDisplayMode ascii v, None)
  else if String.eqb keyStr "+" || String.eqb keyStr "=" then (adjustZoom now 0.5 v, None)
  else if String.eqb keyStr "-" || String.eqb keyStr "_" then (adjustZoom now (-0.5) v, None)
  else if String.eqb keyStr "0" then (resetZoom now v, None)
  else if String.eqb keyStr (ESC +:+ "[A") then (pan 0 (-1) v, None)
  else if String.eqb keyStr (ESC +:+ "[B") then (pan 0 1 v, None)
  else if String.eqb keyStr (ESC +:+ "[C") then (pan 1 0 v, None)
  else if String.eqb keyStr (ESC +:+ "[D") then (pan (-1) 0 v, None)
  else if String.eqb keyStr "q" || String.eqb keyStr "Q" || String.eqb keyStr CtrlC
  then cleanup v
  else (v, None).

(** [this.ffmpeg.stdout.on('data', ...)]: a chunk that arrives during a
    restart is dropped. *)
Definition onData (chunk : list byte) (v : WebcamViewer)
    : option (WebcamViewer * list (list byte)) :=
  if negb (isRestarting v) then processVideoData chunk v else Some (v, []).

(** [this.ffmpeg.on('error', ...)] *)
Definition onFfmpegError (v : WebcamViewer) : WebcamViewer := set_isRestarting false v.

(** *** [startFFmpeg] between its waits

    [startFFmpeg] waits 300 ms after the kill of the old capture process
    and 100 ms after the spawn of the new one, and the event loop handles
    keys, data and timeouts in between.  A call that waits is kept beside
    the viewer with the place where it goes on. *)
Inductive Wait := AfterKill | AfterSpawn.

(** From the end of the first wait to the start of the second. *)
Definition startFFmpeg_spawn (v : WebcamViewer) : WebcamViewer :=
  let v := if negb (Qeq_bool (pendingZoomLevel v) (zoomLevel v))
           then set_zoomLevel (pendingZoomLevel v) v else v in
  let v := updateCaptureResolution v in
  set_spawned (spawned v ++ [mkCapture (captureWidth v) (captureHeight v) (zoomLevel v)]) v.

(** From the end of the second wait, at the time [now]. *)
Definition startFFmpeg_ready (now : Z) (v : WebcamViewer) : WebcamViewer :=
  let v := set_isRestarting false v in
  if negb (Qeq_bool (pendingZoomLevel v) (zoomLevel v))
  then scheduleRestart now v else v.

(** A call of [startFFmpeg] up to its first wait; [this.ffmpeg] is set
    once a capture process has been spawned, and there is no first wait
    before that. *)
Definition startFFmpeg_call (v : WebcamViewer) : WebcamViewer * list Wait :=
  if isRestarting v then (v, [])
  else
    let v := set_isRestarting true v in
    match spawned v with
    | [] => (startFFmpeg_spawn v, [AfterSpawn])
    | _ :: _ => (v, [AfterKill])
    end.

(** The end of a wait, at the time [now]. *)
Definition resume (now : Z) (w : Wait) (v : WebcamViewer) : WebcamViewer * list Wait :=
  match w with
  | AfterKill => (startFFmpeg_spawn v, [AfterSpawn])
  | AfterSpawn => (startFFmpeg_ready now v, [])
  end.

(** A call whose waits end before any other event, the second one at the
    time [ready]. *)
Definition uninterrupted (ready : Z) (call : WebcamViewer * list Wait) : WebcamViewer :=
  match call.2 with
  | [] => call.1
  | AfterKill :: _ => startFFmpeg_ready ready (startFFmpeg_spawn call.1)
  | AfterSpawn :: _ => startFFmpeg_ready ready call.1
  end.

(** The callback of the timeout set by [scheduleRestart]. *)
Definition onRestartTimer (v : WebcamViewer) : WebcamViewer * list Wait :=
  match restartTimer v with
  | Some due =>
    let v := set_restartTimer None v in
    if negb (Qeq_bool (pendingZoomLevel v) (zoomLevel v)) && negb (isRestarting v)
    then startFFmpeg_call v else (v, [])
  | None => (v, [])
  end.

(** The viewer and the calls of [startFFmpeg] that wait. *)
Record Process := mkProcess { viewer : WebcamViewer; waits : list Wait }.

(** [init]: what it does to the viewer is the first call of [startFFmpeg]. *)
Definition init (v : WebcamViewer) : Process :=
  let '(v, ws) := startFFmpeg_call v in mkProcess v ws.

(** What the event loop delivers to the viewer: a key, the timeout of
    [scheduleRestart] if one is set, a chunk of the capture process, its
    exit (which is only logged), its error, and the end of the wait of the
    [i]-th call that waits. *)
Inductive Event :=
| KeyPress (now : Z) (keyStr : string)
| Timeout
| Data (chunk : list byte)
| FfmpegExit (code : option Z)
| FfmpegError
| Resume (now : Z) (i : nat).

(** One event: the process after it and the exit code if it ended;
    [None] is an exhausted fuel in [processVideoData]. *)
Definition step (p : Process) (e : Event) : option (Process * option Z) :=
  match e with
  | KeyPress now keyStr =>
    let '(v, code) := handleKey now keyStr (viewer p) in
    Some (mkProcess v (waits p), code)
  | Timeout =>
    let '(v, ws) := onRestartTimer (viewer p) in
    Some (mkProcess v (waits p ++ ws), None)
  | Data chunk =>
    '(v, _) ← onData chunk (viewer p);
    Some (mkProcess v (waits p), None)
  | FfmpegExit code => Some (p, None)
  | FfmpegError => Some (mkProcess (onFfmpegError (viewer p)) (waits p), None)
  | Resume now i =>
    match waits p !! i with
    | Some w =>
      let '(v, ws) := resume now w (viewer p) in
      Some (mkProcess v (delete i (waits p) ++ ws), None)
    | None => Some (p, None)
    end
  end.

(** The events in order, up to the exit of the process. *)
Fixpoint run (events : list Event) (p : Process) : option (Process * option Z) :=
  match events with
  | [] => Some (p, None)
  | e :: es =>
    '(p', code) ← step p e;
    match code with
    | Some c => Some (p', Some c)
    | None => run es p'
    end
  end.

End TerminalWebcamEvents.

(** The state that every event keeps: zoom levels in [1,8], pan position in
    [0,1], a capture size in its bounds and a buffer of one frame of that
    size with the write position inside it. *)
Definition terminal_webcam_ok (v : TerminalWebcam.WebcamViewer) : Prop :=
  (1 <= TerminalWebcam.pendingZoomLevel v <= 8)%Q
  ∧ (1 <= TerminalWebcam.zoomLevel v <= 8)%Q
  ∧ (0 <= TerminalWebcam.panX v <= 1)%Q
  ∧ (0 <= TerminalWebcam.panY v <= 1)%Q
  ∧ (640 ≤ TerminalWebcam.captureWidth v ≤ 1920)%Z
  ∧ (480 ≤ TerminalWebcam.captureHeight v ≤ 1080)%Z
  ∧ assembling (Z.to_nat (TerminalWebcam.captureWidth v * TerminalWebcam.captureHeight v * 3))
               (TerminalWebcam.asm v).

(** One side of the capture size, as [updateCaptureResolution] computes it
    from the number of cells and the zoom level: ten pixels per cell times
    the zoom, at most [cap], made even, at least [least]. *)
Definition captureSide (cap least cells : Z) (zoom : Q) : Z :=
  let side := (cap `min` Math_round (inject_Z (cells * 10) * zoom))%Z in
  let side := (Math_round (inject_Z side / 2) * 2)%Z in
  (least `max` side)%Z.

(** The capture process started last scales to the capture size of the
    viewer and was started for its active zoom level. *)
Definition capture_in_step (v : TerminalWebcam.WebcamViewer) : Prop :=
  ∃ c, last (TerminalWebcam.spawned v) = Some c
       ∧ TerminalWebcam.scaleWidth c = TerminalWebcam.captureWidth v
       ∧ TerminalWebcam.scaleHeight c = TerminalWebcam.captureHeight v
       ∧ TerminalWebcam.forZoom c = TerminalWebcam.zoomLevel v.

(** A zoom level that was asked for and is not the active one yet is on its
    way: a timeout of [scheduleRestart] is set or a call of [startFFmpeg]
    waits; and a restart that is marked as going on is such a call. *)
Definition zoom_request_kept (p : TerminalWebcamEvents.Process) : Prop :=
  let v := TerminalWebcamEvents.viewer p in
  (¬ TerminalWebcam.pendingZoomLevel v == TerminalWebcam.zoomLevel v →
   TerminalWebcam.restartTimer v ≠ None ∨ TerminalWebcamEvents.waits p ≠ [])
  ∧ (TerminalWebcam.isRestarting v = true → TerminalWebcamEvents.waits p ≠ []).

(** ** pong-game/webcam-dynamic-res.ts: capture tiers, keys and events *)

Module DynamicResEvents.
Import DynamicRes.

Definition set_capture (w h : Z) (v : WebcamViewer) : WebcamViewer :=
  mkViewer (termWidth v) (termHeight v) (videoWidth v) (videoHeight v)
    w h (frameSize v) (asm v) (displayMode v)
    (isRestarting v) (zoomLevel v) (zoomX v) (zoomY v) (panSpeed v)
    (lastCaptureScale v).
Definition set_displayMode (m : DisplayMode) (v : WebcamViewer) : WebcamViewer :=
  mkViewer (termWidth v) (termHeight v) (videoWidth v) (videoHeight v)
    (captureWidth v) (captureHeight v) (frameSize v) (asm v) m
    (isRestarting v) (zoomLevel v) (zoomX v) (zoomY v) (panSpeed v)
    (lastCaptureScale v).
Definition set_zoomLevel (z : Q) (v : WebcamViewer) : WebcamViewer :=
  mkViewer (termWidth v) (termHeight v) (videoWidth v) (videoHeight v)
    (captureWidth v) (captureHeight v) (frameSize v) (asm v) (displayMode v)
    (isRestarting v) z (zoomX v) (zoomY v) (panSpeed v) (lastCaptureScale v).
Definition set_lastCaptureScale (s : Q) (v : WebcamViewer) : WebcamViewer :=
  mkViewer (termWidth v) (termHeight v) (videoWidth v) (videoHeight v)
    (captureWidth v) (captureHeight v) (frameSize v) (asm v) (displayMode v)
    (isRestarting v) (zoomLevel v) (zoomX v) (zoomY v) (panSpeed v) s.

(** [getCameraResolutions]: the list of its [try] branch and the one of its
    [catch] branch, each entry as the pair [res.split('x').map(Number)]
    that [selectCaptureResolution] reads from it. *)
Definition commonResolutions : list (Z * Z) :=
  [(1920, 1080); (1280, 720); (960, 540); (640, 480); (320, 240)]%Z.
Definition defaultResolutions : list (Z * Z) :=
  [(1280, 720); (640, 480); (320, 240)]%Z.
Definition getCameraResolutions (failed : bool) : list (Z * Z) :=
  if failed then defaultResolutions else commonResolutions.

(** The constructor and the initial values of the fields. *)
Definition new_WebcamViewer (terminalWidth terminalHeight : Z) : WebcamViewer :=
  updateFrameSize
    (mkViewer terminalWidth terminalHeight (terminalWidth * 2) (terminalHeight * 2)
       640 480 0 (mkAssembler [] 0 0) pixels false 1 0.5 0.5 0.05 1).

(** [targetWidth] and [targetHeight] of [selectCaptureResolution] *)
Definition targetResolution (zoomLevel : Q) : Z * Z :=
  if Qle_bool 4 zoomLevel then (1920, 1080)%Z
  else if Qle_bool 2.5 zoomLevel then (1280, 720)%Z
  else if Qle_bool 1.5 zoomLevel then (960, 540)%Z
  else (640, 480)%Z.

(** [w >= targetWidth * 0.8 && h >= targetHeight * 0.8] *)
Definition matches (target res : Z * Z) : bool :=
  Qle_bool (inject_Z target.1 * 0.8) (inject_Z res.1)
  && Qle_bool (inject_Z target.2 * 0.8) (inject_Z res.2).

(** [selectCaptureResolution]: the first supported resolution that matches,
    640 by 480 if none does. *)
Definition selectCaptureResolution (supportedResolutions : list (Z * Z))
    (v : WebcamViewer) : WebcamViewer :=
  let target := targetResolution (zoomLevel v) in
  match List.find (matches target) supportedResolutions with
  | Some (w, h) => set_capture w h v
  | None => set_capture 640 480 v
  end.

(** A capture process started by [spawn('ffmpeg', ...)]: its [-video_size]
    and the size of its [scale] filter. *)
Record Capture := mkCapture {
  videoSizeWidth : Z; videoSizeHeight : Z; scaleWidth : Z; scaleHeight : Z
}.

(** *** [startFFmpeg] and its wait

    With a capture process running, [startFFmpeg] kills it and waits
    100 ms, and the event loop handles keys, data and exits in between.  The
    calls that wait are counted beside the viewer, with the capture
    processes started so far: [this.ffmpeg] is set once there is one. *)
Record Process := mkProcess {
  viewer : WebcamViewer;
  started : list Capture;
  waits : nat
}.

Definition set_viewer (v : WebcamViewer) (p : Process) : Process :=
  mkProcess v (started p) (waits p).

(** [startFFmpeg] from the end of its wait. *)
Definition startFFmpeg_spawn (supportedResolutions : list (Z * Z)) (p : Process)
    : Process :=
  let v := selectCaptureResolution supportedResolutions (viewer p) in
  let capture := mkCapture (captureWidth v) (captureHeight v) (videoWidth v) (videoHeight v) in
  mkProcess (set_isRestarting false v) (started p ++ [capture]) (waits p).

(** A call of [startFFmpeg], up to its wait if it has one. *)
Definition startFFmpeg (supportedResolutions : list (Z * Z)) (p : Process) : Process :=
  match started p with
  | [] => startFFmpeg_spawn supportedResolutions p
  | _ :: _ => mkProcess (viewer p) (started p) (S (waits p))
  end.

(** The end of the wait of a call. *)
Definition resume (supportedResolutions : list (Z * Z)) (p : Process) : Process :=
  match waits p with
  | O => p
  | S n => startFFmpeg_spawn supportedResolutions (mkProcess (viewer p) (started p) n)
  end.

(** [targetScale] of [restartCameraIfNeeded] *)
Definition targetScale (zoomLevel : Q) : Q :=
  if Qle_bool 4 zoomLevel then 4
  else if Qle_bool 2.5 zoomLevel then 2.5
  else if Qle_bool 1.5 zoomLevel then 1.5
  else 1.0.

(** [restartCameraIfNeeded], up to the wait of [startFFmpeg]; what follows
    the call only recolours the status line. *)
Definition restartCameraIfNeeded (supportedResolutions : list (Z * Z)) (p : Process)
    : Process :=
  let v := viewer p in
  let targetScale := targetScale (zoomLevel v) in
  if Qlt_le_dec 0.5 (Qabs (targetScale - lastCaptureScale v)) then
    let v := set_lastCaptureScale targetScale v in
    let v := set_isRestarting true v in
    startFFmpeg supportedResolutions (set_viewer v p)
  else p.

(** [setDisplayMode]; the text of the mode indicator is left out. *)
Definition setDisplayMode (mode : DisplayMode) (v : WebcamViewer) : WebcamViewer :=
  set_displayMode mode v.

(** [adjustZoom] *)
Definition adjustZoom (supportedResolutions : list (Z * Z)) (delta : Q) (p : Process)
    : Process :=
  let v := viewer p in
  let oldZoom := zoomLevel v in
  let v := set_zoomLevel (Qmax 1 (Qmin 10 (zoomLevel v + delta))) v in
  if negb (Qeq_bool (zoomLevel v) oldZoom) then
    let ratio := (oldZoom / zoomLevel v)%Q in
    let zx := (0.5 + (zoomX v - 0.5) * ratio)%Q in
    let zy := (0.5 + (zoomY v - 0.5) * ratio)%Q in
    let v := set_zoomXY (clamp01 zx) (clamp01 zy) v in
    restartCameraIfNeeded supportedResolutions (set_viewer v p)
  else set_viewer v p.

(** [resetZoom] *)
Definition resetZoom (supportedResolutions : list (Z * Z)) (p : Process) : Process :=
  let v := set_zoomLevel 1 (viewer p) in
  let v := set_zoomXY 0.5 0.5 v in
  restartCameraIfNeeded supportedResolutions (set_viewer v p).

Definition ESC : string := String (Ascii.ascii_of_nat 27) "".
Definition CtrlC : string := String (Ascii.ascii_of_nat 3) "".

(** The [switch] of [setupKeyboard]: the process after the key and the
    exit code if it ended. *)
Definition handleKey (supportedResolutions : list (Z * Z)) (keyStr : string)
    (p : Process) : Process * option Z :=
  let v := viewer p in
  if String.eqb keyStr "1" then (set_viewer (setDisplayMode blocks v) p, None)
  else if String.eqb keyStr "2" then (set_viewer (setDisplayMode shades v) p, None)
  else if String.eqb keyStr "3" then (set_viewer (setDisplayMode ascii v) p, None)
  else if String.eqb keyStr "4" then (set_viewer (setDisplayMode braille v) p, None)
  else if String.eqb keyStr "5" then (set_viewer (setDisplayMode dots v) p, None)
  else if String.eqb keyStr "6" then (set_viewer (setDisplayMode pixels v) p, None)
  else if String.eqb keyStr "+" || String.eqb keyStr "="
  then (adjustZoom supportedResolutions 0.5 p, None)
  else if String.eqb keyStr "-" || String.eqb keyStr "_"
  then (adjustZoom supportedResolutions (-0.5) p, None)
  else if String.eqb keyStr "0" then (resetZoom supportedResolutions p, None)
  else if String.eqb keyStr "r" || String.eqb keyStr "R"
  then (startFFmpeg supportedResolutions (set_viewer (set_isRestarting true v) p), None)
  else if String.eqb keyStr (ESC +:+ "[A") then (set_viewer (pan 0 (-1) v) p, None)
  else if String.eqb keyStr (ESC +:+ "[B") then (set_viewer (pan 0 1 v) p, None)
  else if String.eqb keyStr (ESC +:+ "[C") then (set_viewer (pan 1 0 v) p, None)
  else if String.eqb keyStr (ESC +:+ "[D") then (set_viewer (pan (-1) 0 v) p, None)
  else if String.eqb keyStr "q" || String.eqb keyStr "Q" || String.eqb keyStr CtrlC
  then (set_viewer (cleanup v).1 p, (cleanup v).2)
  else (p, None).

(** What the event loop delivers: a key, a chunk of a capture process, the
    exit of one, and the end of the wait of a call of [startFFmpeg]. *)
Inductive Input :=
| Key (keyStr : string)
| Data (chunk : list byte)
| Exit (code : option Z)
| Resume.

(** One event; [None] is an exhausted fuel in [processVideoData]. *)
Definition step (supportedResolutions : list (Z * Z)) (p : Process) (e : Input)
    : option (Process * option Z) :=
  match e with
  | Key keyStr => Some (handleKey supportedResolutions keyStr p)
  | Data chunk =>
    '(v, _) ← processVideoData chunk (viewer p);
    Some (set_viewer v p, None)
  | Exit code =>
    Some (set_viewer (onFfmpegExit code (viewer p)).1 p, (onFfmpegExit code (viewer p)).2)
  | Resume => Some (resume supportedResolutions p, None)
  end.

(** The events in order, up to the exit of the process. *)
Fixpoint run (supportedResolutions : list (Z * Z)) (events : list Input) (p : Process)
    : option (Process * option Z) :=
  match events with
  | [] => Some (p, None)
  | e :: es =>
    '(p', code) ← step supportedResolutions p e;
    match code with
    | Some c => Some (p', Some c)
    | None => run supportedResolutions es p'
    end
  end.

(** [init]: the first [startFFmpeg], before any capture process runs. *)
Definition init (supportedResolutions : list (Z * Z)) (v : WebcamViewer) : Process :=
  startFFmpeg supportedResolutions (mkProcess v [] 0).

End DynamicResEvents.

(** The state that every event of [webcam-dynamic-res.ts] keeps. *)
Definition dynamic_res_ok (v : DynamicRes.WebcamViewer) : Prop :=
  (1 <= DynamicRes.zoomLevel v <= 10)%Q
  ∧ (0 <= DynamicRes.zoomX v <= 1)%Q
  ∧ (0 <= DynamicRes.zoomY v <= 1)%Q
  ∧ DynamicRes.videoWidth v = (DynamicRes.termWidth v * 2)%Z
  ∧ DynamicRes.videoHeight v = (DynamicRes.termHeight v * 2)%Z
  ∧ DynamicRes.frameSize v = (DynamicRes.videoWidth v * DynamicRes.videoHeight v * 3)%Z
  ∧ assembling (Z.to_nat (DynamicRes.frameSize v)) (DynamicRes.asm v).

(** The capture scale that is tracked is one of the four tiers and is at
    most half a unit away from the tier of the zoom level. *)
Definition scale_tracks_zoom (v : DynamicRes.WebcamViewer) : Prop :=
  (Qabs (DynamicResEvents.targetScale (DynamicRes.zoomLevel v)
         - DynamicRes.lastCaptureScale v) <= 0.5)%Q.

(** A capture process that scales to the size of the video buffer and
    captures at a supported size or at 640 by 480. *)
Definition capture_fits (supported : list (Z * Z)) (v : DynamicRes.WebcamViewer)
    (c : DynamicResEvents.Capture) : Prop :=
  DynamicResEvents.scaleWidth c = DynamicRes.videoWidth v
  ∧ DynamicResEvents.scaleHeight c = DynamicRes.videoHeight v
  ∧ ((DynamicResEvents.videoSizeWidth c, DynamicResEvents.videoSizeHeight c) ∈ supported
     ∨ (DynamicResEvents.videoSizeWidth c, DynamicResEvents.videoSizeHeight c)
       = (640, 480)%Z).

(** What every event of [webcam-dynamic-res.ts] keeps of the process. *)
Definition dynamic_res_process_ok (supported : list (Z * Z))
    (p : DynamicResEvents.Process) : Prop :=
  dynamic_res_ok (DynamicResEvents.viewer p)
  ∧ scale_tracks_zoom (DynamicResEvents.viewer p)
  ∧ Forall (capture_fits supported (DynamicResEvents.viewer p)) (DynamicResEvents.started p)
  ∧ DynamicResEvents.started p ≠ [].

(** ** opentui-core: the rest of [SimpleCliRenderer] *)

Module OpentuiCoreApi.
Import OpentuiCore.

Definition set_running (b : bool) (s : SimpleCliRenderer) : SimpleCliRenderer :=
  mkRenderer (terminalWidth s) (terminalHeight s) (renderables s) b (lastRenderState s).

(** [TextRenderableOptions] *)
Record TextRenderableOptions := mkOptions {
  opt_content : string;
  opt_x : Z;
  opt_y : Z;
  opt_fg : option string;
  opt_bg : option string;
  opt_zIndex : option Z
}.

(** The constructor of [TextRenderable]: [options.zIndex || 0]. *)
Definition new_TextRenderable (id : string) (options : TextRenderableOptions)
    : TextRenderable :=
  mkText id (opt_content options) (opt_x options) (opt_y options)
    (opt_fg options) (opt_bg options)
    (match opt_zIndex options with
     | Some z => if (z =? 0)%Z then 0%Z else z
     | None => 0%Z
     end).

(** [getRenderable]: [this.renderables.get(id)] *)
Definition getRenderable (k : string) (s : SimpleCliRenderer) : option TextRenderable :=
  List.find (λ t, String.eqb (id t) k) (renderables s).

(** [start]: the renderer after the first pass of the render loop and the
    strings written to [stdout]. *)
Definition start (s : SimpleCliRenderer) : SimpleCliRenderer * list string :=
  let s := set_running true s in
  let '(s, groups) := renderLoop s in
  (s, [ESC +:+ "[2J" +:+ ESC +:+ "[H"; ESC +:+ "[?25l"] ++ stdoutWrites groups).

(** [stop] *)
Definition stop (s : SimpleCliRenderer) : SimpleCliRenderer * list string :=
  (set_running false s, [ESC +:+ "[?25h"; ESC +:+ "[2J" +:+ ESC +:+ "[H"]).

(** [createCliRenderer]: [columns || 80] and [rows || 24]; a size that is
    missing is [None]. *)
Definition createCliRenderer (columns rows : option Z) : SimpleCliRenderer :=
  let terminalWidth := match columns with
                       | Some c => if (c =? 0)%Z then 80%Z else c
                       | None => 80%Z
                       end in
  let terminalHeight := match rows with
                        | Some r => if (r =? 0)%Z then 24%Z else r
                        | None => 24%Z
                        end in
  mkRenderer terminalWidth terminalHeight [] false ∅.

End OpentuiCoreApi.

(** The integer that [toHex] writes for a channel:
    [Math.round(Math.max(0, Math.min(255, n)))]. *)
Definition channelByte (n : Q) : Z := Math_round (Qmax 0 (Qmin 255 n)).

(** A string without the character [c]. *)
Fixpoint lacks (c : ascii) (s : string) : Prop :=
  match s with
  | EmptyString => True
  | String a rest => a ≠ c ∧ lacks c rest
  end.

(** A string without the separator of [stateHash]. *)
Definition no_bar (s : string) : Prop := lacks "|" s.

(** The renderables of a pass that are written: those whose state is not
    the one written last. *)
Definition stale (last : gmap string string) (l : list OpentuiCore.TextRenderable)
    : list OpentuiCore.TextRenderable :=
  filter (λ t, last !! OpentuiCore.id t ≠ Some (OpentuiCore.stateHash t)) l.

(** The order of a pass: z-index not decreasing. *)
Definition by_zIndex (t u : OpentuiCore.TextRenderable) : Prop :=
  (OpentuiCore.zIndex t ≤ OpentuiCore.zIndex u)%Z.

(** The quadrant viewer as its constructor leaves it: a video buffer of
    twice the size of the terminal, four bytes per pixel. *)
Definition new_quadrant_viewer (terminalWidth terminalHeight : Z) : Quadrant.WebcamViewer :=
  let videoWidth := (terminalWidth * 2)%Z in
  let videoHeight := (terminalHeight * 2)%Z in
  let frameSize := (videoWidth * videoHeight * 4)%Z in
  Quadrant.mkViewer terminalWidth terminalHeight videoWidth videoHeight frameSize
    (mkAssembler (Uint8Array_new frameSize) 0 0).

(** A sum of [count] colours whose channels are in [0,255]. *)
Definition sum_in_range (total : RGB) (count : Z) : Prop :=
  (0 ≤ count)%Z
  ∧ (0 <= r total <= 255 * inject_Z count)%Q
  ∧ (0 <= g total <= 255 * inject_Z count)%Q
  ∧ (0 <= b total <= 255 * inject_Z count)%Q.

(** A colour that [RGBA.fromRGB] can take as it is: three integers in
    [0,255]. *)
Definition byte_colour (p : RGB) : Prop :=
  ∃ rv gv bv : Z,
    r p == inject_Z rv ∧ g p == inject_Z gv ∧ b p == inject_Z bv
    ∧ (0 ≤ rv ≤ 255)%Z ∧ (0 ≤ gv ≤ 255)%Z ∧ (0 ≤ bv ≤ 255)%Z.

(** ** The camera-selection viewer: device choice and the glyph of a cell *)

Module SelectViewerMain.

(** [{ index, name }] *)
Record Device := mkDevice { index : Z; name : string }.

(** [selectDevice], from the answer as [parseInt] returns it; [None] is
    [NaN].  The result is [None] where the source reads [.index] of
    [undefined] and throws. *)
Definition selectDevice (devices : list Device) (selection : option Z) : option Z :=
  match selection with
  | Some n =>
    if (1 <=? n)%Z && (n <=? Z.of_nat (length devices))%Z
    then index <$> devices !! Z.to_nat (n - 1)
    else index <$> devices !! 0
  | None => index <$> devices !! 0
  end.

(** [devices.find(d => d.index === deviceIndex)] *)
Definition findDevice (devices : list Device) (deviceIndex : Z) : option Device :=
  List.find (λ d, (index d =? deviceIndex)%Z) devices.

(** [' .,:;i1tfLCG08@'] *)
Definition asciiChars : list string :=
  [" "; "."; ","; ":"; ";"; "i"; "1"; "t"; "f"; "L"; "C"; "G"; "0"; "8"; "@"].

(** [Math.min(asciiChars.length - 1,
              Math.floor((brightness / 255) * asciiChars.length))] *)
Definition charIdx (brightness : Q) : Z :=
  ((Z.of_nat (length asciiChars) - 1)
   `min` Math_floor ((brightness / 255) * inject_Z (Z.of_nat (length asciiChars))))%Z.

(** [asciiChars[charIdx]] for the byte [videoBuffer[idx]] of a grey frame. *)
Definition cellChar (brightness : byte) : option string :=
  charAt asciiChars (charIdx (byteQ brightness)).

End SelectViewerMain.

(** ** terminal-webcam: the text grid *)

Module TextGrid.
Import TerminalWebcam OpentuiCore OpentuiCoreApi.

(** The renderer and [textElements].  Both maps hold the same object under
    the key of a cell, so the objects are kept once, in the renderer, and
    [textElements] is the set of its keys: [textElements.get(key)] is the
    renderable that the renderer holds under [key]. *)
Record Grid := mkGrid {
  renderer : SimpleCliRenderer;
  textElements : gset string
}.

(** [`${x}-${y}`] *)
Definition key (x y : Z) : string := pretty x +:+ "-" +:+ pretty y.

(** [`${this.displayMode}`] *)
Definition displayModeName (m : DisplayMode) : string :=
  match m with
  | blocks => "blocks"
  | shades => "shades"
  | ascii => "ascii"
  | pixels => "pixels"
  end.

(** The body of the loops of [initTextGrid]. *)
Definition addCell (y : Z) (g : Grid) (x : Z) : Grid :=
  let key := key x y in
  let text := new_TextRenderable key (mkOptions " " x y (Some "#000000") None (Some 1%Z)) in
  mkGrid (add text (renderer g)) ({[ key ]} ∪ textElements g).

(** [initTextGrid]; [for (let i = 0; i < n; i++)] runs over [seqZ 0 n]. *)
Definition initTextGrid (cameraName : string) (v : WebcamViewer) (g : Grid) : Grid :=
  let g := foldl (λ g y, foldl (addCell y) g (seqZ 0 (termWidth v))) g
                 (seqZ 0 (termHeight v)) in
  let status := new_TextRenderable "status"
    (mkOptions (cameraName +:+ " | FPS: 0") 2 0
               (Some "#FFFFFF") (Some "#333333") (Some 1000%Z)) in
  let r := add status (renderer g) in
  let mode := new_TextRenderable "mode"
    (mkOptions ("Mode: " +:+ displayModeName (displayMode v)) (termWidth v - 20) 0
               (Some "#00FF00") (Some "#333333") (Some 1000%Z)) in
  let r := add mode r in
  let resolution := new_TextRenderable "resolution"
    (mkOptions ("Capture: " +:+ pretty (captureWidth v) +:+ "x"
                +:+ pretty (captureHeight v) +:+ " | Zoom: 1.0x")
               2 (termHeight v - 1)
               (Some "#00FFFF") (Some "#111111") (Some 1000%Z)) in
  let r := add resolution r in
  mkGrid r (textElements g).

Definition set_content (c : string) (t : TextRenderable) : TextRenderable :=
  mkText (id t) c (x t) (y t) (fg t) (bg t) (zIndex t).

(** An assignment to the fields of the renderable held under [k]. *)
Definition mutate (k : string) (f : TextRenderable → TextRenderable)
    (s : SimpleCliRenderer) : SimpleCliRenderer :=
  set_renderables ((λ t, if String.eqb (id t) k then f t else t) <$> renderables s) s.

(** The three assignments to a cell; a glyph that is [undefined] reads
    [undefined] where the render loop joins it to a string. *)
Definition paint (v : WebcamViewer) (x y : Z) (textEl : TextRenderable) : TextRenderable :=
  let '(char, fg, bg) := renderCell v (sampleVideoPixel v x y) in
  set_bg (Some bg) (set_fg (Some fg) (set_content (text char) textEl)).

(** The body of the inner loop of [renderFrame]. *)
Definition renderCellAt (v : WebcamViewer) (y : Z) (g : Grid) (x : Z) : Grid :=
  let key := key x y in
  if decide (key ∈ textElements g)
  then mkGrid (mutate key (paint v x y) (renderer g)) (textElements g)
  else g.

(** The body of the outer loop of [renderFrame]. *)
Definition renderRow (v : WebcamViewer) (g : Grid) (y : Z) : Grid :=
  if (y =? 0)%Z || (y =? termHeight v - 1)%Z then g
  else foldl (renderCellAt v y) g (seqZ 0 (termWidth v)).

(** [`${pixelsPerChar}`]: a rounded quotient prints as its digits (it does
    up to 1e21).  A division by zero gives NaN or an infinity, whose sign
    is that of the dividend and of the zero, which is negative when one of
    the sizes of the terminal is. *)
Definition pixelsPerChar (v : WebcamViewer) : string :=
  let pixels := (captureWidth v * captureHeight v)%Z in
  let chars := (inject_Z (termWidth v * termHeight v) * zoomLevel v * zoomLevel v)%Q in
  if Qeq_bool chars 0 then
    if (pixels =? 0)%Z then "NaN"
    else if xorb (pixels <? 0)%Z (xorb (termWidth v <? 0)%Z (termHeight v <? 0)%Z)
         then "-Infinity" else "Infinity"
  else pretty (Math_round (inject_Z pixels / chars)).

(** The text of the status line after a frame. *)
Definition statusLine (cameraName : string) (fps : Z) (v : WebcamViewer) : string :=
  cameraName +:+ " | FPS: " +:+ pretty fps +:+ " | " +:+ pixelsPerChar v +:+ " pixels/char".

(** [renderFrame]; [fps] is the field that the timer of [init] sets. *)
Definition renderFrame (cameraName : string) (fps : Z) (v : WebcamViewer) (g : Grid)
    : Grid :=
  let g := foldl (renderRow v) g (seqZ 0 (termHeight v)) in
  match getRenderable "status" (renderer g) with
  | Some status =>
    if negb (isRestarting v) then
      mkGrid (mutate "status"
                (set_content (statusLine cameraName fps v))
                (renderer g))
             (textElements g)
    else g
  | None => g
  end.

(** The frames of a run: the value of [fps] and the viewer at each frame. *)
Definition renderFrames (cameraName : string) (frames : list (Z * WebcamViewer)) (g : Grid)
    : Grid :=
  foldl (λ g f, renderFrame cameraName f.1 f.2 g) g frames.

(** The cell that [initTextGrid] creates at a position. *)
Definition blankCell (x y : Z) : TextRenderable :=
  mkText (key x y) " " x y (Some "#000000") None 1.

(** The cell at a position after a frame of the viewer [v]. *)
Definition drawnCell (v : WebcamViewer) (x y : Z) : TextRenderable :=
  let '(char, fg, bg) := renderCell v (sampleVideoPixel v x y) in
  mkText (key x y) (text char) x y (Some fg) (Some bg) 1.

(** The key of a position. *)
Definition keyOf (p : Z * Z) : string := key p.1 p.2.

(** The positions of a nest of two loops. *)
Definition positions (h : Z → list Z) (ys : list Z) : list (Z * Z) :=
  ys ≫= λ y, (λ x, (x, y)) <$> h y.

(** The positions of the grid, row by row. *)
Definition cells (v : WebcamViewer) : list (Z * Z) :=
  positions (λ _, seqZ 0 (termWidth v)) (seqZ 0 (termHeight v)).

(** The rows of the grid that [renderFrame] goes into. *)
Definition drawnRow (v : WebcamViewer) (y : Z) : list Z :=
  if (y =? 0)%Z || (y =? termHeight v - 1)%Z then [] else seqZ 0 (termWidth v).

(** A step of [renderFrame] at a position. *)
Definition drawStep (v : WebcamViewer) (g : Grid) (p : Z * Z) : Grid :=
  renderCellAt v p.2 g p.1.

(** What a run of frames keeps of the grid that it starts from. *)
Definition kept (v0 : WebcamViewer) (g0 g : Grid) : Prop :=
  textElements g = textElements g0
  ∧ id <$> renderables (renderer g) = id <$> renderables (renderer g0)
  ∧ (∀ x y, (0 ≤ x < termWidth v0)%Z → (0 < y < termHeight v0 - 1)%Z →
       ∃ t, getRenderable (key x y) (renderer g) = Some t
            ∧ id t = key x y ∧ OpentuiCore.x t = x ∧ OpentuiCore.y t = y
            ∧ zIndex t = 1%Z)
  ∧ (∀ k, k ≠ "status" →
       (∀ x y, (0 ≤ x < termWidth v0)%Z → (0 < y < termHeight v0 - 1)%Z → k ≠ key x y) →
       getRenderable k (renderer g) = getRenderable k (renderer g0)).

End TextGrid.

(** * Properties *)

(** ** Frame assembly *)

Section FrameAssembly.
Variable F : nat.
Hypothesis F_pos : 0 < F.

Lemma copyChunk_spec (buf chunk : list byte) (pos offset n : nat) :
  pos + n ≤ length buf → offset + n ≤ length chunk →
  copyChunk buf chunk pos offset n
  = take pos buf ++ take n (drop offset chunk) ++ drop (pos + n) buf.
Proof.
  unfold copyChunk. induction n as [|n IH]; intros Hb Hc.
  - simpl. rewrite Nat.add_0_r. by rewrite take_drop.
  - rewrite seq_S, foldl_app. simpl. rewrite IH by lia.
    destruct (lookup_lt_is_Some_2 chunk (offset + n)) as [x Hx]; [lia|].
    rewrite Hx. simpl.
    rewrite (take_S_r _ _ x) by (by rewrite lookup_drop).
    rewrite insert_app_r_alt by (rewrite length_take; lia).
    rewrite length_take, Nat.min_l by lia.
    rewrite insert_app_r_alt by (rewrite length_take, length_drop; lia).
    rewrite length_take, length_drop, Nat.min_l by lia.
    replace (pos + n - pos - n) with 0 by lia.
    destruct (lookup_lt_is_Some_2 buf (pos + n)) as [y Hy]; [lia|].
    rewrite (drop_S _ y _ Hy). simpl.
    rewrite <- (assoc_L (++)). simpl.
    by replace (pos + S n) with (S (pos + n)) by lia.
Qed.

Lemma processVideoData_loop_spec (chunk : list byte) (fuel offset : nat)
    (a : Assembler) (out : list (list byte)) :
  length chunk - offset < fuel → offset ≤ length chunk →
  length (videoBuffer a) = F → bufferPos a < F →
  ∃ a' news,
    processVideoData_loop fuel F chunk offset a out = Some (a', out ++ news)
    ∧ length (videoBuffer a') = F ∧ bufferPos a' < F
    ∧ Forall (λ f, length f = F) news
    ∧ concat news ++ take (bufferPos a') (videoBuffer a')
      = take (bufferPos a) (videoBuffer a) ++ drop offset chunk
    ∧ frameCount a' = frameCount a + length news.
Proof.
  revert offset a out.
  induction fuel as [|fuel IH]; intros offset a out Hfuel Hoff Hlen Hpos; [lia|].
  simpl. destruct (offset <? length chunk) eqn:Hlt; simpl.
  2: { apply Nat.ltb_ge in Hlt. exists a, []. rewrite app_nil_r, drop_ge by lia.
       simpl. rewrite app_nil_r. repeat split; auto. }
  apply Nat.ltb_lt in Hlt.
  destruct (bufferPos a <? F) eqn:Hp; [|apply Nat.ltb_ge in Hp; lia]. clear Hp.
  set (toRead := (F - bufferPos a) `min` (length chunk - offset)).
  assert (Hcopy : copyChunk (videoBuffer a) chunk (bufferPos a) offset toRead
            = take (bufferPos a) (videoBuffer a)
              ++ take toRead (drop offset chunk)
              ++ drop (bufferPos a + toRead) (videoBuffer a))
    by (apply copyChunk_spec; lia).
  destruct (F <=? bufferPos a + toRead) eqn:Hfull.
  - apply Nat.leb_le in Hfull.
    assert (HtR : bufferPos a + toRead = F) by lia.
    set (buf := copyChunk (videoBuffer a) chunk (bufferPos a) offset toRead) in *.
    assert (Hbuf : length buf = F).
    { rewrite Hcopy, !length_app, !length_take, length_drop, length_drop. lia. }
    destruct (IH (offset + toRead) (mkAssembler buf 0 (S (frameCount a)))
                 (out ++ [buf])) as (a' & news & Hrun & Hl & Hp & Hall & Hcat & Hcnt);
      simpl; [lia..|].
    exists a', (buf :: news). rewrite Hrun, <- (assoc_L (++)). simpl in *.
    repeat split; auto; [|lia].
    rewrite <- (assoc_L (++)), Hcat, Hcopy, HtR.
    rewrite (drop_ge (videoBuffer a)) by lia.
    rewrite app_nil_r, <- (assoc_L (++)). f_equal.
    by rewrite <- drop_drop, take_drop.
  - apply Nat.leb_gt in Hfull.
    assert (HtR : toRead = length chunk - offset) by lia.
    set (buf := copyChunk (videoBuffer a) chunk (bufferPos a) offset toRead) in *.
    assert (Hbuf : length buf = F).
    { rewrite Hcopy, !length_app, !length_take, length_drop, length_drop. lia. }
    destruct (IH (offset + toRead) (mkAssembler buf (bufferPos a + toRead) (frameCount a))
                 out) as (a' & news & Hrun & Hl & Hp & Hall & Hcat & Hcnt);
      simpl; [lia..|].
    exists a', news. rewrite Hrun. simpl in *.
    repeat split; auto.
    rewrite Hcat, drop_ge, app_nil_r by lia.
    rewrite Hcopy, app_assoc, take_app_length'.
    2: { rewrite length_app, !length_take, length_drop. lia. }
    rewrite (take_ge (drop offset chunk)); [done|]. rewrite length_drop. lia.
Qed.

Lemma processVideoData_spec (chunk : list byte) (a : Assembler) :
  assembling F a →
  ∃ a' news,
    processVideoData F chunk a = Some (a', news) ∧ assembling F a'
    ∧ Forall (λ f, length f = F) news
    ∧ concat news ++ take (bufferPos a') (videoBuffer a')
      = take (bufferPos a) (videoBuffer a) ++ chunk
    ∧ frameCount a' = frameCount a + length news.
Proof.
  intros [Hlen Hpos]. unfold processVideoData.
  destruct (processVideoData_loop_spec chunk (S (length chunk)) 0 a [])
    as (a' & news & Hrun & ? & ? & ? & Hcat & ?); [lia..| |]; auto.
  exists a', news. by rewrite Hrun.
Qed.

Lemma feed_spec (chunks : list (list byte)) (a : Assembler) :
  assembling F a →
  ∃ a' frames,
    feed F chunks a = Some (a', frames) ∧ assembling F a'
    ∧ Forall (λ f, length f = F) frames
    ∧ concat frames ++ take (bufferPos a') (videoBuffer a')
      = take (bufferPos a) (videoBuffer a) ++ concat chunks
    ∧ frameCount a' = frameCount a + length frames.
Proof.
  revert a. induction chunks as [|c cs IH]; intros a Ha.
  - exists a, []. simpl. rewrite app_nil_r. split_and!; auto.
  - destruct (processVideoData_spec c a Ha) as (a1 & fs1 & Hrun1 & Ha1 & Hall1 & Hcat1 & Hcnt1).
    destruct (IH a1 Ha1) as (a2 & fs2 & Hrun2 & Ha2 & Hall2 & Hcat2 & Hcnt2).
    exists a2, (fs1 ++ fs2). simpl. rewrite Hrun1. simpl. rewrite Hrun2. simpl.
    split_and!; [done|done| | |].
    + by apply Forall_app.
    + rewrite concat_app, <- (assoc_L (++)), Hcat2, (assoc_L (++)), Hcat1.
      by rewrite <- (assoc_L (++)).
    + rewrite length_app. lia.
Qed.

Lemma slice_concat (frames : list (list byte)) (i : nat) (f : list byte) :
  Forall (λ f, length f = F) frames →
  frames !! i = Some f → slice F i (concat frames) = f.
Proof.
  unfold slice. revert i. induction frames as [|g gs IH]; intros i Hall Hi; [done|].
  apply Forall_cons in Hall as [Hg Hgs]. destruct i as [|i]; simpl in *.
  - injection Hi as <-. rewrite drop_0. by rewrite take_app_length'.
  - rewrite drop_app_ge by lia.
    replace (F + i * F - length g) with (i * F) by lia. by apply IH.
Qed.

(** C1.  Chunks that add up to [k] frames, fed in order to an assembler
    that holds no partial frame, complete exactly [k] frames, and the
    [i]-th completed frame is the [i]-th slice of [F] bytes of the
    concatenated input.  The run ends with the buffer position back at 0
    and within the fuel of the loop. *)
Theorem frame_reassembly (k : nat) (chunks : list (list byte)) (a0 : Assembler) :
  length (videoBuffer a0) = F → bufferPos a0 = 0 →
  length (concat chunks) = k * F →
  ∃ a frames,
    feed F chunks a0 = Some (a, frames)
    ∧ length frames = k
    ∧ (∀ i, i < k → frames !! i = Some (slice F i (concat chunks)))
    ∧ bufferPos a = 0
    ∧ frameCount a = frameCount a0 + k.
Proof.
  intros Hlen Hpos Htotal.
  destruct (feed_spec chunks a0) as (a & frames & Hrun & [Hl Hp] & Hall & Hcat & Hcnt).
  { split; lia. }
  rewrite Hpos, take_0 in Hcat. simpl in Hcat.
  assert (Hsz : length (concat frames) = length frames * F).
  { clear -Hall. induction Hall as [|f fs Hf _ IH]; simpl; [done|].
    rewrite length_app, IH. lia. }
  assert (Hk : length frames = k ∧ bufferPos a = 0).
  { apply (f_equal length) in Hcat.
    rewrite length_app, length_take, Hsz, Htotal, Hl, Nat.min_l in Hcat by lia.
    destruct (Nat.lt_trichotomy (length frames) k) as [H|[H|H]]; nia. }
  destruct Hk as [Hk Hz]. exists a, frames. split_and!; auto; [|lia].
  intros i Hi. rewrite Hz, take_0, app_nil_r in Hcat. rewrite <- Hcat.
  destruct (lookup_lt_is_Some_2 frames i) as [f Hf]; [lia|].
  rewrite Hf. f_equal. symmetry. by apply slice_concat.
Qed.
End FrameAssembly.

(** Three frames of two bytes in chunks of one, four and one bytes. *)
Lemma frame_reassembly_witness :
  ∃ a frames,
    feed 2 [["001"]; ["002"; "003"; "004"; "005"]; ["006"]]%byte
         (mkAssembler [x00; x00] 0 0) = Some (a, frames)
    ∧ length frames = 3
    ∧ (∀ i, i < 3 → frames !! i
         = Some (slice 2 i ["001"; "002"; "003"; "004"; "005"; "006"]%byte))
    ∧ bufferPos a = 0
    ∧ frameCount a = 0 + 3.
Proof.
  apply (frame_reassembly 2 (Nat.lt_0_succ 1) 3
           [["001"]; ["002"; "003"; "004"; "005"]; ["006"]]%byte
           (mkAssembler [x00; x00] 0 0));
    reflexivity.
Defined.

(** The two viewers run the same loop on their buffer fields. *)
Remark processVideoData_terminal_webcam (chunk : list byte) (v : TerminalWebcam.WebcamViewer) :
  TerminalWebcam.processVideoData chunk v
  = prod_map (λ a, TerminalWebcam.set_asm a v) id <$>
      processVideoData
        (Z.to_nat (TerminalWebcam.captureWidth v * TerminalWebcam.captureHeight v * 3))
        chunk (TerminalWebcam.asm v).
Proof.
  unfold TerminalWebcam.processVideoData.
  by destruct (processVideoData _ chunk _) as [[a fs]|].
Qed.

Remark processVideoData_dynamic_res (chunk : list byte) (v : DynamicRes.WebcamViewer) :
  DynamicRes.processVideoData chunk v
  = prod_map (λ a, DynamicRes.set_asm a v) id <$>
      processVideoData (Z.to_nat (DynamicRes.frameSize v)) chunk (DynamicRes.asm v).
Proof.
  unfold DynamicRes.processVideoData.
  by destruct (processVideoData _ chunk _) as [[a fs]|].
Qed.

(** ** Numbers *)

Lemma clampCoord_range (c size : Z) :
  (0 < size)%Z → (0 ≤ clampCoord c size ≤ size - 1)%Z.
Proof. unfold clampCoord. lia. Qed.

Lemma clamp01_range (p : Q) : (0 <= clamp01 p <= 1)%Q.
Proof.
  unfold clamp01. split; [apply Q.le_max_l|].
  apply Q.max_lub; [discriminate | apply Q.le_min_l].
Qed.

Lemma normalize_range (brightness : Q) : (0 <= normalize brightness <= 1)%Q.
Proof.
  unfold normalize. split; [|apply Q.le_min_l].
  apply Q.min_glb; [discriminate | apply Q.le_max_l].
Qed.


(** An index into a frame of [w] by [h] pixels of [bpp] bytes. *)
Lemma pixel_index_in_frame (w h bpp x y k : Z) :
  (0 ≤ x ≤ w - 1)%Z → (0 ≤ y ≤ h - 1)%Z → (0 ≤ k < bpp)%Z →
  (0 ≤ (y * w + x) * bpp + k < w * h * bpp)%Z.
Proof.
  intros Hx Hy Hk.
  assert (0 ≤ y * w + x ≤ h * w - 1)%Z as Hp by nia.
  nia.
Qed.

Lemma lookup_in_frame (buf : list byte) (n i : Z) :
  length buf = Z.to_nat n → (0 ≤ i < n)%Z → is_Some (buf !! Z.to_nat i).
Proof. intros Hlen Hi. apply lookup_lt_is_Some_2. lia. Qed.

(** ** Sampling *)

Lemma reads_in_bounds_frame (buf : list byte) (w h x y : Z) :
  length buf = Z.to_nat (w * h * 3) →
  (0 ≤ x ≤ w - 1)%Z → (0 ≤ y ≤ h - 1)%Z →
  reads_in_bounds buf ((y * w + x) * 3).
Proof.
  intros Hlen Hx Hy.
  pose proof (pixel_index_in_frame w h 3 x y 0 Hx Hy) as H0.
  pose proof (pixel_index_in_frame w h 3 x y 2 Hx Hy) as H2.
  split_and!; [lia | lia |].
  intros k Hk. apply (lookup_in_frame buf (w * h * 3)); [done|].
  pose proof (pixel_index_in_frame w h 3 x y k Hx Hy). lia.
Qed.

Lemma readByte_lookup (buf : list byte) (i : Z) (c : byte) :
  (0 ≤ i)%Z → buf !! Z.to_nat i = Some c → readByte buf i = byteQ c.
Proof.
  intros Hi Hc. unfold readByte. by rewrite (proj2 (Z.ltb_ge _ _) Hi), Hc.
Qed.

(** All nine neighbours of an in-frame pixel are read: the average of the
    high zoom is over nine samples. *)
Lemma averageAround_count (v : TerminalWebcam.WebcamViewer) (x y : Z) :
  (∀ dx dy,
     (TerminalWebcam.bufferIndex v
        (clampCoord (x + dx) (TerminalWebcam.captureWidth v))
        (clampCoord (y + dy) (TerminalWebcam.captureHeight v)) + 2
      < Z.of_nat (length (videoBuffer (TerminalWebcam.asm v))))%Z) →
  (TerminalWebcam.averageAround v x y).2 = 9%Z.
Proof.
  intros Hin. unfold TerminalWebcam.averageAround.
  change 9%Z with ((black, 0%Z).2 + Z.of_nat (length (TerminalWebcam.neighbourhood 1)))%Z.
  generalize (TerminalWebcam.neighbourhood 1). generalize (black, 0%Z).
  intros acc l. revert acc. induction l as [|d l IH]; intros acc.
  - simpl. lia.
  - cbn [foldl]. rewrite IH. rewrite (proj2 (Z.ltb_lt _ _) (Hin _ _)).
    cbn [snd length]. lia.
Qed.

(** C3.  In both viewers, for a zoom level of at least 1, a pan position in
    [0,1] and any cell coordinate, the clamped source coordinates lie in
    [0, width-1] x [0, height-1], and the three bytes read at the index
    computed from them are inside a buffer of width * height * 3 bytes: the
    sample is made of these three bytes.  In the viewer that averages above
    zoom 3 the same holds for each of the nine neighbours, clamped one by
    one, and the sample is then the mean of nine pixels. *)
Theorem clamped_coordinates_in_frame :
  (∀ (v : TerminalWebcam.WebcamViewer) (termX termY : Z),
     (0 < TerminalWebcam.captureWidth v)%Z →
     (0 < TerminalWebcam.captureHeight v)%Z →
     (0 < TerminalWebcam.termWidth v)%Z →
     (2 < TerminalWebcam.termHeight v)%Z →
     (1 <= TerminalWebcam.zoomLevel v)%Q →
     (0 <= TerminalWebcam.panX v <= 1)%Q →
     (0 <= TerminalWebcam.panY v <= 1)%Q →
     length (videoBuffer (TerminalWebcam.asm v))
     = Z.to_nat (TerminalWebcam.captureWidth v * TerminalWebcam.captureHeight v * 3) →
     let buf := videoBuffer (TerminalWebcam.asm v) in
     let x := clampCoord (TerminalWebcam.videoXY v termX termY).1
                         (TerminalWebcam.captureWidth v) in
     let y := clampCoord (TerminalWebcam.videoXY v termX termY).2
                         (TerminalWebcam.captureHeight v) in
     let idx := TerminalWebcam.bufferIndex v x y in
     (0 ≤ x ≤ TerminalWebcam.captureWidth v - 1)%Z
     ∧ (0 ≤ y ≤ TerminalWebcam.captureHeight v - 1)%Z
     ∧ reads_in_bounds buf idx
     ∧ (∀ dx dy,
          let sx := clampCoord (x + dx) (TerminalWebcam.captureWidth v) in
          let sy := clampCoord (y + dy) (TerminalWebcam.captureHeight v) in
          (0 ≤ sx ≤ TerminalWebcam.captureWidth v - 1)%Z
          ∧ (0 ≤ sy ≤ TerminalWebcam.captureHeight v - 1)%Z
          ∧ reads_in_bounds buf (TerminalWebcam.bufferIndex v sx sy))
     ∧ ((TerminalWebcam.zoomLevel v <= 3)%Q →
        ∃ c0 c1 c2,
          buf !! Z.to_nat idx = Some c0
          ∧ buf !! Z.to_nat (idx + 1) = Some c1
          ∧ buf !! Z.to_nat (idx + 2) = Some c2
          ∧ TerminalWebcam.sampleVideoPixel v termX termY
            = mkRGB (byteQ c0) (byteQ c1) (byteQ c2))
     ∧ ((3 < TerminalWebcam.zoomLevel v)%Q →
        ∃ total,
          TerminalWebcam.averageAround v x y = (total, 9%Z)
          ∧ TerminalWebcam.sampleVideoPixel v termX termY
            = mkRGB (r total / 9) (g total / 9) (b total / 9)))
  ∧ (∀ (v : DynamicRes.WebcamViewer) (termX termY : Z),
       (0 < DynamicRes.videoWidth v)%Z →
       (0 < DynamicRes.videoHeight v)%Z →
       (0 < DynamicRes.termWidth v)%Z →
       (0 < DynamicRes.termHeight v)%Z →
       (1 <= DynamicRes.zoomLevel v)%Q →
       (0 <= DynamicRes.zoomX v <= 1)%Q →
       (0 <= DynamicRes.zoomY v <= 1)%Q →
       length (videoBuffer (DynamicRes.asm v))
       = Z.to_nat (DynamicRes.videoWidth v * DynamicRes.videoHeight v * 3) →
       let buf := videoBuffer (DynamicRes.asm v) in
       let x := clampCoord (DynamicRes.videoXY v termX termY).1 (DynamicRes.videoWidth v) in
       let y := clampCoord (DynamicRes.videoXY v termX termY).2 (DynamicRes.videoHeight v) in
       let idx := DynamicRes.bufferIndex v x y in
       (0 ≤ x ≤ DynamicRes.videoWidth v - 1)%Z
       ∧ (0 ≤ y ≤ DynamicRes.videoHeight v - 1)%Z
       ∧ reads_in_bounds buf idx
       ∧ ∃ c0 c1 c2,
           buf !! Z.to_nat idx = Some c0
           ∧ buf !! Z.to_nat (idx + 1) = Some c1
           ∧ buf !! Z.to_nat (idx + 2) = Some c2
           ∧ DynamicRes.sampleVideoPixel v termX termY
             = mkRGB (byteQ c0) (byteQ c1) (byteQ c2)).
Proof.
  split.
  - intros v termX termY Hw Hh _ _ _ _ _ Hlen buf x y idx.
    pose proof (clampCoord_range (TerminalWebcam.videoXY v termX termY).1 _ Hw) as Hx.
    pose proof (clampCoord_range (TerminalWebcam.videoXY v termX termY).2 _ Hh) as Hy.
    assert (Hnear : ∀ dx dy,
              let sx := clampCoord (x + dx) (TerminalWebcam.captureWidth v) in
              let sy := clampCoord (y + dy) (TerminalWebcam.captureHeight v) in
              (0 ≤ sx ≤ TerminalWebcam.captureWidth v - 1)%Z
              ∧ (0 ≤ sy ≤ TerminalWebcam.captureHeight v - 1)%Z
              ∧ reads_in_bounds buf (TerminalWebcam.bufferIndex v sx sy)).
    { intros dx dy sx sy.
      pose proof (clampCoord_range (x + dx) _ Hw) as Hsx.
      pose proof (clampCoord_range (y + dy) _ Hh) as Hsy.
      split_and!; try apply Hsx; try apply Hsy.
      by apply (reads_in_bounds_frame _ _ (TerminalWebcam.captureHeight v)). }
    assert (Hin : reads_in_bounds buf idx)
      by by apply (reads_in_bounds_frame _ _ (TerminalWebcam.captureHeight v)).
    destruct Hin as (Hidx0 & Hidx2 & Hread).
    assert (Hsample : TerminalWebcam.sampleVideoPixel v termX termY
              = if Qlt_le_dec 3 (TerminalWebcam.zoomLevel v) then
                  let '(total, count) := TerminalWebcam.averageAround v x y in
                  if (0 <? count)%Z then
                    mkRGB (r total / inject_Z count) (g total / inject_Z count)
                          (b total / inject_Z count)
                  else mkRGB (readByte buf idx) (readByte buf (idx + 1)) (readByte buf (idx + 2))
                else mkRGB (readByte buf idx) (readByte buf (idx + 1)) (readByte buf (idx + 2))).
    { unfold TerminalWebcam.sampleVideoPixel. subst idx x y buf.
      destruct (TerminalWebcam.videoXY v termX termY) as [videoX videoY].
      cbn [fst snd] in *. by rewrite (proj2 (Z.ltb_lt _ _) Hidx2). }
    split_and!; try apply Hx; try apply Hy; try done.
    + intros Hle. destruct (Hread 0%Z) as [c0 Hc0]; [lia|].
      destruct (Hread 1%Z) as [c1 Hc1]; [lia|]. destruct (Hread 2%Z) as [c2 Hc2]; [lia|].
      rewrite Z.add_0_r in Hc0. exists c0, c1, c2. split_and!; try done.
      rewrite Hsample. destruct (Qlt_le_dec 3 _) as [Hlt|_].
      { by destruct (Qlt_not_le _ _ Hlt). }
      by rewrite (readByte_lookup buf idx c0), (readByte_lookup buf (idx + 1) c1),
        (readByte_lookup buf (idx + 2) c2) by (lia || done).
    + intros Hlt.
      assert (Hcount : (TerminalWebcam.averageAround v x y).2 = 9%Z).
      { apply averageAround_count. intros dx dy. apply (Hnear dx dy). }
      destruct (TerminalWebcam.averageAround v x y) as [total count] eqn:Havg.
      simpl in Hcount. subst count.
      exists total. split; [done|]. rewrite Hsample.
      destruct (Qlt_le_dec 3 _) as [_|Hle]; [done|].
      by destruct (Qlt_not_le _ _ Hlt).
  - intros v termX termY Hw Hh _ _ _ _ _ Hlen buf x y idx.
    pose proof (clampCoord_range (DynamicRes.videoXY v termX termY).1 _ Hw) as Hx.
    pose proof (clampCoord_range (DynamicRes.videoXY v termX termY).2 _ Hh) as Hy.
    assert (Hin : reads_in_bounds buf idx)
      by by apply (reads_in_bounds_frame _ _ (DynamicRes.videoHeight v)).
    split_and!; try apply Hx; try apply Hy; try done.
    destruct Hin as (Hidx0 & Hidx2 & Hread).
    destruct (Hread 0%Z) as [c0 Hc0]; [lia|].
    destruct (Hread 1%Z) as [c1 Hc1]; [lia|]. destruct (Hread 2%Z) as [c2 Hc2]; [lia|].
    rewrite Z.add_0_r in Hc0. exists c0, c1, c2. split_and!; try done.
    unfold DynamicRes.sampleVideoPixel. subst idx x y buf.
    destruct (DynamicRes.videoXY v termX termY) as [videoX videoY].
    cbn [fst snd] in *. rewrite (proj2 (Z.ltb_lt _ _) Hidx2).
    by rewrite (readByte_lookup _ _ c0), (readByte_lookup _ _ c1),
      (readByte_lookup _ _ c2) by (lia || done).
Qed.

Lemma clamped_coordinates_in_frame_witness :
  reads_in_bounds (videoBuffer (TerminalWebcam.asm small_terminal_webcam))
    (TerminalWebcam.bufferIndex small_terminal_webcam
       (clampCoord (TerminalWebcam.videoXY small_terminal_webcam 79 22).1 4)
       (clampCoord (TerminalWebcam.videoXY small_terminal_webcam 79 22).2 2))
  ∧ reads_in_bounds (videoBuffer (DynamicRes.asm small_dynamic_res))
      (DynamicRes.bufferIndex small_dynamic_res
         (clampCoord (DynamicRes.videoXY small_dynamic_res 79 23).1 4)
         (clampCoord (DynamicRes.videoXY small_dynamic_res 79 23).2 2)).
Proof.
  split.
  - refine (proj1 (proj2 (proj2
      (proj1 clamped_coordinates_in_frame small_terminal_webcam 79%Z 22%Z
             _ _ _ _ _ _ _ _))));
      first [reflexivity | by vm_compute | split; by vm_compute].
  - refine (proj1 (proj2 (proj2
      (proj2 clamped_coordinates_in_frame small_dynamic_res 79%Z 23%Z
             _ _ _ _ _ _ _ _))));
      first [reflexivity | by vm_compute | split; by vm_compute].
Defined.



(** ** Pan *)

(** C10.  In both viewers [pan] returns the state unchanged when the zoom
    level is at most 1; above 1 it changes nothing but the two pan
    coordinates, which end in [0,1], and the zoom level stays as it was. *)
Theorem pan_changes_only_pan :
  (∀ (v : TerminalWebcam.WebcamViewer) (dx dy : Q),
     ((TerminalWebcam.zoomLevel v <= 1)%Q → TerminalWebcam.pan dx dy v = v)
     ∧ ((1 < TerminalWebcam.zoomLevel v)%Q →
        terminal_webcam_same_but_pan v (TerminalWebcam.pan dx dy v)
        ∧ (0 <= TerminalWebcam.panX (TerminalWebcam.pan dx dy v) <= 1)%Q
        ∧ (0 <= TerminalWebcam.panY (TerminalWebcam.pan dx dy v) <= 1)%Q))
  ∧ (∀ (v : DynamicRes.WebcamViewer) (dx dy : Q),
       ((DynamicRes.zoomLevel v <= 1)%Q → DynamicRes.pan dx dy v = v)
       ∧ ((1 < DynamicRes.zoomLevel v)%Q →
          dynamic_res_same_but_pan v (DynamicRes.pan dx dy v)
          ∧ (0 <= DynamicRes.zoomX (DynamicRes.pan dx dy v) <= 1)%Q
          ∧ (0 <= DynamicRes.zoomY (DynamicRes.pan dx dy v) <= 1)%Q)).
Proof.
  split; intros v dx dy.
  - unfold TerminalWebcam.pan.
    destruct (Qlt_le_dec 1 (TerminalWebcam.zoomLevel v)) as [Hz|Hz]; split.
    + intros Hle. by apply Qlt_not_le in Hz.
    + intros _. split_and!; [by repeat split | apply clamp01_range ..].
    + done.
    + intros Hlt. by apply Qlt_not_le in Hlt.
  - unfold DynamicRes.pan.
    destruct (Qlt_le_dec 1 (DynamicRes.zoomLevel v)) as [Hz|Hz]; split.
    + intros Hle. by apply Qlt_not_le in Hz.
    + intros _. split_and!; [by repeat split | apply clamp01_range ..].
    + done.
    + intros Hlt. by apply Qlt_not_le in Hlt.
Qed.

(** At zoom 1 the right arrow does nothing; at zoom 2 it moves the centre. *)
Lemma pan_changes_only_pan_witness :
  TerminalWebcam.pan 1 0 viewer_80x24 = viewer_80x24
  ∧ (TerminalWebcam.panX (TerminalWebcam.pan 1 0 small_terminal_webcam) == 0.52)%Q
  ∧ DynamicRes.zoomLevel (DynamicRes.pan 1 0 small_dynamic_res)
    = DynamicRes.zoomLevel small_dynamic_res.
Proof.
  split_and!.
  - apply (proj1 (proj1 pan_changes_only_pan viewer_80x24 1%Q 0%Q)). discriminate.
  - reflexivity.
  - apply (proj2 (proj2 pan_changes_only_pan small_dynamic_res 1%Q 0%Q)). reflexivity.
Defined.

(** ** Glyph ramps *)

Lemma rampIndex_range (ramp : list string) (nb : Q) :
  ramp ≠ [] → (0 <= nb <= 1)%Q →
  (0 ≤ rampIndex ramp nb ≤ Z.of_nat (length ramp) - 1)%Z.
Proof.
  intros Hne [Hlo Hhi]. unfold rampIndex, Math_floor.
  assert (Hm : (0 ≤ Z.of_nat (length ramp) - 1)%Z) by (destruct ramp; simpl; [done | lia]).
  set (m := (Z.of_nat (length ramp) - 1)%Z) in *.
  assert (HmQ : (0 <= inject_Z m)%Q) by (unfold Qle; simpl; lia).
  split.
  - rewrite <- (Qfloor_Z 0). apply Qfloor_resp_le. by apply Qmult_le_0_compat.
  - rewrite <- (Qfloor_Z m) at 2. apply Qfloor_resp_le.
    rewrite <- (Qmult_1_l (inject_Z m)) at 2. by apply Qmult_le_compat_r.
Qed.

Lemma rampIndex_lookup (ramp : list string) (nb : Q) :
  ramp ≠ [] → (0 <= nb <= 1)%Q →
  charAt ramp (rampIndex ramp nb) = ramp !! Z.to_nat (rampIndex ramp nb)
  ∧ is_Some (ramp !! Z.to_nat (rampIndex ramp nb)).
Proof.
  intros Hne Hnb. pose proof (rampIndex_range ramp nb Hne Hnb) as [Hlo Hhi].
  unfold charAt. rewrite (proj2 (Z.ltb_ge _ _) Hlo). split; [done|].
  apply lookup_lt_is_Some_2. lia.
Qed.



Lemma luma_range (p : RGB) : channels_in_range p → (0 <= luma p <= 255)%Q.
Proof. unfold channels_in_range, luma. intros (Hr & Hg & Hb). lra. Qed.



(** ** The quadrant encoder *)






Lemma quadrantChars_total (n : nat) : n < 16 → is_Some (quadrantChars !! n).
Proof. intros Hn. apply lookup_lt_is_Some_2. simpl. lia. Qed.

(** In exact arithmetic four numbers are never all below their mean: the
    light partition of [renderQuadrant] is never empty. *)
Lemma lightPart_nonempty (tl tr bl br : RGB) : QuadrantSpec.lightPart tl tr bl br ≠ [].
Proof.
  unfold QuadrantSpec.lightPart. intros Hnil.
  assert (Hall : ∀ p, In p [tl; tr; bl; br] →
                      (luminance p < meanLuminance tl tr bl br)%Q).
  { intros p Hp.
    destruct (Qlt_le_dec (luminance p) (meanLuminance tl tr bl br)) as [|Hle] eqn:E;
      [done|].
    assert (In p []) as []. rewrite <- Hnil. apply filter_In. split; [done|].
    unfold darker. by rewrite E. }
  pose proof (Hall tl ltac:(simpl; auto)) as H1.
  pose proof (Hall tr ltac:(simpl; auto)) as H2.
  pose proof (Hall bl ltac:(simpl; auto)) as H3.
  pose proof (Hall br ltac:(simpl; auto)) as H4.
  unfold meanLuminance in *.
  set (m := ((luminance tl + luminance tr + luminance bl + luminance br) / 4)%Q) in *.
  assert (Hm : (m * 4 == luminance tl + luminance tr + luminance bl + luminance br)%Q).
  { unfold m. field. }
  lra.
Qed.


Lemma rgb_eta (p : RGB) : mkRGB (r p) (g p) (b p) = p.
Proof. by destruct p. Qed.

Section Extremes.
(** [Math.min(...l)] is a lower bound of [l] and equals one of its
    elements; [l.indexOf] then finds an element. *)

Lemma foldl_Qmin_spec (l : list Q) (x : Q) :
  (∀ y, y ∈ x :: l → (foldl Qmin x l <= y)%Q)
  ∧ ∃ y, y ∈ x :: l ∧ y == foldl Qmin x l.
Proof.
  revert x. induction l as [|z l IH]; intros x; simpl.
  - split; [|exists x; split; [left | reflexivity]].
    intros y ->%list_elem_of_singleton. apply Qle_refl.
  - destruct (IH (Qmin x z)) as [Hlb [y [Hy Heq]]]. split.
    + intros w Hw. apply elem_of_cons in Hw as [->|Hw].
      * eapply Qle_trans; [apply Hlb; left | apply Q.le_min_l].
      * apply elem_of_cons in Hw as [->|Hw].
        -- eapply Qle_trans; [apply Hlb; left | apply Q.le_min_r].
        -- apply Hlb. by right.
    + apply elem_of_cons in Hy as [->|Hy].
      * destruct (Q.min_dec x z) as [E|E].
        -- exists x. split; [left | by etransitivity; [symmetry; exact E |]].
        -- exists z. split; [right; left | by etransitivity; [symmetry; exact E |]].
      * exists y. split; [by do 2 right | done].
Qed.

Lemma foldl_Qmax_spec (l : list Q) (x : Q) :
  (∀ y, y ∈ x :: l → (y <= foldl Qmax x l)%Q)
  ∧ ∃ y, y ∈ x :: l ∧ y == foldl Qmax x l.
Proof.
  revert x. induction l as [|z l IH]; intros x; simpl.
  - split; [|exists x; split; [left | reflexivity]].
    intros y ->%list_elem_of_singleton. apply Qle_refl.
  - destruct (IH (Qmax x z)) as [Hub [y [Hy Heq]]]. split.
    + intros w Hw. apply elem_of_cons in Hw as [->|Hw].
      * eapply Qle_trans; [apply Q.le_max_l | apply Hub; left].
      * apply elem_of_cons in Hw as [->|Hw].
        -- eapply Qle_trans; [apply Q.le_max_r | apply Hub; left].
        -- apply Hub. by right.
    + apply elem_of_cons in Hy as [->|Hy].
      * destruct (Q.max_dec x z) as [E|E].
        -- exists x. split; [left | by etransitivity; [symmetry; exact E |]].
        -- exists z. split; [right; left | by etransitivity; [symmetry; exact E |]].
      * exists y. split; [by do 2 right | done].
Qed.

Lemma indexOf_spec (l : list Q) (m : Q) :
  (∃ y, y ∈ l ∧ y == m) →
  ∃ i y, SuperSample.indexOf l m = Some i ∧ l !! i = Some y ∧ y == m.
Proof.
  induction l as [|z l IH]; intros [y [Hy Heq]]; [by apply elem_of_nil in Hy|].
  simpl. destruct (Qeq_bool z m) eqn:E.
  - exists 0, z. split_and!; [done | done | by apply Qeq_bool_iff].
  - apply elem_of_cons in Hy as [->|Hy].
    + apply Qeq_bool_iff in Heq. congruence.
    + destruct IH as (i & w & Hi & Hw & Hwm); [by exists y|].
      exists (S i), w. by rewrite Hi.
Qed.
End Extremes.

Lemma renderFallback_extremes (p0 : RGB) (ps : list RGB) :
  ∃ dk lt char,
    SuperSample.renderFallback (p0 :: ps) = Some (mkCell char dk lt)
    ∧ darkest (p0 :: ps) dk ∧ lightest (p0 :: ps) lt.
Proof.
  destruct (foldl_Qmin_spec (luminance <$> ps) (luminance p0)) as [Hlb Hmin].
  destruct (foldl_Qmax_spec (luminance <$> ps) (luminance p0)) as [Hub Hmax].
  destruct (indexOf_spec _ _ Hmin) as (i & y & Hi & Hy & Hym).
  destruct (indexOf_spec _ _ Hmax) as (j & z & Hj & Hz & Hzm).
  change (luminance p0 :: (luminance <$> ps)) with (luminance <$> p0 :: ps) in *.
  rewrite list_lookup_fmap in Hy, Hz.
  destruct ((p0 :: ps) !! i) as [dk|] eqn:Hdk; [|done].
  destruct ((p0 :: ps) !! j) as [lt|] eqn:Hlt; [|done].
  simpl in Hy, Hz. simplify_eq.
  exists dk, lt. eexists. unfold SuperSample.renderFallback.
  change (SuperSample.minimum (luminance <$> p0 :: ps))
    with (Some (foldl Qmin (luminance p0) (luminance <$> ps))).
  change (SuperSample.maximum (luminance <$> p0 :: ps))
    with (Some (foldl Qmax (luminance p0) (luminance <$> ps))).
  cbn [mbind option_bind]. rewrite Hi, Hj. cbn [mbind option_bind].
  rewrite Hdk, Hlt. cbn [mbind option_bind].
  rewrite !rgb_eta. split; [done|]. split; split.
  - by eapply list_elem_of_lookup_2.
  - intros q Hq. rewrite Hym. apply Hlb. by apply (list_elem_of_fmap_2 luminance) in Hq.
  - by eapply list_elem_of_lookup_2.
  - intros q Hq. rewrite Hzm. apply Hub. by apply (list_elem_of_fmap_2 luminance) in Hq.
Qed.






(** ** Exit codes *)




(** ** Debounced restart of the capture process *)

Module DebounceFacts.
Import TerminalWebcam Debounce.

Lemma adjustZoom_pending (t : Z) (d : Q) (v : WebcamViewer) :
  pendingZoomLevel (adjustZoom t d v) = Qmax 1 (Qmin 8 (pendingZoomLevel v + d)).
Proof. unfold adjustZoom. by destruct (Qeq_bool _ _). Qed.

Lemma adjustZoom_timer (t : Z) (d : Q) (v : WebcamViewer) :
  restartTimer (adjustZoom t d v)
  = if Qeq_bool (Qmax 1 (Qmin 8 (pendingZoomLevel v + d))) (pendingZoomLevel v)
    then restartTimer v else Some (t + 500)%Z.
Proof. unfold adjustZoom. simpl. by destruct (Qeq_bool _ _). Qed.

Lemma adjustZoom_frame (t : Z) (d : Q) (v : WebcamViewer) :
  isRestarting (adjustZoom t d v) = isRestarting v
  ∧ spawned (adjustZoom t d v) = spawned v
  ∧ zoomLevel (adjustZoom t d v) = zoomLevel v.
Proof. unfold adjustZoom. simpl. by destruct (Qeq_bool _ _). Qed.

Lemma runDueTimer_not_due (t : Z) (v : WebcamViewer) :
  (∀ due, restartTimer v = Some due → (t < due)%Z) → runDueTimer t v = v.
Proof.
  intros Hdue. unfold runDueTimer. destruct (restartTimer v) as [due|]; [|done].
  specialize (Hdue due eq_refl). by rewrite (proj2 (Z.leb_gt _ _) Hdue).
Qed.

Lemma request_inv (t0 : Z) (v0 v : WebcamViewer) (e : Z * Q) :
  burst_inv t0 v0 v → (t0 ≤ e.1 < t0 + 500)%Z →
  burst_inv t0 v0 (request v e)
  ∧ pendingZoomLevel (request v e) = Qmax 1 (Qmin 8 (pendingZoomLevel v + e.2)).
Proof.
  intros (Hr & Hs & Hz & Hdue & Hnone) Ht. unfold request.
  rewrite runDueTimer_not_due by (intros due Hd; specialize (Hdue due Hd); lia).
  destruct (adjustZoom_frame e.1 e.2 v) as (Hr' & Hs' & Hz').
  split; [|apply adjustZoom_pending].
  unfold burst_inv. rewrite Hr', Hs', Hz', adjustZoom_timer, adjustZoom_pending.
  split_and!; try done.
  - intros due. destruct (Qeq_bool _ _); [apply Hdue|]. intros [= <-]. lia.
  - destruct (Qeq_bool _ _) eqn:E; [|done]. intros Hn.
    apply Qeq_bool_iff in E. rewrite E. by apply Hnone.
Qed.

Lemma burst_inv_spec (t0 : Z) (v0 : WebcamViewer) (reqs : list (Z * Q)) (v : WebcamViewer) :
  burst_inv t0 v0 v → within_quiet_period t0 reqs →
  burst_inv t0 v0 (burst reqs v)
  ∧ pendingZoomLevel (burst reqs v) = requestedZoom (pendingZoomLevel v) (reqs.*2).
Proof.
  revert v. induction reqs as [|e reqs IH]; intros v Hinv Hin; [done|].
  destruct (request_inv t0 v0 v e Hinv) as [Hinv' Hp]; [apply Hin; left|].
  destruct (IH (request v e) Hinv') as [Hinv'' Hp'].
  { intros e' He'. apply Hin. by right. }
  split; [done|]. unfold burst in *. simpl. by rewrite Hp', Hp.
Qed.

Local Arguments updateCaptureResolution : simpl never.

Lemma updateCaptureResolution_frame (v : WebcamViewer) :
  isRestarting (updateCaptureResolution v) = isRestarting v
  ∧ restartTimer (updateCaptureResolution v) = restartTimer v
  ∧ pendingZoomLevel (updateCaptureResolution v) = pendingZoomLevel v
  ∧ zoomLevel (updateCaptureResolution v) = zoomLevel v
  ∧ spawned (updateCaptureResolution v) = spawned v.
Proof. unfold updateCaptureResolution. by case_bool_decide. Qed.

(** A timeout that finds a new pending zoom level starts one capture
    process, for that zoom level, and leaves nothing pending. *)
Lemma restartTimerFired_restarts (due : Z) (v : WebcamViewer) :
  isRestarting v = false → ¬ pendingZoomLevel v == zoomLevel v →
  ∃ w h,
    spawned (restartTimerFired due v) = spawned v ++ [mkCapture w h (pendingZoomLevel v)]
    ∧ zoomLevel (restartTimerFired due v) = pendingZoomLevel v
    ∧ pendingZoomLevel (restartTimerFired due v) = pendingZoomLevel v
    ∧ restartTimer (restartTimerFired due v) = None
    ∧ isRestarting (restartTimerFired due v) = false.
Proof.
  intros Hr Hne.
  assert (Hb : Qeq_bool (pendingZoomLevel v) (zoomLevel v) = false).
  { destruct (Qeq_bool _ _) eqn:E; [|done]. by apply Qeq_bool_iff in E. }
  unfold restartTimerFired. cbv zeta. cbn [isRestarting restartTimer pendingZoomLevel zoomLevel spawned
       set_isRestarting set_zoomLevel set_spawned set_restartTimer]. rewrite Hb, Hr. cbn [negb andb].
  unfold startFFmpeg. cbv zeta. cbn [isRestarting restartTimer pendingZoomLevel zoomLevel spawned
       set_isRestarting set_zoomLevel set_spawned set_restartTimer]. rewrite Hr, Hb. cbn [negb isRestarting restartTimer pendingZoomLevel zoomLevel spawned
       set_isRestarting set_zoomLevel set_spawned set_restartTimer].
  set (u := updateCaptureResolution _).
  destruct (updateCaptureResolution_frame
              (set_zoomLevel (pendingZoomLevel v)
                 (set_isRestarting true (set_restartTimer None v))))
    as (_ & Ht & Hp & Hz & Hs).
  fold u in Ht, Hp, Hz, Hs. cbn [isRestarting restartTimer pendingZoomLevel zoomLevel spawned
       set_isRestarting set_zoomLevel set_spawned set_restartTimer] in Ht, Hp, Hz, Hs.
  rewrite Hp, Hz. rewrite (proj2 (Qeq_bool_iff _ _) (Qeq_refl _)). cbn [negb isRestarting restartTimer pendingZoomLevel zoomLevel spawned
       set_isRestarting set_zoomLevel set_spawned set_restartTimer].
  exists (captureWidth u), (captureHeight u). by rewrite Hs, Hz, Hp, Ht.
Qed.

Lemma restartTimerFired_idle (due : Z) (v : WebcamViewer) :
  pendingZoomLevel v == zoomLevel v →
  restartTimerFired due v = set_restartTimer None v.
Proof.
  intros He. unfold restartTimerFired. cbn [pendingZoomLevel zoomLevel set_restartTimer].
  by rewrite (proj2 (Qeq_bool_iff _ _) He).
Qed.

End DebounceFacts.

(** C2 as the code has it.  From a quiescent viewer, zoom requests that all
    arrive within 500 ms start no capture process while they arrive; each
    request that changes the pending zoom level sets the timeout anew, 500
    ms after the request, and a request that the bounds 1 and 8 absorb
    leaves the timeout as it is.  When the timeout runs, at most one
    capture process is started: none if the pending zoom level is the
    active one again, and otherwise exactly one, for the zoom level left
    pending by the last request; after that nothing is pending. *)
Theorem debounced_restart (v : TerminalWebcam.WebcamViewer) (t0 : Z) (reqs : list (Z * Q)) :
  Debounce.quiescent v → Debounce.within_quiet_period t0 reqs →
  let z := TerminalWebcam.requestedZoom (TerminalWebcam.pendingZoomLevel v) (reqs.*2) in
  let v1 := TerminalWebcam.burst reqs v in
  let v2 := TerminalWebcam.quiesce v1 in
  TerminalWebcam.spawned v1 = TerminalWebcam.spawned v
  ∧ TerminalWebcam.pendingZoomLevel v1 = z
  ∧ (z == TerminalWebcam.zoomLevel v →
     TerminalWebcam.spawned v2 = TerminalWebcam.spawned v)
  ∧ (¬ z == TerminalWebcam.zoomLevel v →
     ∃ w h,
       TerminalWebcam.spawned v2
       = TerminalWebcam.spawned v ++ [TerminalWebcam.mkCapture w h z]
       ∧ TerminalWebcam.zoomLevel v2 = z)
  ∧ TerminalWebcam.restartTimer v2 = None
  ∧ TerminalWebcam.isRestarting v2 = false
  ∧ (∀ (t : Z) (delta : Q) (u : TerminalWebcam.WebcamViewer),
       TerminalWebcam.restartTimer (TerminalWebcam.adjustZoom t delta u)
       = if Qeq_bool (Qmax 1 (Qmin 8 (TerminalWebcam.pendingZoomLevel u + delta)))
                     (TerminalWebcam.pendingZoomLevel u)
         then TerminalWebcam.restartTimer u
         else Some (t + 500)%Z).
Proof.
  intros (Htimer & Hrest & Hpz) Hwin z v1 v2.
  destruct (DebounceFacts.burst_inv_spec t0 v reqs v) as [(Hr & Hs & Hz & Hdue & Hnone) Hp];
    [|done|].
  { unfold Debounce.burst_inv. rewrite Htimer. by split_and!. }
  fold v1 in Hr, Hs, Hz, Hdue, Hnone, Hp. fold z in Hp.
  split; [done|]. split; [done|].
  assert (Hq : (z == TerminalWebcam.zoomLevel v →
                TerminalWebcam.spawned v2 = TerminalWebcam.spawned v
                ∧ TerminalWebcam.restartTimer v2 = None
                ∧ TerminalWebcam.isRestarting v2 = false)
               ∧ (¬ z == TerminalWebcam.zoomLevel v →
                  (∃ w h,
                     TerminalWebcam.spawned v2
                     = TerminalWebcam.spawned v ++ [TerminalWebcam.mkCapture w h z]
                     ∧ TerminalWebcam.zoomLevel v2 = z)
                  ∧ TerminalWebcam.restartTimer v2 = None
                  ∧ TerminalWebcam.isRestarting v2 = false)).
  { unfold v2, TerminalWebcam.quiesce.
    destruct (TerminalWebcam.restartTimer v1) as [due|] eqn:Ht.
    - split; intros Hcmp.
      + rewrite DebounceFacts.restartTimerFired_idle by (by rewrite Hp, Hz). by simpl.
      + destruct (DebounceFacts.restartTimerFired_restarts due v1 Hr) as (w & h & H1 & H2 & _ & H4 & H5).
        { by rewrite Hp, Hz. }
        rewrite Hp, Hs in H1. rewrite Hp in H2. split; [by exists w, h|done].
    - specialize (Hnone eq_refl). rewrite Hp, Hz in Hnone. split; intros Hcmp; [done|].
      by destruct Hcmp. }
  destruct Hq as [Hsame Hdiff].
  destruct (Qeq_dec z (TerminalWebcam.zoomLevel v)) as [He|Hn].
  - destruct (Hsame He) as (? & ? & ?). split_and!; try done.
    apply DebounceFacts.adjustZoom_timer.
  - destruct (Hdiff Hn) as (? & ? & ?). split_and!; try done.
    apply DebounceFacts.adjustZoom_timer.
Qed.

(** The scenario of the specification: three requests of +0.5 in 200 ms on
    a terminal of 80 by 24 give one restart for zoom 2.5. *)
Lemma debounced_restart_witness :
  ∃ w h,
    TerminalWebcam.spawned
      (TerminalWebcam.quiesce
         (TerminalWebcam.burst [(0%Z, 0.5%Q); (100%Z, 0.5%Q); (200%Z, 0.5%Q)] viewer_80x24))
    = [] ++ [TerminalWebcam.mkCapture w h
               (TerminalWebcam.requestedZoom 1 [0.5%Q; 0.5%Q; 0.5%Q])]
    ∧ TerminalWebcam.requestedZoom 1 [0.5%Q; 0.5%Q; 0.5%Q] == 2.5%Q.
Proof.
  destruct (debounced_restart viewer_80x24 0
              [(0%Z, 0.5%Q); (100%Z, 0.5%Q); (200%Z, 0.5%Q)])
    as (_ & _ & _ & Hone & _).
  - by split_and!.
  - intros e He. repeat (apply elem_of_cons in He as [->|He]; [by vm_compute|]).
    by apply elem_of_nil in He.
  - destruct Hone as (w & h & Hs & _); [by vm_compute|].
    exists w, h. split; [exact Hs | reflexivity].
Defined.

(** One request of -0.5 at zoom 1 is absorbed by the lower bound: no timeout
    is set and no capture process is started. *)
Lemma absorbed_request_does_not_restart :
  Debounce.quiescent viewer_80x24
  ∧ Debounce.within_quiet_period 0 [(0%Z, (-0.5)%Q)]
  ∧ TerminalWebcam.restartTimer (TerminalWebcam.burst [(0%Z, (-0.5)%Q)] viewer_80x24) = None
  ∧ TerminalWebcam.spawned
      (TerminalWebcam.quiesce (TerminalWebcam.burst [(0%Z, (-0.5)%Q)] viewer_80x24))
    = TerminalWebcam.spawned viewer_80x24
  ∧ length (TerminalWebcam.spawned
      (TerminalWebcam.quiesce (TerminalWebcam.burst [(0%Z, (-0.5)%Q)] viewer_80x24)))
    ≠ S (length (TerminalWebcam.spawned viewer_80x24)).
Proof.
  split_and!; try by vm_compute.
  intros e He. apply elem_of_cons in He as [->|He]; [by vm_compute|].
  by apply elem_of_nil in He.
Qed.

(** Two requests that cancel each other set the timeout, and it starts
    nothing. *)
Lemma cancelling_requests_do_not_restart :
  TerminalWebcam.restartTimer
    (TerminalWebcam.burst [(0%Z, 0.5%Q); (100%Z, (-0.5)%Q)] viewer_80x24) = Some 600%Z
  ∧ TerminalWebcam.spawned
      (TerminalWebcam.quiesce
         (TerminalWebcam.burst [(0%Z, 0.5%Q); (100%Z, (-0.5)%Q)] viewer_80x24))
    = [].
Proof. by vm_compute. Qed.

(** ** The render loop *)

Module DiffRenderFacts.
Import OpentuiCore DiffRender.





Lemma insertByZIndex_perm (t : TextRenderable) (l : list TextRenderable) :
  insertByZIndex t l ≡ₚ t :: l.
Proof.
  induction l as [|u l IH]; simpl; [done|].
  destruct (zIndex t <? zIndex u)%Z; [done|]. by rewrite IH, Permutation_swap.
Qed.

Lemma sortByZIndex_perm (l : list TextRenderable) : sortByZIndex l ≡ₚ l.
Proof.
  unfold sortByZIndex.
  enough (∀ acc, foldl (λ acc t, insertByZIndex t acc) acc l ≡ₚ l ++ acc) as H.
  { by rewrite H, app_nil_r. }
  induction l as [|t l IH]; intros acc; simpl; [done|].
  by rewrite IH, insertByZIndex_perm, Permutation_middle.
Qed.

Lemma renderOne_fresh last w t : fresh last t → renderOne (last, w) t = (last, w).
Proof. intros Hf. unfold renderOne. simpl. by rewrite bool_decide_eq_false_2 by naive_solver. Qed.

Lemma renderOne_stale last w t :
  ¬ fresh last t →
  renderOne (last, w) t = (<[id t := stateHash t]> last, w ++ [cellWrites t]).
Proof. intros Hf. unfold renderOne. simpl. by rewrite bool_decide_eq_true_2. Qed.

Lemma renderOne_makes_fresh acc t : fresh (renderOne acc t).1 t.
Proof.
  destruct acc as [last w]. destruct (decide (fresh last t)) as [Hf|Hf].
  - by rewrite renderOne_fresh.
  - rewrite renderOne_stale by done. apply lookup_insert_eq.
Qed.

Lemma renderOne_other acc t k : k ≠ id t → (renderOne acc t).1 !! k = acc.1 !! k.
Proof.
  intros Hk. destruct acc as [last w]. destruct (decide (fresh last t)) as [Hf|Hf].
  - by rewrite renderOne_fresh.
  - rewrite renderOne_stale by done. by apply lookup_insert_ne.
Qed.


Lemma render_other l acc k :
  k ∉ id <$> l → (foldl renderOne acc l).1 !! k = acc.1 !! k.
Proof.
  revert acc. induction l as [|t l IH]; intros acc Hk; simpl; [done|].
  rewrite fmap_cons, not_elem_of_cons in Hk. destruct Hk as [Hk Hl].
  rewrite IH by done. by apply renderOne_other.
Qed.

Lemma render_makes_fresh l acc :
  NoDup (id <$> l) → ∀ t, t ∈ l → fresh (foldl renderOne acc l).1 t.
Proof.
  revert acc. induction l as [|u l IH]; intros acc Hnd t Ht; [by apply elem_of_nil in Ht|].
  rewrite fmap_cons in Hnd. apply NoDup_cons in Hnd as [Hu Hnd]. simpl.
  apply elem_of_cons in Ht as [->|Ht]; [|by apply IH].
  unfold fresh. rewrite render_other by done. apply renderOne_makes_fresh.
Qed.


(** After a pass, every renderable is in the state that was written. *)
Lemma renderLoop_fresh (s : SimpleCliRenderer) :
  running s = true → NoDup (id <$> renderables s) →
  ∀ t, t ∈ renderables s → fresh (lastRenderState (renderLoop s).1) t.
Proof.
  intros Hrun Hnd t Ht. unfold renderLoop. rewrite Hrun. simpl.
  pose proof (render_makes_fresh (sortByZIndex (renderables s)) (lastRenderState s, [])) as H.
  destruct (foldl renderOne _ _) as [last w]. simpl in *.
  apply H; [by rewrite sortByZIndex_perm | by rewrite sortByZIndex_perm].
Qed.

(** The values of the map have distinct ids. *)
Lemma mapSet_ids (t : TextRenderable) (l : list TextRenderable) (k : string) :
  k ∈ id <$> mapSet t l → k = id t ∨ k ∈ id <$> l.
Proof.
  induction l as [|u l IH]; cbn [mapSet].
  - intros ->%list_elem_of_singleton. by left.
  - destruct (String.eqb (id u) (id t)) eqn:E; rewrite !fmap_cons, !elem_of_cons.
    + intros [->|Hk]; [by left | by right; right].
    + intros [->|Hk]; [by right; left|].
      destruct (IH Hk) as [->|Hl]; [by left | by right; right].
Qed.

Lemma mapSet_NoDup (t : TextRenderable) (l : list TextRenderable) :
  NoDup (id <$> l) → NoDup (id <$> mapSet t l).
Proof.
  induction l as [|u l IH]; intros Hnd.
  - apply NoDup_singleton.
  - rewrite fmap_cons in Hnd. apply NoDup_cons in Hnd as [Hu Hnd].
    cbn [mapSet]. destruct (String.eqb (id u) (id t)) eqn:E; rewrite fmap_cons.
    + apply String.eqb_eq in E. rewrite <- E. by apply NoDup_cons.
    + apply NoDup_cons. split; [|by apply IH].
      intros Hin. apply mapSet_ids in Hin as [Hin|Hin]; [|by apply Hu].
      apply String.eqb_neq in E. by apply E.
Qed.


End DiffRenderFacts.



Example diff_render_writes :
  OpentuiCore.cellWrites (OpentuiCore.set_fg (Some "#00ff00") cell_0_1)
  = [ OpentuiCore.ESC +:+ "[2;1H";
      OpentuiCore.ESC +:+ "[38;2;0;255;0m" +:+ OpentuiCore.ESC +:+ "[48;2;0;0;0m";
      "x";
      OpentuiCore.ESC +:+ "[0m" ].
Proof. reflexivity. Qed.

(** ** Frame assembly: streams that do not end on a frame boundary *)

Lemma frames_total_length (F : nat) (frames : list (list byte)) :
  Forall (λ f, length f = F) frames → length (concat frames) = length frames * F.
Proof.
  induction 1 as [|f fs Hf _ IH]; simpl; [done|]. rewrite length_app, IH. lia.
Qed.

Lemma slice_app_frames (F : nat) (frames : list (list byte)) (rest : list byte) (i : nat) :
  Forall (λ f, length f = F) frames → i < length frames →
  slice F i (concat frames ++ rest) = slice F i (concat frames).
Proof.
  intros Hall Hi. pose proof (frames_total_length F frames Hall) as Hlen.
  unfold slice. rewrite drop_app_le by nia.
  rewrite take_app_le; [done|]. rewrite length_drop. nia.
Qed.

(** X1.  Chunks of any sizes, fed in order to an assembler that may hold the
    start of a frame, complete exactly the whole frames of the stream (the
    bytes held, then the chunks), each the next slice of [F] bytes; the
    bytes of the last, unfinished frame stay at the start of the buffer and
    the buffer position is the length of the stream modulo [F]. *)
Theorem partial_frame_is_kept (F : nat) (chunks : list (list byte)) (a0 : Assembler) :
  0 < F → assembling F a0 →
  let stream := take (bufferPos a0) (videoBuffer a0) ++ concat chunks in
  let k := length stream / F in
  ∃ a frames,
    feed F chunks a0 = Some (a, frames)
    ∧ length frames = k
    ∧ (∀ i, i < k → frames !! i = Some (slice F i stream))
    ∧ bufferPos a = length stream mod F
    ∧ take (bufferPos a) (videoBuffer a) = drop (k * F) stream
    ∧ length (videoBuffer a) = F
    ∧ frameCount a = frameCount a0 + k.
Proof.
  intros HF Ha0 stream k.
  destruct (feed_spec F HF chunks a0 Ha0)
    as (a & frames & Hrun & [Hl Hp] & Hall & Hcat & Hcnt).
  fold stream in Hcat.
  pose proof (frames_total_length F frames Hall) as Hsz.
  assert (Hlen : length stream = length frames * F + bufferPos a).
  { rewrite <- Hcat, length_app, length_take, Hsz. lia. }
  assert (Hk : k = length frames).
  { unfold k. rewrite Hlen. symmetry. apply (Nat.div_unique _ _ _ (bufferPos a)); lia. }
  exists a, frames. split_and!; auto.
  - intros i Hi. destruct (lookup_lt_is_Some_2 frames i) as [f Hf]; [lia|].
    rewrite Hf, <- Hcat, slice_app_frames by (done || lia).
    f_equal. symmetry. by apply slice_concat.
  - rewrite Hlen. apply (Nat.mod_unique _ _ (length frames)); lia.
  - rewrite Hk, <- Hcat, drop_app_length'; [done|]. by rewrite Hsz.
  - lia.
Qed.

Lemma partial_frame_is_kept_witness :
  ∃ a frames,
    feed 2 [["001"]; ["002"; "003"; "004"]; ["005"]]%byte
         (mkAssembler [x00; x00] 0 0) = Some (a, frames)
    ∧ length frames = 2
    ∧ bufferPos a = 1
    ∧ take (bufferPos a) (videoBuffer a) = ["005"]%byte.
Proof.
  destruct (partial_frame_is_kept 2 [["001"]; ["002"; "003"; "004"]; ["005"]]%byte
              (mkAssembler [x00; x00] 0 0))
    as (a & frames & Hrun & Hn & _ & Hp & Hrest & _).
  - lia.
  - split; simpl; lia.
  - exists a, frames. split_and!; [exact Hrun | exact Hn | exact Hp | exact Hrest].
Defined.

(** ** The loop without the test of [bufferPos] *)

Lemma unguarded_copyChunk (buf chunk : list byte) (pos offset n : nat) :
  Unguarded.copyChunk buf chunk pos (Z.of_nat offset) (Z.of_nat n)
  = copyChunk buf chunk pos offset n.
Proof.
  unfold Unguarded.copyChunk, copyChunk. rewrite Nat2Z.id.
  generalize (seq 0 n). intros l. revert buf.
  induction l as [|i l IH]; intros buf; simpl; [done|].
  rewrite IH. f_equal. f_equal. unfold Unguarded.chunkAt.
  rewrite (proj2 (Z.ltb_ge _ _)) by lia. by rewrite <- Nat2Z.inj_add, Nat2Z.id.
Qed.

Lemma copyChunk_length (buf chunk : list byte) (pos offset n : nat) :
  length (copyChunk buf chunk pos offset n) = length buf.
Proof.
  unfold copyChunk. generalize (seq 0 n). intros l. revert buf.
  induction l as [|i l IH]; intros buf; simpl; [done|].
  by rewrite IH, length_insert.
Qed.

Lemma unguarded_loop_agrees (F : nat) (chunk : list byte) (fuel offset : nat)
    (a : Assembler) (out : list (list byte)) :
  bufferPos a < F → offset ≤ length chunk →
  Unguarded.processVideoData_loop fuel (Z.of_nat F) chunk (Z.of_nat offset) a out
  = processVideoData_loop fuel F chunk offset a out.
Proof.
  revert offset a out. induction fuel as [|fuel IH]; intros offset a out Hpos Hoff; [done|].
  cbn [Unguarded.processVideoData_loop processVideoData_loop].
  destruct (offset <? length chunk) eqn:Hlt.
  - apply Nat.ltb_lt in Hlt.
    rewrite (proj2 (Z.ltb_lt _ _)) by lia.
    rewrite (proj2 (Nat.ltb_lt _ _) Hpos). cbn [andb].
    set (n := (F - bufferPos a) `min` (length chunk - offset)).
    replace ((Z.of_nat F - Z.of_nat (bufferPos a))
             `min` (Z.of_nat (length chunk) - Z.of_nat offset))%Z
      with (Z.of_nat n) by lia.
    rewrite unguarded_copyChunk.
    replace (Z.of_nat offset + Z.of_nat n)%Z with (Z.of_nat (offset + n)) by lia.
    replace (Z.of_nat (bufferPos a) + Z.of_nat n)%Z with (Z.of_nat (bufferPos a + n)) by lia.
    rewrite Nat2Z.id.
    destruct (F <=? bufferPos a + n) eqn:Hfull.
    + apply Nat.leb_le in Hfull. rewrite (proj2 (Z.leb_le _ _)) by lia.
      apply IH; simpl; lia.
    + apply Nat.leb_gt in Hfull. rewrite (proj2 (Z.leb_gt _ _)) by lia.
      apply IH; simpl; lia.
  - apply Nat.ltb_ge in Hlt. by rewrite (proj2 (Z.ltb_ge _ _)) by lia.
Qed.

(** X2.  The loop of the quadrant and of the super-sampling viewer, which does
    not test [bufferPos] in its condition, ends for a frame size above zero
    and gives the frames and the assembler that the loop of terminal-webcam
    gives: whole frames of the frame size, the rest kept in the buffer. *)
Theorem unguarded_loop_reassembles (chunk : list byte) (v : Quadrant.WebcamViewer) :
  (0 < Quadrant.frameSize v)%Z →
  assembling (Z.to_nat (Quadrant.frameSize v)) (Quadrant.asm v) →
  ∃ a frames,
    Unguarded.processVideoData chunk v
    = Some (Quadrant.mkViewer (Quadrant.width v) (Quadrant.height v)
              (Quadrant.videoWidth v) (Quadrant.videoHeight v) (Quadrant.frameSize v) a,
            frames)
    ∧ processVideoData (Z.to_nat (Quadrant.frameSize v)) chunk (Quadrant.asm v)
      = Some (a, frames)
    ∧ assembling (Z.to_nat (Quadrant.frameSize v)) a
    ∧ Forall (λ f, length f = Z.to_nat (Quadrant.frameSize v)) frames
    ∧ concat frames ++ take (bufferPos a) (videoBuffer a)
      = take (bufferPos (Quadrant.asm v)) (videoBuffer (Quadrant.asm v)) ++ chunk
    ∧ frameCount a = frameCount (Quadrant.asm v) + length frames.
Proof.
  intros HF Ha. set (F := Z.to_nat (Quadrant.frameSize v)) in *.
  assert (0 < F) as HFn by lia.
  destruct (processVideoData_spec F HFn chunk _ Ha) as (a & frames & Hrun & Ha' & Hall & Hcat & Hcnt).
  exists a, frames. split_and!; try done.
  unfold Unguarded.processVideoData.
  replace (Quadrant.frameSize v) with (Z.of_nat F) at 1 by lia.
  change 0%Z with (Z.of_nat 0).
  rewrite unguarded_loop_agrees by (destruct Ha; lia).
  unfold processVideoData in Hrun. by rewrite Hrun.
Qed.

Lemma unguarded_loop_reassembles_witness :
  ∃ a frames,
    Unguarded.processVideoData ["001"; "002"; "003"; "004"; "005"]%byte
      (Quadrant.mkViewer 1 1 1 1 4 (mkAssembler (replicate 4 x00) 0 0))
    = Some (Quadrant.mkViewer 1 1 1 1 4 a, frames)
    ∧ frames = [["001"; "002"; "003"; "004"]]%byte
    ∧ bufferPos a = 1.
Proof.
  destruct (unguarded_loop_reassembles ["001"; "002"; "003"; "004"; "005"]%byte
              (Quadrant.mkViewer 1 1 1 1 4 (mkAssembler (replicate 4 x00) 0 0)))
    as (a & frames & Hrun & Hg & _).
  - reflexivity.
  - split; simpl; lia.
  - exists a, frames. split; [exact Hrun|].
    vm_compute in Hg. injection Hg as <- <-. by split.
Defined.

(** X3.  With a frame size of zero the loop of terminal-webcam returns at once:
    the assembler is unchanged and no frame is completed.  The loop without
    the test of [bufferPos] does not end on a chunk that is not empty: it
    reads no byte in any iteration, so no fuel is enough. *)
Theorem zero_frame_size :
  (∀ (chunk : list byte) (a : Assembler), processVideoData 0 chunk a = Some (a, []))
  ∧ (∀ (fuel : nat) (chunk : list byte) (a : Assembler) (out : list (list byte)),
       chunk ≠ [] → bufferPos a = 0 →
       Unguarded.processVideoData_loop fuel 0 chunk 0 a out = None).
Proof.
  split.
  - intros chunk a. unfold processVideoData. cbn [processVideoData_loop].
    by rewrite andb_false_r.
  - intros fuel chunk a out Hne. revert a out.
    induction fuel as [|fuel IH]; intros a out Hpos; [done|].
    cbn [Unguarded.processVideoData_loop].
    assert (0 < length chunk) by (destruct chunk; simpl; [done | lia]).
    rewrite (proj2 (Z.ltb_lt _ _)) by lia. rewrite Hpos.
    replace ((0 - Z.of_nat 0) `min` (Z.of_nat (length chunk) - 0))%Z with 0%Z by lia.
    cbn [Z.add Z.of_nat Z.leb Z.compare]. by apply IH.
Qed.

Lemma zero_frame_size_witness :
  Unguarded.processVideoData_loop 1000 0 ["001"]%byte 0 (mkAssembler [] 0 0) [] = None.
Proof. apply (proj2 zero_frame_size); [discriminate | reflexivity]. Defined.

(** ** The capture size of terminal-webcam *)

Lemma Math_round_half (w : Z) : Math_round (inject_Z w / 2) = ((w + 1) / 2)%Z.
Proof.
  unfold Math_round.
  rewrite (Qfloor_comp _ (Qmake (w + 1) 2)).
  - reflexivity.
  - rewrite (Qmake_Qdiv (w + 1) 2), inject_Z_plus. change (inject_Z 1) with 1%Q.
    change (inject_Z (Z.pos 2)) with 2%Q. field.
Qed.

Lemma Math_round_le (p q : Q) : (p <= q)%Q → (Math_round p ≤ Math_round q)%Z.
Proof. intros H. apply Qfloor_resp_le. by apply Qplus_le_compat; [|apply Qle_refl]. Qed.

Lemma captureSide_range (cap least cells : Z) (zoom : Q) :
  (least ≤ cap)%Z → Z.even cap = true → Z.even least = true →
  (least ≤ captureSide cap least cells zoom ≤ cap)%Z
  ∧ Z.even (captureSide cap least cells zoom) = true.
Proof.
  intros Hle Hcap Hleast. unfold captureSide. cbv zeta. rewrite Math_round_half.
  set (m := Math_round _). 
  apply Z.even_spec in Hcap as [c ->]. apply Z.even_spec in Hleast as [l ->].
  assert ((((2 * c) `min` m + 1) `div` 2 < c + 1)%Z) by (apply Z.div_lt_upper_bound; lia).
  split; [lia|].
  destruct (Z.max_spec (2 * l) (((2 * c) `min` m + 1) `div` 2 * 2)) as [[_ ->]|[_ ->]].
  - by rewrite Z.mul_comm, Z.even_mul.
  - by rewrite Z.even_mul.
Qed.

Lemma captureSide_mono (cap least cells : Z) (z1 z2 : Q) :
  (0 ≤ cells)%Z → (z1 <= z2)%Q →
  (captureSide cap least cells z1 ≤ captureSide cap least cells z2)%Z.
Proof.
  intros Hc Hz. unfold captureSide. cbv zeta. rewrite !Math_round_half.
  assert (Math_round (inject_Z (cells * 10) * z1) ≤ Math_round (inject_Z (cells * 10) * z2))%Z.
  { apply Math_round_le. rewrite !(Qmult_comm (inject_Z _)).
    apply Qmult_le_compat_r; [done|]. unfold Qle. simpl. lia. }
  assert (∀ a b : Z, a ≤ b → (a + 1) `div` 2 * 2 ≤ (b + 1) `div` 2 * 2)%Z as Hdiv.
  { intros a b Hab. apply Z.mul_le_mono_nonneg_r; [lia|]. apply Z.div_le_mono; lia. }
  apply Z.max_le_compat_l, Hdiv. lia.
Qed.

Lemma updateCaptureResolution_eq (v : TerminalWebcam.WebcamViewer) :
  let w := captureSide 1920 640 (TerminalWebcam.termWidth v) (TerminalWebcam.zoomLevel v) in
  let h := captureSide 1080 480 (TerminalWebcam.termHeight v) (TerminalWebcam.zoomLevel v) in
  TerminalWebcam.updateCaptureResolution v
  = TerminalWebcam.set_asm
      (if bool_decide (Z.of_nat (length (videoBuffer (TerminalWebcam.asm v))) ≠ (w * h * 3)%Z)
       then mkAssembler (Uint8Array_new (w * h * 3)) 0 (frameCount (TerminalWebcam.asm v))
       else TerminalWebcam.asm v)
      (TerminalWebcam.set_capture w h v).
Proof.
  destruct v. unfold TerminalWebcam.updateCaptureResolution, captureSide. cbv zeta.
  cbn [TerminalWebcam.termWidth TerminalWebcam.termHeight TerminalWebcam.zoomLevel
       TerminalWebcam.asm TerminalWebcam.set_capture TerminalWebcam.set_asm
       TerminalWebcam.captureWidth TerminalWebcam.captureHeight
       TerminalWebcam.displayMode TerminalWebcam.isRestarting TerminalWebcam.restartTimer
       TerminalWebcam.pendingZoomLevel TerminalWebcam.panX TerminalWebcam.panY
       TerminalWebcam.panSpeed TerminalWebcam.spawned].
  by case_bool_decide.
Qed.

Ltac tw_simpl :=
  cbn [TerminalWebcam.termWidth TerminalWebcam.termHeight TerminalWebcam.captureWidth
       TerminalWebcam.captureHeight TerminalWebcam.asm TerminalWebcam.displayMode
       TerminalWebcam.isRestarting TerminalWebcam.restartTimer
       TerminalWebcam.pendingZoomLevel TerminalWebcam.zoomLevel TerminalWebcam.panX
       TerminalWebcam.panY TerminalWebcam.panSpeed TerminalWebcam.spawned
       TerminalWebcam.set_capture TerminalWebcam.set_asm TerminalWebcam.set_isRestarting
       TerminalWebcam.set_restartTimer TerminalWebcam.set_pendingZoomLevel
       TerminalWebcam.set_zoomLevel TerminalWebcam.set_pan TerminalWebcam.set_spawned
       TerminalWebcam.scheduleRestart
       TerminalWebcamEvents.set_displayMode TerminalWebcamEvents.setDisplayMode] in *.

(** X4.  [updateCaptureResolution] gives, for any terminal size and zoom level,
    an even capture width in [640, 1920] and an even capture height in
    [480, 1080], and a buffer of exactly one frame of that size; the buffer
    and the write position are kept when the buffer had that length already,
    and otherwise the buffer is new, all zero, with the write position 0. *)
Theorem capture_size_bounds (v : TerminalWebcam.WebcamViewer) :
  let u := TerminalWebcam.updateCaptureResolution v in
  let frameSize := (TerminalWebcam.captureWidth u * TerminalWebcam.captureHeight u * 3)%Z in
  (640 ≤ TerminalWebcam.captureWidth u ≤ 1920)%Z
  ∧ (480 ≤ TerminalWebcam.captureHeight u ≤ 1080)%Z
  ∧ Z.even (TerminalWebcam.captureWidth u) = true
  ∧ Z.even (TerminalWebcam.captureHeight u) = true
  ∧ length (videoBuffer (TerminalWebcam.asm u)) = Z.to_nat frameSize
  ∧ (length (videoBuffer (TerminalWebcam.asm v)) = Z.to_nat frameSize →
     TerminalWebcam.asm u = TerminalWebcam.asm v)
  ∧ (length (videoBuffer (TerminalWebcam.asm v)) ≠ Z.to_nat frameSize →
     bufferPos (TerminalWebcam.asm u) = 0
     ∧ videoBuffer (TerminalWebcam.asm u) = replicate (Z.to_nat frameSize) x00
     ∧ frameCount (TerminalWebcam.asm u) = frameCount (TerminalWebcam.asm v)).
Proof.
  intros u frameSize. subst u frameSize. rewrite updateCaptureResolution_eq. tw_simpl.
  destruct (captureSide_range 1920 640 (TerminalWebcam.termWidth v)
              (TerminalWebcam.zoomLevel v)) as [Hw Hwe]; [lia | done | done |].
  destruct (captureSide_range 1080 480 (TerminalWebcam.termHeight v)
              (TerminalWebcam.zoomLevel v)) as [Hh Hhe]; [lia | done | done |].
  set (w := captureSide 1920 640 _ _) in *. set (h := captureSide 1080 480 _ _) in *.
  split_and!; try done; try lia.
  - case_bool_decide as Hne; simpl; [|lia]. unfold Uint8Array_new. by rewrite length_replicate.
  - intros Heq. rewrite bool_decide_eq_false_2; [done|]. lia.
  - intros Hne. rewrite bool_decide_eq_true_2 by lia. simpl. unfold Uint8Array_new. done.
Qed.

Lemma capture_size_bounds_witness :
  bufferPos (TerminalWebcam.asm (TerminalWebcam.updateCaptureResolution viewer_80x24)) = 0
  ∧ (640 ≤ TerminalWebcam.captureWidth
             (TerminalWebcam.updateCaptureResolution viewer_80x24) ≤ 1920)%Z.
Proof.
  destruct (capture_size_bounds viewer_80x24) as (Hw & _ & _ & _ & _ & _ & Hnew).
  split; [|exact Hw]. apply Hnew. simpl. lia.
Defined.

(** X5.  For a terminal size that is not negative, the capture width and height
    that [updateCaptureResolution] computes do not decrease when the zoom
    level increases. *)
Theorem capture_size_grows_with_zoom (v : TerminalWebcam.WebcamViewer) (z1 z2 : Q) :
  (0 ≤ TerminalWebcam.termWidth v)%Z → (0 ≤ TerminalWebcam.termHeight v)%Z →
  (z1 <= z2)%Q →
  let u1 := TerminalWebcam.updateCaptureResolution (TerminalWebcam.set_zoomLevel z1 v) in
  let u2 := TerminalWebcam.updateCaptureResolution (TerminalWebcam.set_zoomLevel z2 v) in
  (TerminalWebcam.captureWidth u1 ≤ TerminalWebcam.captureWidth u2)%Z
  ∧ (TerminalWebcam.captureHeight u1 ≤ TerminalWebcam.captureHeight u2)%Z.
Proof.
  intros Hw Hh Hz u1 u2. subst u1 u2. rewrite !updateCaptureResolution_eq. tw_simpl.
  split; by apply captureSide_mono.
Qed.

Lemma capture_size_grows_with_zoom_witness :
  (TerminalWebcam.captureWidth
     (TerminalWebcam.updateCaptureResolution (TerminalWebcam.set_zoomLevel 1 viewer_80x24))
   ≤ TerminalWebcam.captureWidth
       (TerminalWebcam.updateCaptureResolution (TerminalWebcam.set_zoomLevel 2.5 viewer_80x24)))%Z.
Proof.
  apply (capture_size_grows_with_zoom viewer_80x24 1 2.5); by vm_compute.
Defined.

(** ** The states that terminal-webcam reaches *)

Module TerminalWebcamFacts.
Import TerminalWebcam TerminalWebcamEvents.

Lemma zoom_clamp_range (lo hi x : Q) : (lo <= hi)%Q → (lo <= Qmax lo (Qmin hi x) <= hi)%Q.
Proof.
  intros H. split; [apply Q.le_max_l|]. apply Q.max_lub; [done | apply Q.le_min_l].
Qed.

(** What the invariant needs before the first buffer is allocated. *)
Lemma updateCaptureResolution_ok (v : WebcamViewer) :
  (1 <= pendingZoomLevel v <= 8)%Q → (1 <= zoomLevel v <= 8)%Q →
  (0 <= panX v <= 1)%Q → (0 <= panY v <= 1)%Q →
  bufferPos (asm v) < length (videoBuffer (asm v)) ∨ bufferPos (asm v) = 0 →
  terminal_webcam_ok (updateCaptureResolution v).
Proof.
  intros Hp Hz Hx Hy Hpos. rewrite updateCaptureResolution_eq.
  destruct (captureSide_range 1920 640 (termWidth v) (zoomLevel v)) as [Hw _];
    [lia | done | done |].
  destruct (captureSide_range 1080 480 (termHeight v) (zoomLevel v)) as [Hh _];
    [lia | done | done |].
  set (w := captureSide 1920 640 _ _) in *. set (h := captureSide 1080 480 _ _) in *.
  unfold terminal_webcam_ok, assembling. tw_simpl. split_and!; try tauto; try lia.
  - case_bool_decide as Hne; simpl; [|lia]. unfold Uint8Array_new. by rewrite length_replicate.
  - case_bool_decide as Hne; simpl; [nia|]. nia.
Qed.

Lemma ok_frame (v v' : WebcamViewer) :
  terminal_webcam_ok v →
  pendingZoomLevel v' = pendingZoomLevel v → zoomLevel v' = zoomLevel v →
  panX v' = panX v → panY v' = panY v →
  captureWidth v' = captureWidth v → captureHeight v' = captureHeight v →
  asm v' = asm v →
  terminal_webcam_ok v'.
Proof.
  unfold terminal_webcam_ok. by intros H -> -> -> -> -> -> ->.
Qed.

Lemma startFFmpeg_spawn_ok (v : WebcamViewer) :
  (1 <= pendingZoomLevel v <= 8)%Q → (1 <= zoomLevel v <= 8)%Q →
  (0 <= panX v <= 1)%Q → (0 <= panY v <= 1)%Q →
  bufferPos (asm v) < length (videoBuffer (asm v)) ∨ bufferPos (asm v) = 0 →
  terminal_webcam_ok (startFFmpeg_spawn v)
  ∧ termWidth (startFFmpeg_spawn v) = termWidth v
  ∧ termHeight (startFFmpeg_spawn v) = termHeight v.
Proof.
  intros Hp Hz Hx Hy Hpos. unfold startFFmpeg_spawn. cbv zeta.
  set (v2 := if negb (Qeq_bool (pendingZoomLevel v) (zoomLevel v))
             then set_zoomLevel (pendingZoomLevel v) v else v).
  assert (H2 : (1 <= pendingZoomLevel v2 <= 8)%Q ∧ (1 <= zoomLevel v2 <= 8)%Q
               ∧ panX v2 = panX v ∧ panY v2 = panY v ∧ asm v2 = asm v
               ∧ termWidth v2 = termWidth v ∧ termHeight v2 = termHeight v).
  { subst v2. by destruct (negb _); tw_simpl. }
  destruct H2 as (Hp2 & Hz2 & Hx2 & Hy2 & Ha2 & Htw2 & Hth2).
  assert (Hu : terminal_webcam_ok (updateCaptureResolution v2)
               ∧ termWidth (updateCaptureResolution v2) = termWidth v
               ∧ termHeight (updateCaptureResolution v2) = termHeight v).
  { split; [apply updateCaptureResolution_ok; try done; by rewrite ?Hx2, ?Hy2, ?Ha2|].
    rewrite updateCaptureResolution_eq. by tw_simpl. }
  set (u := updateCaptureResolution v2) in *. destruct Hu as (Hu & Htw & Hth).
  tw_simpl. split; [|done]. by apply (ok_frame u).
Qed.

Lemma startFFmpeg_ready_ok (now : Z) (v : WebcamViewer) :
  terminal_webcam_ok v →
  terminal_webcam_ok (startFFmpeg_ready now v)
  ∧ termWidth (startFFmpeg_ready now v) = termWidth v
  ∧ termHeight (startFFmpeg_ready now v) = termHeight v.
Proof.
  intros Hok. unfold startFFmpeg_ready. cbv zeta.
  destruct (negb _); tw_simpl; (split; [|done]); by apply (ok_frame v).
Qed.

Lemma ok_pre (v : WebcamViewer) :
  terminal_webcam_ok v →
  (1 <= pendingZoomLevel v <= 8)%Q ∧ (1 <= zoomLevel v <= 8)%Q
  ∧ (0 <= panX v <= 1)%Q ∧ (0 <= panY v <= 1)%Q
  ∧ (bufferPos (asm v) < length (videoBuffer (asm v)) ∨ bufferPos (asm v) = 0).
Proof.
  intros (Hp & Hz & Hx & Hy & Hw & Hh & [Hl Hpos]).
  repeat (split; [assumption|]). left. by rewrite Hl.
Qed.

Lemma startFFmpeg_call_ok (v : WebcamViewer) :
  terminal_webcam_ok v →
  terminal_webcam_ok (startFFmpeg_call v).1
  ∧ termWidth (startFFmpeg_call v).1 = termWidth v
  ∧ termHeight (startFFmpeg_call v).1 = termHeight v.
Proof.
  intros Hok. unfold startFFmpeg_call. destruct (isRestarting v); [done|]. cbv zeta.
  tw_simpl. destruct (spawned v); cbn [fst].
  - destruct (ok_pre v Hok) as (Hp & Hz & Hx & Hy & Hpos).
    by apply (startFFmpeg_spawn_ok (set_isRestarting true v)).
  - split; [|done]. by apply (ok_frame v).
Qed.

Lemma resume_ok (now : Z) (w : Wait) (v : WebcamViewer) :
  terminal_webcam_ok v →
  terminal_webcam_ok (resume now w v).1
  ∧ termWidth (resume now w v).1 = termWidth v
  ∧ termHeight (resume now w v).1 = termHeight v.
Proof.
  intros Hok. destruct w; cbn [resume fst].
  - destruct (ok_pre v Hok) as (Hp & Hz & Hx & Hy & Hpos). by apply startFFmpeg_spawn_ok.
  - by apply startFFmpeg_ready_ok.
Qed.

Lemma adjustZoom_ok (now : Z) (delta : Q) (v : WebcamViewer) :
  terminal_webcam_ok v → terminal_webcam_ok (adjustZoom now delta v).
Proof.
  intros (Hp & Hz & Hx & Hy & Hw & Hh & Ha). unfold adjustZoom. cbv zeta. tw_simpl.
  pose proof (zoom_clamp_range 1 8 (pendingZoomLevel v + delta) ltac:(discriminate)).
  destruct (negb _); unfold terminal_webcam_ok; tw_simpl;
    split_and!; try assumption; try tauto; apply clamp01_range.
Qed.

Lemma pan_ok (dx dy : Q) (v : WebcamViewer) :
  terminal_webcam_ok v → terminal_webcam_ok (pan dx dy v).
Proof.
  intros (Hp & Hz & Hx & Hy & Hw & Hh & Ha). unfold pan.
  destruct (Qlt_le_dec _ _); unfold terminal_webcam_ok; tw_simpl;
    split_and!; try assumption; try tauto; apply clamp01_range.
Qed.

Lemma resetZoom_ok (now : Z) (v : WebcamViewer) :
  terminal_webcam_ok v → terminal_webcam_ok (resetZoom now v).
Proof.
  intros (Hp & Hz & Hx & Hy & Hw & Hh & Ha). unfold resetZoom.
  destruct (_ || _); unfold terminal_webcam_ok; tw_simpl;
    split_and!; try assumption; try tauto; discriminate.
Qed.

Lemma onRestartTimer_ok (v : WebcamViewer) :
  terminal_webcam_ok v →
  terminal_webcam_ok (onRestartTimer v).1
  ∧ termWidth (onRestartTimer v).1 = termWidth v
  ∧ termHeight (onRestartTimer v).1 = termHeight v.
Proof.
  intros Hok. unfold onRestartTimer. destruct (restartTimer v) as [due|]; [|done].
  cbv zeta.
  assert (Hok' : terminal_webcam_ok (set_restartTimer None v)) by by apply (ok_frame v).
  destruct (_ && _); [|done]. by apply (startFFmpeg_call_ok (set_restartTimer None v)).
Qed.

Lemma handleKey_cases (now : Z) (keyStr : string) (v : WebcamViewer)
    (P : WebcamViewer * option Z → Prop) :
  (∀ m, P (setDisplayMode m v, None)) →
  (∀ d, P (adjustZoom now d v, None)) →
  P (resetZoom now v, None) →
  (∀ dx dy, P (pan dx dy v, None)) →
  P (cleanup v) → P (v, None) →
  P (handleKey now keyStr v).
Proof.
  intros Hmode Hzoom Hreset Hpan Hquit Hnone. unfold handleKey.
  repeat (match goal with
          | |- P (if ?b then _ else _) => destruct b; [solve [auto]|]
          end).
  exact Hnone.
Qed.

Lemma handleKey_ok (now : Z) (keyStr : string) (v : WebcamViewer) :
  terminal_webcam_ok v →
  terminal_webcam_ok (handleKey now keyStr v).1
  ∧ termWidth (handleKey now keyStr v).1 = termWidth v
  ∧ termHeight (handleKey now keyStr v).1 = termHeight v.
Proof.
  intros Hok. apply handleKey_cases; cbn [fst].
  - intros m. split; [by apply (ok_frame v)|done].
  - intros d. split; [by apply adjustZoom_ok|].
    unfold adjustZoom. cbv zeta. by destruct (negb _).
  - split; [by apply resetZoom_ok|]. unfold resetZoom. by destruct (_ || _).
  - intros dx dy. split; [by apply pan_ok|]. unfold pan. by destruct (Qlt_le_dec _ _).
  - split; [by apply (ok_frame v)|done].
  - done.
Qed.

Lemma onData_ok (chunk : list byte) (v : WebcamViewer) :
  terminal_webcam_ok v →
  ∃ v' frames,
    onData chunk v = Some (v', frames) ∧ terminal_webcam_ok v'
    ∧ termWidth v' = termWidth v ∧ termHeight v' = termHeight v.
Proof.
  intros Hok. unfold onData. destruct (negb _); [|by exists v, []].
  pose proof Hok as (Hp & Hz & Hx & Hy & Hw & Hh & Ha).
  unfold TerminalWebcam.processVideoData.
  assert (0 < Z.to_nat (captureWidth v * captureHeight v * 3)) as HF by nia.
  destruct (processVideoData_spec _ HF chunk _ Ha) as (a & fs & -> & Ha' & _).
  exists (set_asm a v), fs. cbn [mbind option_bind]. split; [done|].
  split; [|done]. unfold terminal_webcam_ok. by tw_simpl.
Qed.

Lemma step_ok (p : Process) (e : Event) :
  terminal_webcam_ok (viewer p) →
  ∃ p' code,
    step p e = Some (p', code) ∧ terminal_webcam_ok (viewer p')
    ∧ termWidth (viewer p') = termWidth (viewer p)
    ∧ termHeight (viewer p') = termHeight (viewer p).
Proof.
  intros Hok. destruct e as [now keyStr| |chunk|code| |now i]; cbn [step].
  - pose proof (handleKey_ok now keyStr (viewer p) Hok) as H.
    destruct (handleKey now keyStr (viewer p)) as [v' code]. by eexists _, _.
  - pose proof (onRestartTimer_ok (viewer p) Hok) as H.
    destruct (onRestartTimer (viewer p)) as [v' ws]. by eexists _, _.
  - destruct (onData_ok chunk (viewer p) Hok) as (v' & fs & -> & H). by eexists _, _.
  - by exists p, None.
  - eexists _, _. split; [done|]. split; [|done]. by apply (ok_frame (viewer p)).
  - destruct (waits p !! i) as [w|]; [|by exists p, None].
    pose proof (resume_ok now w (viewer p) Hok) as H.
    destruct (resume now w (viewer p)) as [v' ws]. by eexists _, _.
Qed.

Lemma run_ok (events : list Event) (p : Process) :
  terminal_webcam_ok (viewer p) →
  ∃ p' code,
    run events p = Some (p', code) ∧ terminal_webcam_ok (viewer p')
    ∧ termWidth (viewer p') = termWidth (viewer p)
    ∧ termHeight (viewer p') = termHeight (viewer p).
Proof.
  revert p. induction events as [|e es IH]; intros p Hok; [by exists p, None|].
  destruct (step_ok p e Hok) as (p1 & code & Hstep & Hok1 & Htw & Hth).
  simpl. rewrite Hstep. cbn [mbind option_bind]. destruct code as [c|].
  - by exists p1, (Some c).
  - destruct (IH p1 Hok1) as (p' & code & -> & ? & ? & ?). exists p', code.
    split_and!; [done | done | congruence | congruence].
Qed.

Lemma init_ok (terminalWidth terminalHeight : Z) :
  terminal_webcam_ok (viewer (init (new_WebcamViewer terminalWidth terminalHeight)))
  ∧ termWidth (viewer (init (new_WebcamViewer terminalWidth terminalHeight))) = terminalWidth
  ∧ termHeight (viewer (init (new_WebcamViewer terminalWidth terminalHeight)))
    = terminalHeight.
Proof.
  unfold init, startFFmpeg_call, new_WebcamViewer. tw_simpl. cbv zeta. cbn [viewer].
  apply (startFFmpeg_spawn_ok
           (set_isRestarting true (new_WebcamViewer terminalWidth terminalHeight)));
    try (by vm_compute). by right.
Qed.

(** A call of [startFFmpeg] during which nothing else happens is the
    function in one step. *)
Lemma startFFmpeg_uninterrupted (now : Z) (v : WebcamViewer) :
  uninterrupted (now + 400) (startFFmpeg_call v) = startFFmpeg now v.
Proof.
  unfold uninterrupted, startFFmpeg_call, startFFmpeg.
  destruct (isRestarting v); [done|]. cbv zeta. tw_simpl.
  destruct (spawned v); cbn [fst snd]; done.
Qed.

End TerminalWebcamFacts.

(** X6.  From the start of the viewer, every sequence of events (keys, the
    restart timeout, chunks of video, exit and error of the capture
    process, and the ends of the waits of [startFFmpeg], in any order) is
    handled, and the viewer is then well formed: both zoom levels in [1,8],
    the pan position in [0,1], the capture size in its bounds, a buffer of
    one frame of that size with the write position inside it; the terminal
    size is never changed. *)
Theorem reachable_states_are_well_formed
    (terminalWidth terminalHeight : Z) (events : list TerminalWebcamEvents.Event) :
  ∃ p code,
    TerminalWebcamEvents.run events
      (TerminalWebcamEvents.init
         (TerminalWebcamEvents.new_WebcamViewer terminalWidth terminalHeight))
    = Some (p, code)
    ∧ terminal_webcam_ok (TerminalWebcamEvents.viewer p)
    ∧ TerminalWebcam.termWidth (TerminalWebcamEvents.viewer p) = terminalWidth
    ∧ TerminalWebcam.termHeight (TerminalWebcamEvents.viewer p) = terminalHeight.
Proof.
  destruct (TerminalWebcamFacts.init_ok terminalWidth terminalHeight) as (Hok & Htw & Hth).
  destruct (TerminalWebcamFacts.run_ok events _ Hok) as (p & code & Hrun & Hok' & Htw' & Hth').
  exists p, code. split_and!; [done | done | congruence | congruence].
Qed.

(** X7.  In every state that the viewer reaches, the three bytes that
    [sampleVideoPixel] reads for a cell, and those of each neighbour that it
    averages, are inside the video buffer: the black fallback is not
    taken. *)
Theorem reachable_samples_are_in_the_frame
    (terminalWidth terminalHeight : Z) (events : list TerminalWebcamEvents.Event) :
  ∃ p code,
    TerminalWebcamEvents.run events
      (TerminalWebcamEvents.init
         (TerminalWebcamEvents.new_WebcamViewer terminalWidth terminalHeight))
    = Some (p, code)
    ∧ ∀ termX termY : Z,
        let v := TerminalWebcamEvents.viewer p in
        let x := clampCoord (TerminalWebcam.videoXY v termX termY).1
                            (TerminalWebcam.captureWidth v) in
        let y := clampCoord (TerminalWebcam.videoXY v termX termY).2
                            (TerminalWebcam.captureHeight v) in
        reads_in_bounds (videoBuffer (TerminalWebcam.asm v)) (TerminalWebcam.bufferIndex v x y)
        ∧ ∀ dx dy : Z,
            reads_in_bounds (videoBuffer (TerminalWebcam.asm v))
              (TerminalWebcam.bufferIndex v
                 (clampCoord (x + dx) (TerminalWebcam.captureWidth v))
                 (clampCoord (y + dy) (TerminalWebcam.captureHeight v))).
Proof.
  destruct (TerminalWebcamFacts.init_ok terminalWidth terminalHeight) as (Hok & _).
  destruct (TerminalWebcamFacts.run_ok events _ Hok)
    as (p & code & Hrun & (_ & _ & _ & _ & Hw & Hh & [Hlen _]) & _).
  exists p, code. split; [done|]. intros termX termY. cbv zeta.
  set (v := TerminalWebcamEvents.viewer p) in *.
  assert (Hin : ∀ cx cy,
            reads_in_bounds (videoBuffer (TerminalWebcam.asm v))
              (TerminalWebcam.bufferIndex v
                 (clampCoord cx (TerminalWebcam.captureWidth v))
                 (clampCoord cy (TerminalWebcam.captureHeight v)))).
  { intros cx cy. apply (reads_in_bounds_frame _ _ (TerminalWebcam.captureHeight v));
      [done | apply clampCoord_range; lia ..]. }
  split; [apply Hin|]. intros dx dy. apply Hin.
Qed.

Module CaptureInStep.
Import TerminalWebcam TerminalWebcamEvents.

Lemma in_step_frame (v v' : WebcamViewer) :
  capture_in_step v →
  spawned v' = spawned v → captureWidth v' = captureWidth v →
  captureHeight v' = captureHeight v → zoomLevel v' = zoomLevel v →
  capture_in_step v'.
Proof. unfold capture_in_step. by intros H -> -> -> ->. Qed.

Lemma startFFmpeg_spawn_in_step (v : WebcamViewer) : capture_in_step (startFFmpeg_spawn v).
Proof.
  unfold startFFmpeg_spawn. cbv zeta.
  set (v2 := if negb (Qeq_bool (pendingZoomLevel v) (zoomLevel v))
             then set_zoomLevel (pendingZoomLevel v) v else v).
  set (u := updateCaptureResolution v2).
  unfold capture_in_step. tw_simpl. eexists. by rewrite last_snoc.
Qed.

Lemma startFFmpeg_ready_in_step (now : Z) (v : WebcamViewer) :
  capture_in_step v → capture_in_step (startFFmpeg_ready now v).
Proof.
  intros Hin. unfold startFFmpeg_ready. cbv zeta.
  destruct (negb _); by apply (in_step_frame v).
Qed.

Lemma startFFmpeg_call_in_step (v : WebcamViewer) :
  capture_in_step v → capture_in_step (startFFmpeg_call v).1.
Proof.
  intros Hin. unfold startFFmpeg_call. destruct (isRestarting v); [done|]. cbv zeta.
  tw_simpl. destruct (spawned v) eqn:E; cbn [fst].
  - apply startFFmpeg_spawn_in_step.
  - apply (in_step_frame v); [done | | done..]. by tw_simpl.
Qed.

Lemma handleKey_frame (now : Z) (keyStr : string) (v : WebcamViewer) :
  spawned (handleKey now keyStr v).1 = spawned v
  ∧ captureWidth (handleKey now keyStr v).1 = captureWidth v
  ∧ captureHeight (handleKey now keyStr v).1 = captureHeight v
  ∧ zoomLevel (handleKey now keyStr v).1 = zoomLevel v.
Proof.
  apply TerminalWebcamFacts.handleKey_cases; cbn [fst]; try done.
  - intros d. unfold adjustZoom. cbv zeta. by destruct (negb _).
  - unfold resetZoom. by destruct (_ || _).
  - intros dx dy. unfold pan. by destruct (Qlt_le_dec _ _).
Qed.

Lemma step_in_step (p : Process) (e : Event) (p' : Process) (code : option Z) :
  capture_in_step (viewer p) → step p e = Some (p', code) → capture_in_step (viewer p').
Proof.
  intros Hin. destruct e as [now keyStr| |chunk|c| |now i]; cbn [step].
  - destruct (handleKey_frame now keyStr (viewer p)) as (? & ? & ? & ?).
    destruct (handleKey now keyStr (viewer p)) as [v' code']. intros [= <- _].
    by apply (in_step_frame (viewer p)).
  - assert (capture_in_step (onRestartTimer (viewer p)).1) as H.
    { unfold onRestartTimer. destruct (restartTimer (viewer p)) as [due|]; [|done].
      cbv zeta. destruct (_ && _); [|by apply (in_step_frame (viewer p))].
      apply startFFmpeg_call_in_step. by apply (in_step_frame (viewer p)). }
    destruct (onRestartTimer (viewer p)) as [v' ws]. by intros [= <- _].
  - unfold onData. destruct (negb _).
    + rewrite processVideoData_terminal_webcam.
      match goal with |- context [_ <$> ?x] => destruct x as [[a fs]|] end; [|done].
      simpl. intros [= <- _]. by apply (in_step_frame (viewer p)).
    + simpl. by intros [= <- _].
  - by intros [= <- _].
  - intros [= <- _]. by apply (in_step_frame (viewer p)).
  - destruct (waits p !! i) as [w|]; [|by intros [= <- _]].
    assert (capture_in_step (resume now w (viewer p)).1) as H.
    { destruct w; cbn [resume fst];
        [apply startFFmpeg_spawn_in_step | by apply startFFmpeg_ready_in_step]. }
    destruct (resume now w (viewer p)) as [v' ws]. by intros [= <- _].
Qed.

Lemma run_in_step (events : list Event) (p p' : Process) (code : option Z) :
  capture_in_step (viewer p) → run events p = Some (p', code) → capture_in_step (viewer p').
Proof.
  revert p. induction events as [|e es IH]; intros p Hin; simpl; [by intros [= <- _]|].
  destruct (step p e) as [[p1 c]|] eqn:Hstep; [|done]. cbn [mbind option_bind].
  pose proof (step_in_step p e p1 c Hin Hstep) as Hin1.
  destruct c; [by intros [= <- _]|]. by apply IH.
Qed.

Lemma init_in_step (terminalWidth terminalHeight : Z) :
  capture_in_step (viewer (init (new_WebcamViewer terminalWidth terminalHeight))).
Proof.
  unfold init, startFFmpeg_call, new_WebcamViewer. tw_simpl. cbv zeta. cbn [viewer].
  apply startFFmpeg_spawn_in_step.
Qed.

End CaptureInStep.

(** X8.  In every state that the viewer reaches, the capture process started
    last scales its output to the capture size of the viewer and was started
    for the active zoom level, and the buffer holds one frame of that
    process: a frame that arrives fits the buffer. *)
Theorem capture_and_assembler_agree
    (terminalWidth terminalHeight : Z) (events : list TerminalWebcamEvents.Event) :
  ∃ p code c,
    let v := TerminalWebcamEvents.viewer p in
    TerminalWebcamEvents.run events
      (TerminalWebcamEvents.init
         (TerminalWebcamEvents.new_WebcamViewer terminalWidth terminalHeight))
    = Some (p, code)
    ∧ last (TerminalWebcam.spawned v) = Some c
    ∧ TerminalWebcam.forZoom c = TerminalWebcam.zoomLevel v
    ∧ TerminalWebcam.scaleWidth c = TerminalWebcam.captureWidth v
    ∧ TerminalWebcam.scaleHeight c = TerminalWebcam.captureHeight v
    ∧ length (videoBuffer (TerminalWebcam.asm v))
      = Z.to_nat (TerminalWebcam.scaleWidth c * TerminalWebcam.scaleHeight c * 3)
    ∧ bufferPos (TerminalWebcam.asm v) < length (videoBuffer (TerminalWebcam.asm v)).
Proof.
  destruct (TerminalWebcamFacts.init_ok terminalWidth terminalHeight) as (Hok & _).
  destruct (TerminalWebcamFacts.run_ok events _ Hok)
    as (p & code & Hrun & (_ & _ & _ & _ & _ & _ & [Hlen Hpos]) & _).
  pose proof (CaptureInStep.init_in_step terminalWidth terminalHeight) as Hin0.
  destruct (CaptureInStep.run_in_step events _ p code Hin0 Hrun)
    as (c & Hlast & Hcw & Hch & Hz).
  exists p, code, c. cbv zeta. rewrite Hcw, Hch.
  split_and!; [exact Hrun | exact Hlast | exact Hz | reflexivity | reflexivity
              | exact Hlen | by rewrite Hlen].
Qed.

Module ZoomRequestFacts.
Import TerminalWebcam TerminalWebcamEvents.

Lemma kept_frame (p : Process) (v' : WebcamViewer) (ws : list Wait) :
  zoom_request_kept p →
  pendingZoomLevel v' = pendingZoomLevel (viewer p) → zoomLevel v' = zoomLevel (viewer p) →
  (restartTimer (viewer p) ≠ None → restartTimer v' ≠ None) →
  (isRestarting v' = true → isRestarting (viewer p) = true) →
  (waits p ≠ [] → ws ≠ []) →
  zoom_request_kept (mkProcess v' ws).
Proof.
  intros [HJ HK] Hp Hz Ht Hr Hw. unfold zoom_request_kept. cbn [viewer waits].
  rewrite Hp, Hz. split.
  - intros Hne. destruct (HJ Hne); [left | right]; auto.
  - intros Hr'. auto.
Qed.

Lemma spawn_zoom (v : WebcamViewer) :
  pendingZoomLevel (startFFmpeg_spawn v) == zoomLevel (startFFmpeg_spawn v).
Proof.
  unfold startFFmpeg_spawn. cbv zeta. rewrite updateCaptureResolution_eq. tw_simpl.
  destruct (Qeq_bool _ _) eqn:E; cbn [negb]; tw_simpl; [by apply Qeq_bool_iff | reflexivity].
Qed.

Lemma spawn_kept (v : WebcamViewer) (ws : list Wait) :
  zoom_request_kept (mkProcess (startFFmpeg_spawn v) (ws ++ [AfterSpawn])).
Proof.
  unfold zoom_request_kept. cbn [viewer waits]. split.
  - intros Hne. by destruct (Hne (spawn_zoom v)).
  - intros _ Hnil. by apply app_eq_nil in Hnil as [_ ?].
Qed.

Lemma ready_kept (now : Z) (v : WebcamViewer) (ws : list Wait) :
  zoom_request_kept (mkProcess (startFFmpeg_ready now v) ws).
Proof.
  unfold zoom_request_kept, startFFmpeg_ready. cbn [viewer waits]. cbv zeta. tw_simpl.
  destruct (Qeq_bool _ _) eqn:E; cbn [negb]; tw_simpl.
  - apply Qeq_bool_iff in E. split; [by intros Hne | done].
  - split; [by left | done].
Qed.

Lemma call_kept (p : Process) :
  (isRestarting (viewer p) = true → waits p ≠ []) →
  zoom_request_kept
    (mkProcess (startFFmpeg_call (viewer p)).1 (waits p ++ (startFFmpeg_call (viewer p)).2))
  ∨ (isRestarting (viewer p) = true ∧ startFFmpeg_call (viewer p) = (viewer p, [])).
Proof.
  intros HK. unfold startFFmpeg_call. destruct (isRestarting (viewer p)) eqn:Er; [by right|].
  left. cbv zeta. tw_simpl. destruct (spawned (viewer p)); cbn [fst snd].
  - apply spawn_kept.
  - unfold zoom_request_kept. cbn [viewer waits]. tw_simpl. split.
    + intros _. right. intros Hnil. by apply app_eq_nil in Hnil as [_ ?].
    + intros _ Hnil. by apply app_eq_nil in Hnil as [_ ?].
Qed.

Lemma onRestartTimer_kept (p : Process) :
  zoom_request_kept p →
  zoom_request_kept
    (mkProcess (onRestartTimer (viewer p)).1 (waits p ++ (onRestartTimer (viewer p)).2)).
Proof.
  intros Hk. pose proof Hk as [HJ HK]. unfold onRestartTimer.
  destruct (restartTimer (viewer p)) as [due|] eqn:Et; cbn [fst snd].
  2:{ rewrite app_nil_r. by destruct p. }
  cbv zeta. tw_simpl.
  destruct (Qeq_bool _ _) eqn:E; cbn [negb andb fst snd].
  - apply Qeq_bool_iff in E. rewrite app_nil_r.
    unfold zoom_request_kept. cbn [viewer waits]. tw_simpl. split; [by intros Hne | done].
  - destruct (isRestarting (viewer p)) eqn:Er; cbn [negb fst snd].
    + rewrite app_nil_r. unfold zoom_request_kept. cbn [viewer waits]. tw_simpl.
      split; [intros _; right; by apply HK | by intros _; apply HK].
    + destruct (call_kept (mkProcess (set_restartTimer None (viewer p)) (waits p)))
        as [H|[H _]]; cbn [viewer waits] in *; tw_simpl; [by rewrite Er | done |].
      by rewrite Er in H.
Qed.

Lemma handleKey_kept (now : Z) (keyStr : string) (p : Process) :
  zoom_request_kept p →
  (handleKey now keyStr (viewer p)).2 = None →
  zoom_request_kept (mkProcess (handleKey now keyStr (viewer p)).1 (waits p)).
Proof.
  intros Hk. pose proof Hk as [HJ HK].
  apply TerminalWebcamFacts.handleKey_cases; cbn [fst snd].
  - intros m _. by apply (kept_frame p).
  - intros d _. unfold adjustZoom. cbv zeta. tw_simpl.
    destruct (Qeq_bool _ _) eqn:E; cbn [negb]; tw_simpl.
    + apply Qeq_bool_iff in E. unfold zoom_request_kept. cbn [viewer waits]. tw_simpl.
      split; [|done]. intros Hne. apply HJ. intros Heq. apply Hne. by rewrite E.
    + unfold zoom_request_kept. cbn [viewer waits]. tw_simpl. split; [by left | done].
  - intros _. unfold resetZoom. destruct (_ || _) eqn:E.
    + unfold zoom_request_kept. cbn [viewer waits]. tw_simpl. split; [by left | done].
    + by destruct p.
  - intros dx dy _. unfold pan. destruct (Qlt_le_dec _ _); [|by destruct p].
    by apply (kept_frame p).
  - unfold cleanup. cbn [snd]. discriminate.
  - intros _. by destruct p.
Qed.

Lemma step_kept (p : Process) (e : Event) (p' : Process) :
  zoom_request_kept p → step p e = Some (p', None) → zoom_request_kept p'.
Proof.
  intros Hk. pose proof Hk as [HJ HK].
  destruct e as [now keyStr| |chunk|c| |now i]; cbn [step].
  - pose proof (handleKey_kept now keyStr p Hk) as H.
    destruct (handleKey now keyStr (viewer p)) as [v' code]. cbn [fst snd] in H.
    intros [= <- ->]. by apply H.
  - pose proof (onRestartTimer_kept p Hk) as H.
    destruct (onRestartTimer (viewer p)) as [v' ws]. by intros [= <-].
  - unfold onData. destruct (negb _).
    + rewrite processVideoData_terminal_webcam.
      match goal with |- context [_ <$> ?x] => destruct x as [[a fs]|] end; [|done].
      simpl. intros [= <-]. by apply (kept_frame p).
    + simpl. intros [= <-]. by destruct p.
  - by intros [= <-].
  - intros [= <-]. by apply (kept_frame p).
  - destruct (waits p !! i) as [w|] eqn:Ew; [|by intros [= <-]].
    destruct w; cbn [resume]; intros [= <-].
    + apply spawn_kept.
    + rewrite app_nil_r. apply ready_kept.
Qed.

Lemma run_kept (events : list Event) (p p' : Process) :
  zoom_request_kept p → run events p = Some (p', None) → zoom_request_kept p'.
Proof.
  revert p. induction events as [|e es IH]; intros p Hk; simpl; [by intros [= <-]|].
  destruct (step p e) as [[p1 c]|] eqn:Hstep; [|done]. cbn [mbind option_bind].
  destruct c; [done|]. apply IH. by apply (step_kept p e).
Qed.

Lemma init_kept (terminalWidth terminalHeight : Z) :
  zoom_request_kept (init (new_WebcamViewer terminalWidth terminalHeight)).
Proof.
  unfold init, startFFmpeg_call, new_WebcamViewer. tw_simpl. cbv zeta.
  apply (spawn_kept _ []).
Qed.

End ZoomRequestFacts.

(** X9.  In every state that the viewer reaches without leaving, a zoom level
    that was asked for and is not the active one is on its way: the restart
    timeout is set or a call of [startFFmpeg] waits; and when no timeout is
    set and no call waits, the active zoom level is the one asked for and
    no restart is marked as going on. *)
Theorem zoom_requests_are_not_lost
    (terminalWidth terminalHeight : Z) (events : list TerminalWebcamEvents.Event) :
  ∃ p code,
    TerminalWebcamEvents.run events
      (TerminalWebcamEvents.init
         (TerminalWebcamEvents.new_WebcamViewer terminalWidth terminalHeight))
    = Some (p, code)
    ∧ (code = None →
       let v := TerminalWebcamEvents.viewer p in
       zoom_request_kept p
       ∧ (TerminalWebcam.restartTimer v = None → TerminalWebcamEvents.waits p = [] →
          TerminalWebcam.pendingZoomLevel v == TerminalWebcam.zoomLevel v
          ∧ TerminalWebcam.isRestarting v = false)).
Proof.
  destruct (TerminalWebcamFacts.init_ok terminalWidth terminalHeight) as (Hok & _).
  destruct (TerminalWebcamFacts.run_ok events _ Hok) as (p & code & Hrun & _).
  exists p, code. split; [exact Hrun|]. intros -> v.
  pose proof (ZoomRequestFacts.run_kept events _ p
                (ZoomRequestFacts.init_kept terminalWidth terminalHeight) Hrun) as Hk.
  split; [exact Hk|]. destruct Hk as [HJ HK]. fold v in HJ, HK. intros Ht Hw. split.
  - destruct (Qeq_dec (TerminalWebcam.pendingZoomLevel v) (TerminalWebcam.zoomLevel v))
      as [Heq|Hne]; [done|].
    destruct (HJ Hne) as [H|H]; by destruct H.
  - destruct (TerminalWebcam.isRestarting v) eqn:Er; [|done]. by destruct (HK eq_refl).
Qed.

(** ** The states that webcam-dynamic-res reaches *)

Ltac dr_simpl :=
  cbn [DynamicRes.termWidth DynamicRes.termHeight DynamicRes.videoWidth
       DynamicRes.videoHeight DynamicRes.captureWidth DynamicRes.captureHeight
       DynamicRes.frameSize DynamicRes.asm DynamicRes.displayMode DynamicRes.isRestarting
       DynamicRes.zoomLevel DynamicRes.zoomX DynamicRes.zoomY DynamicRes.panSpeed
       DynamicRes.lastCaptureScale DynamicRes.set_asm DynamicRes.set_isRestarting
       DynamicRes.set_zoomXY DynamicRes.updateFrameSize DynamicRes.cleanup
       DynamicResEvents.set_capture DynamicResEvents.set_displayMode
       DynamicResEvents.set_zoomLevel DynamicResEvents.set_lastCaptureScale
       DynamicResEvents.setDisplayMode DynamicResEvents.viewer DynamicResEvents.started
       DynamicResEvents.waits DynamicResEvents.set_viewer fst snd] in *.

Module DynamicResFacts.
Import DynamicRes DynamicResEvents.

Lemma dr_ok_frame (v v' : WebcamViewer) :
  dynamic_res_ok v →
  termWidth v' = termWidth v → termHeight v' = termHeight v →
  videoWidth v' = videoWidth v → videoHeight v' = videoHeight v →
  frameSize v' = frameSize v → asm v' = asm v →
  zoomLevel v' = zoomLevel v → zoomX v' = zoomX v → zoomY v' = zoomY v →
  dynamic_res_ok v'.
Proof. unfold dynamic_res_ok. by intros H -> -> -> -> -> -> -> -> ->. Qed.

Lemma tracks_frame (v v' : WebcamViewer) :
  scale_tracks_zoom v →
  zoomLevel v' = zoomLevel v → lastCaptureScale v' = lastCaptureScale v →
  scale_tracks_zoom v'.
Proof. unfold scale_tracks_zoom. by intros H -> ->. Qed.

Lemma fits_frame (supported : list (Z * Z)) (v v' : WebcamViewer) (l : list Capture) :
  videoWidth v' = videoWidth v → videoHeight v' = videoHeight v →
  Forall (capture_fits supported v) l → Forall (capture_fits supported v') l.
Proof. unfold capture_fits. by intros -> ->. Qed.

(** What the invariant and the terminal size need of a change of the
    viewer that starts no capture process. *)
Lemma process_frame (supported : list (Z * Z)) (p : Process) (v' : WebcamViewer) :
  dynamic_res_process_ok supported p →
  dynamic_res_ok v' → scale_tracks_zoom v' →
  videoWidth v' = videoWidth (viewer p) → videoHeight v' = videoHeight (viewer p) →
  dynamic_res_process_ok supported (set_viewer v' p).
Proof.
  intros (Hok & Htr & Hfit & Hne) Hok' Htr' Hvw Hvh. unfold dynamic_res_process_ok.
  dr_simpl. split_and!; [done | done | by apply (fits_frame _ (viewer p)) | done].
Qed.

Lemma selectCaptureResolution_frame (supported : list (Z * Z)) (v : WebcamViewer) :
  ∃ w h, selectCaptureResolution supported v = set_capture w h v
         ∧ ((w, h) ∈ supported ∨ (w, h) = (640, 480)%Z).
Proof.
  unfold selectCaptureResolution.
  destruct (List.find _ supported) as [[w h]|] eqn:E.
  - exists w, h. split; [done|]. left. apply find_some in E as [Hin _].
    by apply list_elem_of_In.
  - exists 640%Z, 480%Z. by split; [|right].
Qed.

Lemma startFFmpeg_spawn_spec (supported : list (Z * Z)) (p : Process) :
  ∃ w h,
    startFFmpeg_spawn supported p
    = mkProcess (set_isRestarting false (set_capture w h (viewer p)))
        (started p ++ [mkCapture w h (videoWidth (viewer p)) (videoHeight (viewer p))])
        (waits p)
    ∧ ((w, h) ∈ supported ∨ (w, h) = (640, 480)%Z).
Proof.
  unfold startFFmpeg_spawn.
  destruct (selectCaptureResolution_frame supported (viewer p)) as (w & h & -> & Hin).
  by exists w, h.
Qed.

(** The spawn keeps the invariant, also before the first capture process. *)
Lemma dr_startFFmpeg_spawn_ok (supported : list (Z * Z)) (p : Process) :
  dynamic_res_ok (viewer p) → scale_tracks_zoom (viewer p) →
  Forall (capture_fits supported (viewer p)) (started p) →
  dynamic_res_process_ok supported (startFFmpeg_spawn supported p)
  ∧ termWidth (viewer (startFFmpeg_spawn supported p)) = termWidth (viewer p)
  ∧ termHeight (viewer (startFFmpeg_spawn supported p)) = termHeight (viewer p).
Proof.
  intros Hok Htr Hfit.
  destruct (startFFmpeg_spawn_spec supported p) as (w & h & -> & Hin).
  unfold dynamic_res_process_ok. dr_simpl.
  split_and!; [by apply (dr_ok_frame (viewer p)) | by apply (tracks_frame (viewer p))
              | | | done | done].
  - apply Forall_app. split; [by apply (fits_frame _ (viewer p))|].
    constructor; [|constructor]. by split_and!.
  - intros Hnil. by apply app_eq_nil in Hnil as [_ ?].
Qed.

Lemma dr_startFFmpeg_ok (supported : list (Z * Z)) (p : Process) :
  dynamic_res_process_ok supported p →
  dynamic_res_process_ok supported (startFFmpeg supported p)
  ∧ termWidth (viewer (startFFmpeg supported p)) = termWidth (viewer p)
  ∧ termHeight (viewer (startFFmpeg supported p)) = termHeight (viewer p).
Proof.
  intros (Hok & Htr & Hfit & Hne). unfold startFFmpeg.
  destruct (started p) eqn:E; [done|]. unfold dynamic_res_process_ok. dr_simpl.
  rewrite <- E in *. by split_and!.
Qed.

Lemma dr_resume_ok (supported : list (Z * Z)) (p : Process) :
  dynamic_res_process_ok supported p →
  dynamic_res_process_ok supported (resume supported p)
  ∧ termWidth (viewer (resume supported p)) = termWidth (viewer p)
  ∧ termHeight (viewer (resume supported p)) = termHeight (viewer p).
Proof.
  intros Hp. pose proof Hp as (Hok & Htr & Hfit & Hne). unfold resume.
  destruct (waits p) as [|n]; [done|].
  by apply (dr_startFFmpeg_spawn_ok supported (mkProcess (viewer p) (started p) n)).
Qed.

Lemma targetScale_tier (z : Q) :
  targetScale z = 4%Q ∨ targetScale z = 2.5%Q ∨ targetScale z = 1.5%Q ∨ targetScale z = 1.0%Q.
Proof. unfold targetScale. repeat destruct (Qle_bool _ _); auto. Qed.

(** [restartCameraIfNeeded] makes the tracked scale follow the zoom level,
    whatever it was. *)
Lemma restartCameraIfNeeded_ok (supported : list (Z * Z)) (p : Process) :
  dynamic_res_ok (viewer p) →
  Forall (capture_fits supported (viewer p)) (started p) → started p ≠ [] →
  dynamic_res_process_ok supported (restartCameraIfNeeded supported p)
  ∧ termWidth (viewer (restartCameraIfNeeded supported p)) = termWidth (viewer p)
  ∧ termHeight (viewer (restartCameraIfNeeded supported p)) = termHeight (viewer p).
Proof.
  intros Hok Hfit Hne. unfold restartCameraIfNeeded. cbv zeta.
  destruct (Qlt_le_dec _ _) as [Hlt|Hle]; [|by split].
  set (v' := set_isRestarting true _).
  assert (Hp' : dynamic_res_process_ok supported (set_viewer v' p)).
  { unfold dynamic_res_process_ok, v'. dr_simpl.
    split_and!; [by apply (dr_ok_frame (viewer p)) | | done | done].
    unfold scale_tracks_zoom. dr_simpl.
    setoid_replace (targetScale (zoomLevel (viewer p)) - targetScale (zoomLevel (viewer p)))%Q
      with 0%Q using relation Qeq by ring.
    discriminate. }
  destruct (dr_startFFmpeg_ok supported (set_viewer v' p) Hp') as (H1 & H2 & H3).
  split; [done|]. by rewrite H2, H3.
Qed.

Lemma dr_adjustZoom_ok (supported : list (Z * Z)) (delta : Q) (p : Process) :
  dynamic_res_process_ok supported p →
  dynamic_res_process_ok supported (adjustZoom supported delta p)
  ∧ termWidth (viewer (adjustZoom supported delta p)) = termWidth (viewer p)
  ∧ termHeight (viewer (adjustZoom supported delta p)) = termHeight (viewer p).
Proof.
  intros (Hok & Htr & Hfit & Hne). pose proof Hok as (Hz & Hx & Hy & Hvw & Hvh & Hfs & Ha).
  unfold adjustZoom. cbv zeta. dr_simpl.
  pose proof (TerminalWebcamFacts.zoom_clamp_range 1 10 (zoomLevel (viewer p) + delta)
                ltac:(discriminate)) as Hz'.
  destruct (negb _) eqn:E.
  - set (v' := set_zoomXY _ _ _).
    assert (Hok' : dynamic_res_ok v').
    { unfold dynamic_res_ok, v'. dr_simpl.
      split_and!; try assumption; try tauto; apply clamp01_range. }
    destruct (restartCameraIfNeeded_ok supported (set_viewer v' p)) as (H1 & H2 & H3);
      [done | by apply (fits_frame _ (viewer p)) | done |].
    split; [done|]. by rewrite H2, H3.
  - apply negb_false_iff, Qeq_bool_iff in E. split; [|done].
    apply process_frame; [by split_and! | | | done | done].
    + unfold dynamic_res_ok. dr_simpl. split_and!; try assumption; tauto.
    + unfold scale_tracks_zoom in *. dr_simpl.
      assert (targetScale (Qmax 1 (Qmin 10 (zoomLevel (viewer p) + delta)))
              = targetScale (zoomLevel (viewer p))) as ->; [|done].
      unfold targetScale. by rewrite !(Qleb_comp _ _ (Qeq_refl _) _ _ E).
Qed.

Lemma dr_resetZoom_ok (supported : list (Z * Z)) (p : Process) :
  dynamic_res_process_ok supported p →
  dynamic_res_process_ok supported (resetZoom supported p)
  ∧ termWidth (viewer (resetZoom supported p)) = termWidth (viewer p)
  ∧ termHeight (viewer (resetZoom supported p)) = termHeight (viewer p).
Proof.
  intros ((Hz & Hx & Hy & Hvw & Hvh & Hfs & Ha) & Htr & Hfit & Hne).
  unfold resetZoom. cbv zeta.
  set (v' := set_zoomXY _ _ _).
  assert (Hok' : dynamic_res_ok v').
  { unfold dynamic_res_ok, v'. dr_simpl.
    split_and!; try assumption; try tauto; discriminate. }
  destruct (restartCameraIfNeeded_ok supported (set_viewer v' p)) as (H1 & H2 & H3);
    [done | by apply (fits_frame _ (viewer p)) | done |].
  split; [done|]. by rewrite H2, H3.
Qed.

Lemma dr_pan_ok (supported : list (Z * Z)) (dx dy : Q) (p : Process) :
  dynamic_res_process_ok supported p →
  dynamic_res_process_ok supported (set_viewer (pan dx dy (viewer p)) p)
  ∧ termWidth (pan dx dy (viewer p)) = termWidth (viewer p)
  ∧ termHeight (pan dx dy (viewer p)) = termHeight (viewer p).
Proof.
  intros Hp. pose proof Hp as (Hok & Htr & Hfit & Hne).
  pose proof Hok as (Hz & Hx & Hy & Hvw & Hvh & Hfs & Ha). unfold pan.
  destruct (Qlt_le_dec _ _); [|split; [by apply process_frame | done]].
  split; [|done]. apply process_frame; [done | | by apply (tracks_frame (viewer p)) | done | done].
  unfold dynamic_res_ok. dr_simpl.
  split_and!; try assumption; try tauto; apply clamp01_range.
Qed.

Lemma restart_key_ok (supported : list (Z * Z)) (p : Process) :
  dynamic_res_process_ok supported p →
  let p' := startFFmpeg supported (set_viewer (set_isRestarting true (viewer p)) p) in
  dynamic_res_process_ok supported p'
  ∧ termWidth (viewer p') = termWidth (viewer p)
  ∧ termHeight (viewer p') = termHeight (viewer p).
Proof.
  intros Hp. pose proof Hp as (Hok & Htr & Hfit & Hne). cbv zeta.
  apply (dr_startFFmpeg_ok supported (set_viewer (set_isRestarting true (viewer p)) p)).
  apply process_frame; [done | by apply (dr_ok_frame (viewer p))
                       | by apply (tracks_frame (viewer p)) | done | done].
Qed.

Lemma dr_handleKey_cases (supported : list (Z * Z)) (keyStr : string) (p : Process)
    (P : Process * option Z → Prop) :
  (∀ m, P (set_viewer (setDisplayMode m (viewer p)) p, None)) →
  (∀ d, P (adjustZoom supported d p, None)) →
  P (resetZoom supported p, None) →
  P (startFFmpeg supported (set_viewer (set_isRestarting true (viewer p)) p), None) →
  (∀ dx dy, P (set_viewer (pan dx dy (viewer p)) p, None)) →
  P (set_viewer (cleanup (viewer p)).1 p, (cleanup (viewer p)).2) → P (p, None) →
  P (handleKey supported keyStr p).
Proof.
  intros Hmode Hzoom Hreset Hrestart Hpan Hquit Hnone. unfold handleKey. cbv zeta.
  repeat (match goal with
          | |- P (if ?b then _ else _) => destruct b; [solve [auto]|]
          end).
  exact Hnone.
Qed.

Lemma dr_handleKey_ok (supported : list (Z * Z)) (keyStr : string) (p : Process) :
  dynamic_res_process_ok supported p →
  dynamic_res_process_ok supported (handleKey supported keyStr p).1
  ∧ termWidth (viewer (handleKey supported keyStr p).1) = termWidth (viewer p)
  ∧ termHeight (viewer (handleKey supported keyStr p).1) = termHeight (viewer p).
Proof.
  intros Hp. pose proof Hp as (Hok & Htr & Hfit & Hne).
  apply dr_handleKey_cases; cbn [fst].
  - intros m. split; [|done]. by apply process_frame.
  - intros d. by apply dr_adjustZoom_ok.
  - by apply dr_resetZoom_ok.
  - by apply restart_key_ok.
  - intros dx dy. by apply dr_pan_ok.
  - split; [|done].
    apply process_frame; [done | by apply (dr_ok_frame (viewer p))
                         | by apply (tracks_frame (viewer p)) | done | done].
  - done.
Qed.

Lemma frameSize_pos (v : WebcamViewer) :
  dynamic_res_ok v → (0 < termWidth v)%Z → (0 < termHeight v)%Z →
  0 < Z.to_nat (frameSize v).
Proof. intros (_ & _ & _ & Hvw & Hvh & Hfs & _) Hw Hh. rewrite Hfs, Hvw, Hvh. nia. Qed.

Lemma dr_step_ok (supported : list (Z * Z)) (p : Process) (e : Input) :
  dynamic_res_process_ok supported p →
  (0 < termWidth (viewer p))%Z → (0 < termHeight (viewer p))%Z →
  ∃ p' code,
    step supported p e = Some (p', code)
    ∧ dynamic_res_process_ok supported p'
    ∧ termWidth (viewer p') = termWidth (viewer p)
    ∧ termHeight (viewer p') = termHeight (viewer p).
Proof.
  intros Hp Hw Hh. pose proof Hp as (Hok & Htr & Hfit & Hne).
  destruct e as [keyStr|chunk|code|]; cbn [step].
  - pose proof (dr_handleKey_ok supported keyStr p Hp) as H.
    destruct (handleKey supported keyStr p) as [p' code]. by exists p', code.
  - pose proof Hok as (_ & _ & _ & _ & _ & _ & Ha).
    unfold DynamicRes.processVideoData.
    destruct (processVideoData_spec _ (frameSize_pos _ Hok Hw Hh) chunk _ Ha)
      as (a & fs & -> & Ha' & _).
    cbn [mbind option_bind]. eexists _, _. split; [done|]. split; [|done].
    apply process_frame; [done | | by apply (tracks_frame (viewer p)) | done | done].
    destruct Hok as (? & ? & ? & ? & ? & ? & ?). unfold dynamic_res_ok. by dr_simpl.
  - eexists _, _. split; [done|]. unfold onFfmpegExit.
    destruct (negb _); dr_simpl; (split; [|done]);
      (apply process_frame; [done | by apply (dr_ok_frame (viewer p))
                            | by apply (tracks_frame (viewer p)) | done | done]).
  - eexists _, _. split; [done|]. by apply dr_resume_ok.
Qed.

Lemma dr_run_ok (supported : list (Z * Z)) (events : list Input) (p : Process) :
  dynamic_res_process_ok supported p →
  (0 < termWidth (viewer p))%Z → (0 < termHeight (viewer p))%Z →
  ∃ p' code,
    run supported events p = Some (p', code)
    ∧ dynamic_res_process_ok supported p'
    ∧ termWidth (viewer p') = termWidth (viewer p)
    ∧ termHeight (viewer p') = termHeight (viewer p).
Proof.
  revert p. induction events as [|e es IH]; intros p Hp Hw Hh; [by exists p, None|].
  destruct (dr_step_ok supported p e Hp Hw Hh) as (p1 & code & Hstep & Hp1 & Htw & Hth).
  simpl. rewrite Hstep. cbn [mbind option_bind]. destruct code as [c|].
  - by exists p1, (Some c).
  - destruct (IH p1 Hp1) as (p' & code & -> & ? & ? & ?); [lia | lia |].
    exists p', code. split_and!; [done | done | congruence | congruence].
Qed.

Lemma dr_init_ok (supported : list (Z * Z)) (terminalWidth terminalHeight : Z) :
  (0 < terminalWidth)%Z → (0 < terminalHeight)%Z →
  let p := init supported (new_WebcamViewer terminalWidth terminalHeight) in
  dynamic_res_process_ok supported p
  ∧ termWidth (viewer p) = terminalWidth ∧ termHeight (viewer p) = terminalHeight
  ∧ waits p = 0 ∧ length (started p) = 1.
Proof.
  intros Hw Hh. cbv zeta. unfold init, startFFmpeg. cbn [started].
  set (p0 := mkProcess _ [] 0).
  destruct (dr_startFFmpeg_spawn_ok supported p0) as (H1 & H2 & H3).
  - unfold p0, new_WebcamViewer, dynamic_res_ok, assembling. dr_simpl.
    unfold Uint8Array_new. cbn [videoBuffer bufferPos]. rewrite length_replicate.
    split_and!; try reflexivity; try discriminate. nia.
  - by vm_compute.
  - constructor.
  - split_and!; [done | done | done | |].
    + by destruct (startFFmpeg_spawn_spec supported p0) as (w & h & -> & _).
    + by destruct (startFFmpeg_spawn_spec supported p0) as (w & h & -> & _).
Qed.

End DynamicResFacts.

(** X10.  From the start of webcam-dynamic-res on a terminal of positive size,
    every sequence of keys, chunks, exits of a capture process and ends of
    the wait of [startFFmpeg] is handled up to the exit of the process, and
    the viewer is then well formed: zoom level in [1,10], zoom centre in
    [0,1], a video buffer of twice the terminal size with the write position
    inside it, a tracked capture scale within half a unit of the tier of the
    zoom level; every capture process started scales to the video buffer and
    captures at a supported size or at 640 by 480. *)
Theorem dynamic_res_reachable_states
    (supported : list (Z * Z)) (terminalWidth terminalHeight : Z)
    (events : list DynamicResEvents.Input) :
  (0 < terminalWidth)%Z → (0 < terminalHeight)%Z →
  ∃ p code,
    DynamicResEvents.run supported events
      (DynamicResEvents.init supported
         (DynamicResEvents.new_WebcamViewer terminalWidth terminalHeight))
    = Some (p, code)
    ∧ dynamic_res_ok (DynamicResEvents.viewer p)
    ∧ scale_tracks_zoom (DynamicResEvents.viewer p)
    ∧ Forall (capture_fits supported (DynamicResEvents.viewer p)) (DynamicResEvents.started p)
    ∧ DynamicResEvents.started p ≠ []
    ∧ DynamicRes.termWidth (DynamicResEvents.viewer p) = terminalWidth
    ∧ DynamicRes.termHeight (DynamicResEvents.viewer p) = terminalHeight.
Proof.
  intros Hw Hh.
  destruct (DynamicResFacts.dr_init_ok supported terminalWidth terminalHeight Hw Hh)
    as (Hp0 & Htw0 & Hth0 & _).
  destruct (DynamicResFacts.dr_run_ok supported events _ Hp0)
    as (p & code & Hrun & (Hok & Htr & Hfit & Hne) & Htw & Hth); [lia | lia |].
  exists p, code. split_and!; [done | done | done | done | done | congruence | congruence].
Qed.

Lemma dynamic_res_reachable_states_witness :
  ∃ p code,
    DynamicResEvents.run DynamicResEvents.commonResolutions
      [DynamicResEvents.Key "+"; DynamicResEvents.Key "+"; DynamicResEvents.Key "+";
       DynamicResEvents.Key "-"; DynamicResEvents.Resume; DynamicResEvents.Resume]
      (DynamicResEvents.init DynamicResEvents.commonResolutions
         (DynamicResEvents.new_WebcamViewer 2 1))
    = Some (p, code)
    ∧ dynamic_res_ok (DynamicResEvents.viewer p)
    ∧ scale_tracks_zoom (DynamicResEvents.viewer p).
Proof.
  destruct (dynamic_res_reachable_states DynamicResEvents.commonResolutions 2 1
              [DynamicResEvents.Key "+"; DynamicResEvents.Key "+"; DynamicResEvents.Key "+";
               DynamicResEvents.Key "-"; DynamicResEvents.Resume; DynamicResEvents.Resume])
    as (p & code & Hrun & Hok & Htr & _).
  - lia.
  - lia.
  - exists p, code. split_and!; [exact Hrun | exact Hok | exact Htr].
Defined.

(** X11.  On the list that [getCameraResolutions] returns, the first entry
    matches every target, so [selectCaptureResolution] selects 1920 by 1080
    at every zoom level; on the list of its [catch] branch it selects 1280
    by 720 below zoom 4 and, as no entry matches the target 1920 by 1080,
    the fallback 640 by 480 from zoom 4 on. *)
Theorem capture_size_on_the_known_lists (v : DynamicRes.WebcamViewer) :
  (let u := DynamicResEvents.selectCaptureResolution
              (DynamicResEvents.getCameraResolutions false) v in
   DynamicRes.captureWidth u = 1920%Z ∧ DynamicRes.captureHeight u = 1080%Z)
  ∧ ((DynamicRes.zoomLevel v < 4)%Q →
     let u := DynamicResEvents.selectCaptureResolution
                (DynamicResEvents.getCameraResolutions true) v in
     DynamicRes.captureWidth u = 1280%Z ∧ DynamicRes.captureHeight u = 720%Z)
  ∧ ((4 <= DynamicRes.zoomLevel v)%Q →
     let u := DynamicResEvents.selectCaptureResolution
                (DynamicResEvents.getCameraResolutions true) v in
     DynamicRes.captureWidth u = 640%Z ∧ DynamicRes.captureHeight u = 480%Z).
Proof.
  unfold DynamicResEvents.selectCaptureResolution, DynamicResEvents.targetResolution.
  split; [|split].
  - by repeat destruct (Qle_bool _ _).
  - intros Hlt. destruct (Qle_bool 4 _) eqn:E4.
    + apply Qle_bool_iff in E4. by destruct (Qlt_not_le _ _ Hlt).
    + by repeat destruct (Qle_bool _ _).
  - intros Hle. by rewrite (proj2 (Qle_bool_iff _ _) Hle).
Qed.

Lemma capture_size_on_the_known_lists_witness :
  DynamicRes.captureWidth
    (DynamicResEvents.selectCaptureResolution
       (DynamicResEvents.getCameraResolutions true) small_dynamic_res) = 1280%Z
  ∧ DynamicRes.captureWidth
      (DynamicResEvents.selectCaptureResolution
         (DynamicResEvents.getCameraResolutions true)
         (DynamicResEvents.set_zoomLevel 4 small_dynamic_res)) = 640%Z.
Proof.
  split.
  - apply (proj1 (proj2 (capture_size_on_the_known_lists small_dynamic_res))). reflexivity.
  - apply (proj2 (proj2 (capture_size_on_the_known_lists
                          (DynamicResEvents.set_zoomLevel 4 small_dynamic_res)))).
    discriminate.
Defined.

Lemma Qabs_diff_le (a b d : Q) : (Qabs (a - b) <= d)%Q ↔ (b - d <= a <= b + d)%Q.
Proof.
  rewrite Qabs_Qle_condition. split; intros [H1 H2]; split; lra.
Qed.

(** X12.  [restartCameraIfNeeded] leaves the tracked capture scale within half a
    unit of the tier of the zoom level.  It does nothing when that held
    already, as it does from the scale 1 below zoom 2.5; otherwise it
    records the tier, marks the restart and calls [startFFmpeg], which
    waits, and the end of the wait starts one capture process that scales
    to the video buffer and clears the mark. *)
Theorem restart_follows_the_tiers (supported : list (Z * Z)) (p : DynamicResEvents.Process) :
  let v := DynamicResEvents.viewer p in
  let after := DynamicResEvents.restartCameraIfNeeded supported p in
  scale_tracks_zoom (DynamicResEvents.viewer after)
  ∧ (scale_tracks_zoom v → after = p)
  ∧ (¬ scale_tracks_zoom v → DynamicResEvents.started p ≠ [] →
     DynamicRes.lastCaptureScale (DynamicResEvents.viewer after)
     = DynamicResEvents.targetScale (DynamicRes.zoomLevel v)
     ∧ DynamicRes.isRestarting (DynamicResEvents.viewer after) = true
     ∧ DynamicResEvents.started after = DynamicResEvents.started p
     ∧ DynamicResEvents.waits after = S (DynamicResEvents.waits p)
     ∧ ∃ capture,
         let ready := DynamicResEvents.resume supported after in
         DynamicResEvents.started ready = DynamicResEvents.started p ++ [capture]
         ∧ DynamicResEvents.waits ready = DynamicResEvents.waits p
         ∧ DynamicRes.isRestarting (DynamicResEvents.viewer ready) = false
         ∧ DynamicResEvents.scaleWidth capture = DynamicRes.videoWidth v
         ∧ DynamicResEvents.scaleHeight capture = DynamicRes.videoHeight v)
  ∧ ((DynamicRes.lastCaptureScale v == 1)%Q → (DynamicRes.zoomLevel v < 2.5)%Q →
     after = p).
Proof.
  intros v after. subst v after. unfold DynamicResEvents.restartCameraIfNeeded. cbv zeta.
  set (v := DynamicResEvents.viewer p).
  assert (Hnear : (DynamicRes.lastCaptureScale v == 1)%Q → (DynamicRes.zoomLevel v < 2.5)%Q →
                  scale_tracks_zoom v).
  { intros Hlast Hz. unfold scale_tracks_zoom. apply Qabs_diff_le. rewrite Hlast.
    unfold DynamicResEvents.targetScale.
    destruct (Qle_bool 4 _) eqn:E4; [apply Qle_bool_iff in E4; lra|].
    destruct (Qle_bool 2.5 _) eqn:E2; [apply Qle_bool_iff in E2; lra|].
    destruct (Qle_bool 1.5 _); split; discriminate. }
  destruct (Qlt_le_dec _ _) as [Hlt|Hle].
  - assert (Htr : scale_tracks_zoom
                    (DynamicResEvents.viewer
                       (DynamicResEvents.startFFmpeg supported
                          (DynamicResEvents.set_viewer
                             (DynamicRes.set_isRestarting true
                                (DynamicResEvents.set_lastCaptureScale
                                   (DynamicResEvents.targetScale (DynamicRes.zoomLevel v)) v))
                             p)))).
    { assert (Hz : scale_tracks_zoom
                     (DynamicRes.set_isRestarting true
                        (DynamicResEvents.set_lastCaptureScale
                           (DynamicResEvents.targetScale (DynamicRes.zoomLevel v)) v))).
      { unfold scale_tracks_zoom. dr_simpl.
        setoid_replace (DynamicResEvents.targetScale (DynamicRes.zoomLevel v)
                        - DynamicResEvents.targetScale (DynamicRes.zoomLevel v))%Q
          with 0%Q using relation Qeq by ring.
        discriminate. }
      unfold DynamicResEvents.startFFmpeg. dr_simpl.
      destruct (DynamicResEvents.started p); [|done].
      match goal with |- context [DynamicResEvents.startFFmpeg_spawn ?s ?q] =>
        destruct (DynamicResFacts.startFFmpeg_spawn_spec s q) as (w & h & -> & _) end.
      dr_simpl. eapply DynamicResFacts.tracks_frame; [exact Hz | done | done]. }
    split_and!.
    + exact Htr.
    + intros Htr0. by destruct (Qlt_not_le _ _ Hlt).
    + intros _ Hne. unfold DynamicResEvents.startFFmpeg. dr_simpl.
      destruct (DynamicResEvents.started p) as [|c0 cs] eqn:E; [done|]. dr_simpl.
      split_and!; [done | done | done | done |].
      unfold DynamicResEvents.resume. dr_simpl.
      match goal with |- context [DynamicResEvents.startFFmpeg_spawn ?s ?q] =>
        destruct (DynamicResFacts.startFFmpeg_spawn_spec s q) as (w & h & -> & _) end.
      dr_simpl. eexists. by split_and!.
    + intros Hlast Hz. by destruct (Qlt_not_le _ _ Hlt (Hnear Hlast Hz)).
  - split_and!; [exact Hle | done | | done].
    intros Hn. by destruct Hn.
Qed.

Lemma restart_follows_the_tiers_witness :
  let p := DynamicResEvents.mkProcess small_dynamic_res [] 0 in
  DynamicResEvents.restartCameraIfNeeded DynamicResEvents.commonResolutions p = p.
Proof.
  intros p.
  apply (proj2 (proj2 (proj2
           (restart_follows_the_tiers DynamicResEvents.commonResolutions p))));
    reflexivity.
Defined.

(** ** Zoom and pan *)

#[local] Instance clamp01_proper : Proper (Qeq ==> Qeq) clamp01.
Proof. intros p q H. unfold clamp01. by rewrite H. Qed.

(** ** The viewport *)

Lemma view_size_range (w z : Q) : (0 < w)%Q → (1 <= z)%Q → (0 < w / z <= w)%Q.
Proof.
  intros Hw Hz. assert (0 < z)%Q as Hz0 by lra. split.
  - apply Qlt_shift_div_l; [done|]. lra.
  - apply Qle_shift_div_r; [done|]. nra.
Qed.

Lemma cell_fraction_range (x n : Z) : (0 ≤ x < n)%Z → (0 <= inject_Z x / inject_Z n < 1)%Q.
Proof.
  intros Hx. assert (0 < inject_Z n)%Q as Hn by (rewrite <- (Zlt_Qlt 0); lia).
  split.
  - apply Qle_shift_div_l; [done|]. rewrite Qmult_0_l. rewrite <- (Zle_Qle 0). lia.
  - apply Qlt_shift_div_r; [done|]. rewrite Qmult_1_l. rewrite <- Zlt_Qlt. lia.
Qed.

(** The source coordinate of a cell inside the terminal, before any
    clamping, is inside the frame. *)
Lemma viewport_floor (W : Z) (z p f : Q) :
  (0 < W)%Z → (1 <= z)%Q → (0 <= p <= 1)%Q → (0 <= f < 1)%Q →
  (0 ≤ Math_floor ((inject_Z W - inject_Z W / z) * p + f * (inject_Z W / z)) ≤ W - 1)%Z.
Proof.
  intros HW Hz [Hp0 Hp1] [Hf0 Hf1].
  assert (0 < inject_Z W)%Q as Hw by (rewrite <- (Zlt_Qlt 0); lia).
  destruct (view_size_range _ _ Hw Hz) as [Hv0 Hv1].
  set (w := inject_Z W) in *. set (vw := (w / z)%Q) in *.
  assert (0 <= (w - vw) * p + f * vw)%Q as Hlo by nra.
  assert ((w - vw) * p + f * vw < w)%Q as Hhi by nra.
  unfold Math_floor. split.
  - rewrite <- (Qfloor_Z 0). by apply Qfloor_resp_le.
  - enough (Qfloor ((w - vw) * p + f * vw) < W)%Z by lia.
    rewrite Zlt_Qlt. eapply Qle_lt_trans; [apply Qfloor_le | exact Hhi].
Qed.

Lemma viewport_mono (W : Z) (z p f f' : Q) :
  (0 < W)%Z → (1 <= z)%Q → (f <= f')%Q →
  (Math_floor ((inject_Z W - inject_Z W / z) * p + f * (inject_Z W / z))
   ≤ Math_floor ((inject_Z W - inject_Z W / z) * p + f' * (inject_Z W / z)))%Z.
Proof.
  intros HW Hz Hf.
  assert (0 < inject_Z W)%Q as Hw by (rewrite <- (Zlt_Qlt 0); lia).
  destruct (view_size_range _ _ Hw Hz) as [Hv0 Hv1].
  apply Qfloor_resp_le. set (vw := (inject_Z W / z)%Q) in *. nra.
Qed.

Lemma cell_fraction_mono (x x' n : Z) :
  (0 < n)%Z → (x ≤ x')%Z → (inject_Z x / inject_Z n <= inject_Z x' / inject_Z n)%Q.
Proof.
  intros Hn Hx. assert (0 < inject_Z n)%Q as HnQ by (rewrite <- (Zlt_Qlt 0); lia).
  apply Qmult_le_compat_r; [by rewrite <- Zle_Qle|].
  apply Qlt_le_weak, Qinv_lt_0_compat, HnQ.
Qed.

(** X13.  In both viewers, for a frame of positive size, a zoom level of at least
    1 and a pan position in [0,1], the source coordinates of every cell that
    is drawn are inside the frame before they are clamped, so the clamp
    leaves them as they are; and the coordinates do not decrease from a
    cell to one on its right or below it. *)
Theorem viewport_inside_frame :
  (∀ (v : TerminalWebcam.WebcamViewer) (termX termY : Z),
     (0 < TerminalWebcam.captureWidth v)%Z → (0 < TerminalWebcam.captureHeight v)%Z →
     (1 <= TerminalWebcam.zoomLevel v)%Q →
     (0 <= TerminalWebcam.panX v <= 1)%Q → (0 <= TerminalWebcam.panY v <= 1)%Q →
     (0 ≤ termX < TerminalWebcam.termWidth v)%Z →
     (1 ≤ termY ≤ TerminalWebcam.termHeight v - 2)%Z →
     let videoX := (TerminalWebcam.videoXY v termX termY).1 in
     let videoY := (TerminalWebcam.videoXY v termX termY).2 in
     (0 ≤ videoX ≤ TerminalWebcam.captureWidth v - 1)%Z
     ∧ (0 ≤ videoY ≤ TerminalWebcam.captureHeight v - 1)%Z
     ∧ clampCoord videoX (TerminalWebcam.captureWidth v) = videoX
     ∧ clampCoord videoY (TerminalWebcam.captureHeight v) = videoY
     ∧ (∀ termX' termY' : Z,
          (termX ≤ termX')%Z → (termY ≤ termY')%Z →
          (videoX ≤ (TerminalWebcam.videoXY v termX' termY').1)%Z
          ∧ (videoY ≤ (TerminalWebcam.videoXY v termX' termY').2)%Z))
  ∧ (∀ (v : DynamicRes.WebcamViewer) (termX termY : Z),
       (0 < DynamicRes.videoWidth v)%Z → (0 < DynamicRes.videoHeight v)%Z →
       (1 <= DynamicRes.zoomLevel v)%Q →
       (0 <= DynamicRes.zoomX v <= 1)%Q → (0 <= DynamicRes.zoomY v <= 1)%Q →
       (0 ≤ termX < DynamicRes.termWidth v)%Z →
       (0 ≤ termY < DynamicRes.termHeight v)%Z →
       let videoX := (DynamicRes.videoXY v termX termY).1 in
       let videoY := (DynamicRes.videoXY v termX termY).2 in
       (0 ≤ videoX ≤ DynamicRes.videoWidth v - 1)%Z
       ∧ (0 ≤ videoY ≤ DynamicRes.videoHeight v - 1)%Z
       ∧ clampCoord videoX (DynamicRes.videoWidth v) = videoX
       ∧ clampCoord videoY (DynamicRes.videoHeight v) = videoY
       ∧ (∀ termX' termY' : Z,
            (termX ≤ termX')%Z → (termY ≤ termY')%Z →
            (videoX ≤ (DynamicRes.videoXY v termX' termY').1)%Z
            ∧ (videoY ≤ (DynamicRes.videoXY v termX' termY').2)%Z)).
Proof.
  split.
  - intros v termX termY HW HH Hz Hpx Hpy Hx Hy videoX videoY.
    assert (Hfx : (0 <= inject_Z termX / inject_Z (TerminalWebcam.termWidth v) < 1)%Q)
      by by apply cell_fraction_range.
    assert (Hfy : (0 <= inject_Z (termY - 1) / inject_Z (TerminalWebcam.termHeight v - 2) < 1)%Q)
      by (apply cell_fraction_range; lia).
    pose proof (viewport_floor _ _ _ _ HW Hz Hpx Hfx) as HX.
    pose proof (viewport_floor _ _ _ _ HH Hz Hpy Hfy) as HY.
    subst videoX videoY. unfold TerminalWebcam.videoXY. cbv zeta. cbn [fst snd].
    split_and!; try apply HX; try apply HY; try (unfold clampCoord; lia).
    intros termX' termY' Hx' Hy'. split; (apply viewport_mono; [done | done |]);
      apply cell_fraction_mono; lia.
  - intros v termX termY HW HH Hz Hpx Hpy Hx Hy videoX videoY.
    assert (Hfx : (0 <= inject_Z termX / inject_Z (DynamicRes.termWidth v) < 1)%Q)
      by by apply cell_fraction_range.
    assert (Hfy : (0 <= inject_Z termY / inject_Z (DynamicRes.termHeight v) < 1)%Q)
      by by apply cell_fraction_range.
    pose proof (viewport_floor _ _ _ _ HW Hz Hpx Hfx) as HX.
    pose proof (viewport_floor _ _ _ _ HH Hz Hpy Hfy) as HY.
    subst videoX videoY. unfold DynamicRes.videoXY. cbv zeta. cbn [fst snd].
    split_and!; try apply HX; try apply HY; try (unfold clampCoord; lia).
    intros termX' termY' Hx' Hy'. split; (apply viewport_mono; [done | done |]);
      apply cell_fraction_mono; lia.
Qed.

Lemma viewport_inside_frame_witness :
  clampCoord (TerminalWebcam.videoXY small_terminal_webcam 79 22).1 4
  = (TerminalWebcam.videoXY small_terminal_webcam 79 22).1
  ∧ clampCoord (DynamicRes.videoXY small_dynamic_res 79 23).1 4
    = (DynamicRes.videoXY small_dynamic_res 79 23).1.
Proof.
  split.
  - refine (proj1 (proj2 (proj2
      (proj1 viewport_inside_frame small_terminal_webcam 79%Z 22%Z _ _ _ _ _ _ _))));
      first [reflexivity | by vm_compute | split; by vm_compute].
  - refine (proj1 (proj2 (proj2
      (proj2 viewport_inside_frame small_dynamic_res 79%Z 23%Z _ _ _ _ _ _ _))));
      first [reflexivity | by vm_compute | split; by vm_compute].
Defined.



(** X15.  In both viewers [adjustZoom] keeps a view that is centred: when both
    pan coordinates are 0.5 before the call they are 0.5 after it, for every
    delta. *)
Theorem zoom_keeps_a_centred_view (now : Z) (supported : list (Z * Z)) (delta : Q) :
  (∀ v : TerminalWebcam.WebcamViewer,
     TerminalWebcam.panX v == 0.5 → TerminalWebcam.panY v == 0.5 →
     TerminalWebcam.panX (TerminalWebcam.adjustZoom now delta v) == 0.5
     ∧ TerminalWebcam.panY (TerminalWebcam.adjustZoom now delta v) == 0.5)
  ∧ (∀ p : DynamicResEvents.Process,
       let v := DynamicResEvents.viewer p in
       let v' := DynamicResEvents.viewer (DynamicResEvents.adjustZoom supported delta p) in
       DynamicRes.zoomX v == 0.5 → DynamicRes.zoomY v == 0.5 →
       DynamicRes.zoomX v' == 0.5 ∧ DynamicRes.zoomY v' == 0.5).
Proof.
  assert (Hc : ∀ p ratio : Q, p == 0.5 → clamp01 (0.5 + (p - 0.5) * ratio) == 0.5).
  { intros p ratio Hp. rewrite Hp.
    setoid_replace (0.5 + (0.5 - 0.5) * ratio)%Q with 0.5%Q using relation Qeq by ring.
    reflexivity. }
  split.
  - intros v Hx Hy. unfold TerminalWebcam.adjustZoom. cbv zeta. tw_simpl.
    destruct (negb _); tw_simpl; [|done]. split; by apply Hc.
  - intros p v v' Hx Hy. subst v v'. unfold DynamicResEvents.adjustZoom. cbv zeta. dr_simpl.
    destruct (negb _); dr_simpl; [|done].
    unfold DynamicResEvents.restartCameraIfNeeded. cbv zeta. dr_simpl.
    destruct (Qlt_le_dec _ _); [|dr_simpl; split; by apply Hc].
    unfold DynamicResEvents.startFFmpeg. dr_simpl.
    destruct (DynamicResEvents.started p); [|dr_simpl; split; by apply Hc].
    match goal with |- context [DynamicResEvents.startFFmpeg_spawn ?s ?q] =>
      destruct (DynamicResFacts.startFFmpeg_spawn_spec s q) as (w & h & -> & _) end.
    dr_simpl. split; by apply Hc.
Qed.

Lemma zoom_keeps_a_centred_view_witness :
  TerminalWebcam.panX (TerminalWebcam.adjustZoom 0 0.5 viewer_80x24) == 0.5.
Proof.
  apply (proj1 (zoom_keeps_a_centred_view 0 [] 0.5) viewer_80x24); reflexivity.
Defined.

(** X16.  [resetZoom] does nothing when both zoom levels are 1.  Otherwise it asks
    for zoom 1, centres the view and sets the restart timeout, without
    changing the active zoom level or starting a capture process; when the
    timeout runs with nothing in between, a capture process for zoom 1 is
    started if the active zoom level was not 1, and none if it was. *)
Theorem reset_returns_to_the_full_view (now : Z) (v : TerminalWebcam.WebcamViewer) :
  TerminalWebcam.isRestarting v = false →
  let v1 := TerminalWebcamEvents.resetZoom now v in
  let v2 := TerminalWebcam.quiesce v1 in
  (TerminalWebcam.pendingZoomLevel v == 1 → TerminalWebcam.zoomLevel v == 1 → v1 = v)
  ∧ (¬ (TerminalWebcam.pendingZoomLevel v == 1 ∧ TerminalWebcam.zoomLevel v == 1) →
     TerminalWebcam.restartTimer v1 = Some (now + 500)%Z
     ∧ TerminalWebcam.pendingZoomLevel v1 = 1%Q
     ∧ TerminalWebcam.panX v1 = 0.5%Q ∧ TerminalWebcam.panY v1 = 0.5%Q
     ∧ TerminalWebcam.spawned v1 = TerminalWebcam.spawned v
     ∧ TerminalWebcam.zoomLevel v1 = TerminalWebcam.zoomLevel v)
  ∧ (¬ TerminalWebcam.zoomLevel v == 1 →
     ∃ w h,
       TerminalWebcam.spawned v2 = TerminalWebcam.spawned v ++ [TerminalWebcam.mkCapture w h 1]
       ∧ TerminalWebcam.zoomLevel v2 = 1%Q
       ∧ TerminalWebcam.restartTimer v2 = None)
  ∧ (TerminalWebcam.zoomLevel v == 1 → ¬ TerminalWebcam.pendingZoomLevel v == 1 →
     TerminalWebcam.spawned v2 = TerminalWebcam.spawned v
     ∧ TerminalWebcam.pendingZoomLevel v2 = 1%Q
     ∧ TerminalWebcam.restartTimer v2 = None).
Proof.
  intros Hr v1 v2. subst v1 v2. unfold TerminalWebcamEvents.resetZoom.
  destruct (Qeq_bool (TerminalWebcam.pendingZoomLevel v) 1) eqn:Ep;
    destruct (Qeq_bool (TerminalWebcam.zoomLevel v) 1) eqn:Ez; cbn [negb orb]; cbv zeta.
  - apply Qeq_bool_iff in Ep, Ez. split_and!; [done | | |].
    + intros Hn. by destruct Hn.
    + intros Hn. by destruct Hn.
    + intros _ Hn. by destruct Hn.
  - apply Qeq_bool_iff in Ep. assert (¬ TerminalWebcam.zoomLevel v == 1) as Hz.
    { intros H. apply Qeq_bool_iff in H. congruence. }
    split_and!; [by intros _ H | by intros _ | | by intros H].
    intros _. unfold TerminalWebcam.quiesce. tw_simpl.
    destruct (DebounceFacts.restartTimerFired_restarts (now + 500)
                (TerminalWebcam.set_restartTimer (Some (now + 500)%Z)
                   (TerminalWebcam.set_pan 0.5 0.5 (TerminalWebcam.set_pendingZoomLevel 1 v))))
      as (w & h & H1 & H2 & _ & H4 & _); [done | |].
    { tw_simpl. intros H. apply Hz. by symmetry. }
    exists w, h. by split_and!.
  - apply Qeq_bool_iff in Ez. assert (¬ TerminalWebcam.pendingZoomLevel v == 1) as Hp.
    { intros H. apply Qeq_bool_iff in H. congruence. }
    split_and!; [by intros H | by intros _ | by intros H |].
    intros _ _. unfold TerminalWebcam.quiesce. tw_simpl.
    rewrite DebounceFacts.restartTimerFired_idle; [by tw_simpl|]. tw_simpl. by symmetry.
  - assert (¬ TerminalWebcam.zoomLevel v == 1) as Hz.
    { intros H. apply Qeq_bool_iff in H. congruence. }
    split_and!; [by intros _ H | by intros _ | | by intros H].
    intros _. unfold TerminalWebcam.quiesce. tw_simpl.
    destruct (DebounceFacts.restartTimerFired_restarts (now + 500)
                (TerminalWebcam.set_restartTimer (Some (now + 500)%Z)
                   (TerminalWebcam.set_pan 0.5 0.5 (TerminalWebcam.set_pendingZoomLevel 1 v))))
      as (w & h & H1 & H2 & _ & H4 & _); [done | |].
    { tw_simpl. intros H. apply Hz. by symmetry. }
    exists w, h. by split_and!.
Qed.

Lemma reset_returns_to_the_full_view_witness :
  ∃ w h,
    TerminalWebcam.spawned
      (TerminalWebcam.quiesce (TerminalWebcamEvents.resetZoom 0 small_terminal_webcam))
    = TerminalWebcam.spawned small_terminal_webcam ++ [TerminalWebcam.mkCapture w h 1].
Proof.
  destruct (reset_returns_to_the_full_view 0 small_terminal_webcam eq_refl)
    as (_ & _ & Hrestart & _).
  destruct Hrestart as (w & h & Hs & _); [by vm_compute|]. by exists w, h.
Defined.

(** ** The order and the content of a render pass *)

Section Filter.
Context {A : Type} (P : A → Prop) `{!∀ x, Decision (P x)}.

Lemma filter_none (l : list A) : Forall (λ x, ¬ P x) l → filter P l = [].
Proof. induction 1 as [|x l Hx _ IH]; [done|]. by rewrite filter_cons_False. Qed.

Lemma filter_all (l : list A) : (∀ x, P x) → filter P l = l.
Proof. intros Hall. induction l as [|x l IH]; [done|]. by rewrite filter_cons_True, IH. Qed.

End Filter.

Module RenderPassFacts.
Import OpentuiCore OpentuiCoreApi DiffRender.

Lemma stale_insert_other (last : gmap string string) (k h : string) (l : list TextRenderable) :
  k ∉ id <$> l → stale (<[k := h]> last) l = stale last l.
Proof.
  unfold stale. induction l as [|t l IH]; intros Hk; [done|].
  rewrite fmap_cons, not_elem_of_cons in Hk. destruct Hk as [Hk Hl].
  assert (Hsame : <[k := h]> last !! id t = last !! id t) by by apply lookup_insert_ne.
  destruct (decide (last !! id t ≠ Some (stateHash t))) as [Hst|Hst].
  - rewrite (filter_cons_True (λ t0, <[k:=h]> last !! id t0 ≠ Some (stateHash t0)));
      [|cbv beta; by rewrite Hsame].
    rewrite (filter_cons_True (λ t0, last !! id t0 ≠ Some (stateHash t0))) by done.
    by rewrite IH.
  - rewrite (filter_cons_False (λ t0, <[k:=h]> last !! id t0 ≠ Some (stateHash t0)));
      [|cbv beta; rewrite Hsame; exact Hst].
    rewrite (filter_cons_False (λ t0, last !! id t0 ≠ Some (stateHash t0))) by exact Hst.
    by rewrite IH.
Qed.

Lemma fold_renderOne_stale (l : list TextRenderable) (last : gmap string string)
    (w : list (list string)) :
  NoDup (id <$> l) →
  (foldl renderOne (last, w) l).2 = w ++ (cellWrites <$> stale last l).
Proof.
  revert last w. induction l as [|t l IH]; intros last w Hnd.
  - by rewrite app_nil_r.
  - rewrite fmap_cons in Hnd. apply NoDup_cons in Hnd as [Ht Hnd].
    cbn [foldl]. unfold stale. rewrite filter_cons. unfold renderOne at 2. cbn [fst snd].
    case_bool_decide as Hst.
    + rewrite decide_True by done. rewrite IH by done.
      rewrite stale_insert_other by done. rewrite fmap_cons. by rewrite <- (assoc_L (++)).
    + rewrite decide_False by (intros Hn; by apply Hn). by rewrite IH.
Qed.

Lemma insertByZIndex_sorted (t : TextRenderable) (l : list TextRenderable) :
  StronglySorted by_zIndex l → StronglySorted by_zIndex (insertByZIndex t l).
Proof.
  induction 1 as [|u us Hs IH Hall]; cbn [insertByZIndex].
  - by repeat constructor.
  - destruct (zIndex t <? zIndex u)%Z eqn:E.
    + apply Z.ltb_lt in E. constructor; [by constructor|].
      constructor; [unfold by_zIndex; lia|].
      eapply Forall_impl; [exact Hall|]. unfold by_zIndex. intros x Hx. simpl in *. lia.
    + apply Z.ltb_ge in E. constructor; [done|].
      rewrite (DiffRenderFacts.insertByZIndex_perm t us). by constructor.
Qed.


Lemma sortByZIndex_sorted (l : list TextRenderable) : StronglySorted by_zIndex (sortByZIndex l).
Proof.
  unfold sortByZIndex.
  enough (∀ acc, StronglySorted by_zIndex acc →
                 StronglySorted by_zIndex (foldl (λ acc t, insertByZIndex t acc) acc l)) as H.
  { apply H. constructor. }
  induction l as [|t l IH]; intros acc Hacc; simpl; [done|].
  by apply IH, insertByZIndex_sorted.
Qed.

(** An insertion goes behind the renderables of the same z-index. *)
Lemma insertByZIndex_level (z : Z) (t : TextRenderable) (l : list TextRenderable) :
  StronglySorted by_zIndex l →
  filter (λ u, zIndex u = z) (insertByZIndex t l)
  = filter (λ u, zIndex u = z) l ++ filter (λ u, zIndex u = z) [t].
Proof.
  induction 1 as [|u us Hs IH Hall]; cbn [insertByZIndex]; [done|].
  destruct (zIndex t <? zIndex u)%Z eqn:E.
  - apply Z.ltb_lt in E. rewrite (filter_cons _ t (u :: us)).
    rewrite (filter_cons _ t []). rewrite filter_nil.
    destruct (decide (zIndex t = z)) as [Hz|Hz]; [|by rewrite app_nil_r].
    assert (filter (λ u0, zIndex u0 = z) (u :: us) = []) as ->; [|done].
    apply filter_none. constructor; [lia|].
    eapply Forall_impl; [exact Hall|]. unfold by_zIndex. intros x Hx. simpl in *. lia.
  - rewrite !(filter_cons _ u), IH. by destruct (decide (zIndex u = z)).
Qed.

Lemma sortByZIndex_level (z : Z) (l : list TextRenderable) :
  filter (λ u, zIndex u = z) (sortByZIndex l) = filter (λ u, zIndex u = z) l.
Proof.
  unfold sortByZIndex.
  enough (∀ acc, StronglySorted by_zIndex acc →
                 filter (λ u, zIndex u = z) (foldl (λ acc t, insertByZIndex t acc) acc l)
                 = filter (λ u, zIndex u = z) acc ++ filter (λ u, zIndex u = z) l) as H.
  { rewrite H by constructor. done. }
  induction l as [|t l IH]; intros acc Hacc; simpl; [by rewrite app_nil_r|].
  rewrite IH by by apply insertByZIndex_sorted.
  rewrite insertByZIndex_level by done.
  rewrite <- (assoc_L (++)). f_equal. by rewrite <- filter_app.
Qed.

Lemma renderLoop_writes (s : SimpleCliRenderer) :
  running s = true → NoDup (id <$> renderables s) →
  (renderLoop s).2
  = cellWrites <$> stale (lastRenderState s) (sortByZIndex (renderables s)).
Proof.
  intros Hrun Hnd. unfold renderLoop. rewrite Hrun. cbn [negb].
  pose proof (fold_renderOne_stale (sortByZIndex (renderables s)) (lastRenderState s) []) as H.
  destruct (foldl renderOne _ _) as [last w]. cbn [snd] in *. rewrite H; [done|].
  by rewrite DiffRenderFacts.sortByZIndex_perm.
Qed.

End RenderPassFacts.

(** X17.  A pass of the render loop of a running renderer whose renderables have
    distinct ids writes, in the order of the z-index, one group of writes
    for each renderable whose state is not the one written last, and
    nothing for the others; the first pass writes every renderable; after
    the pass every renderable is recorded with its state. *)
Theorem render_pass_writes_the_changed (s : OpentuiCore.SimpleCliRenderer) :
  OpentuiCore.running s = true →
  NoDup (OpentuiCore.id <$> OpentuiCore.renderables s) →
  let sorted := OpentuiCore.sortByZIndex (OpentuiCore.renderables s) in
  (OpentuiCore.renderLoop s).2
  = OpentuiCore.cellWrites <$> stale (OpentuiCore.lastRenderState s) sorted
  ∧ (OpentuiCore.lastRenderState s = ∅ →
     (OpentuiCore.renderLoop s).2 = OpentuiCore.cellWrites <$> sorted)
  ∧ (∀ t, t ∈ OpentuiCore.renderables s →
          OpentuiCore.lastRenderState (OpentuiCore.renderLoop s).1 !! OpentuiCore.id t
          = Some (OpentuiCore.stateHash t)).
Proof.
  intros Hrun Hnd sorted.
  pose proof (RenderPassFacts.renderLoop_writes s Hrun Hnd) as Hw. fold sorted in Hw.
  split_and!; [exact Hw | | by apply DiffRenderFacts.renderLoop_fresh].
  intros Hempty. rewrite Hw, Hempty. f_equal. unfold stale.
  apply filter_all. intros t. by rewrite lookup_empty.
Qed.

Lemma render_pass_writes_the_changed_witness :
  (OpentuiCore.renderLoop small_renderer).2
  = OpentuiCore.cellWrites <$> [cell_0_1; status_bar].
Proof.
  refine (proj1 (proj2 (render_pass_writes_the_changed small_renderer eq_refl _)) eq_refl).
  apply (bool_decide_unpack _). by vm_compute.
Defined.

(** X18.  The order of a render pass is a stable sort by z-index: the z-index
    does not decrease along it, it holds the same renderables, and those of
    one z-index keep the order of their insertion. *)
Theorem render_order_is_a_stable_sort (l : list OpentuiCore.TextRenderable) :
  StronglySorted by_zIndex (OpentuiCore.sortByZIndex l)
  ∧ OpentuiCore.sortByZIndex l ≡ₚ l
  ∧ ∀ z : Z,
      filter (λ t, OpentuiCore.zIndex t = z) (OpentuiCore.sortByZIndex l)
      = filter (λ t, OpentuiCore.zIndex t = z) l.
Proof.
  split_and!.
  - apply RenderPassFacts.sortByZIndex_sorted.
  - apply DiffRenderFacts.sortByZIndex_perm.
  - intros z. apply RenderPassFacts.sortByZIndex_level.
Qed.

(** ** Colours: from the sample to the escape sequence *)

Module ColourFacts.
Import OpentuiCore.

Lemma hexDigit_value (k : Z) :
  (0 ≤ k < 16)%Z → ∃ c, hexDigit k = String c "" ∧ hexValue c = Some k.
Proof.
  intros Hk.
  assert (k = 0 ∨ k = 1 ∨ k = 2 ∨ k = 3 ∨ k = 4 ∨ k = 5 ∨ k = 6 ∨ k = 7 ∨ k = 8
          ∨ k = 9 ∨ k = 10 ∨ k = 11 ∨ k = 12 ∨ k = 13 ∨ k = 14 ∨ k = 15)%Z as Hcases by lia.
  repeat (destruct Hcases as [->|Hcases]; [eexists; split; reflexivity|]).
  subst k. eexists; split; reflexivity.
Qed.

Lemma channelByte_range (n : Q) : (0 ≤ channelByte n ≤ 255)%Z.
Proof.
  unfold channelByte, Math_round.
  assert (0 <= Qmax 0 (Qmin 255 n) <= 255)%Q as [Hlo Hhi].
  { split; [apply Q.le_max_l|]. apply Q.max_lub; [discriminate | apply Q.le_min_l]. }
  set (x := Qmax 0 (Qmin 255 n)) in *. split.
  - rewrite <- (Qfloor_Z 0). apply Qfloor_resp_le. change (inject_Z 0) with 0%Q. lra.
  - enough (Qfloor (x + 0.5) < 256)%Z by lia.
    rewrite Zlt_Qlt. eapply Qle_lt_trans; [apply Qfloor_le|].
    change (inject_Z 256) with 256%Q. lra.
Qed.

Lemma toHex_parse (n : Q) :
  ∃ c d, toHex n = String c (String d "") ∧ parseHex2 c d = Some (channelByte n).
Proof.
  pose proof (channelByte_range n) as Hm. unfold toHex. fold (channelByte n).
  set (m := channelByte n) in *.
  destruct (hexDigit_value (m / 16)) as (c & Hc & Hcv).
  { split; [apply Z.div_pos; lia | apply Z.div_lt_upper_bound; lia]. }
  destruct (hexDigit_value (m mod 16)) as (d & Hd & Hdv).
  { apply Z.mod_pos_bound. lia. }
  exists c, d. rewrite Hc, Hd. split; [done|].
  unfold parseHex2. rewrite Hcv, Hdv. cbn [mbind option_bind]. f_equal.
  rewrite (Z.div_mod m 16) at 3 by lia. lia.
Qed.

Lemma hexValue_range (c : Ascii.ascii) (k : Z) : hexValue c = Some k → (0 ≤ k < 16)%Z.
Proof.
  unfold hexValue. set (n := Z.of_nat _).
  destruct ((48 <=? n)%Z && (n <=? 57)%Z) eqn:E1.
  { intros [= Hk]. lia. }
  destruct ((97 <=? n)%Z && (n <=? 102)%Z) eqn:E2.
  { intros [= Hk]. lia. }
  destruct ((65 <=? n)%Z && (n <=? 70)%Z) eqn:E3; [|done].
  intros [= Hk]. lia.
Qed.

Lemma parseHex2_range (c d : Ascii.ascii) (k : Z) : parseHex2 c d = Some k → (0 ≤ k ≤ 255)%Z.
Proof.
  unfold parseHex2. destruct (hexValue c) as [hi|] eqn:Hc; [|done].
  destruct (hexValue d) as [lo|] eqn:Hd; [|done]. cbn [mbind option_bind].
  intros [= <-]. apply hexValue_range in Hc, Hd. lia.
Qed.

End ColourFacts.

(** X19.  The colour string that [renderFrame] writes for a sample is read back by
    [hexToRgb] of the renderer as the three channels rounded and clamped to
    [0,255], and the escape sequence of the render loop carries these three
    numbers. *)
Theorem cell_colour_round_trip (p : RGB) :
  OpentuiCore.hexToRgb (hexColor p)
  = Some (channelByte (r p), channelByte (g p), channelByte (b p))
  ∧ (0 ≤ channelByte (r p) ≤ 255)%Z
  ∧ (0 ≤ channelByte (g p) ≤ 255)%Z
  ∧ (0 ≤ channelByte (b p) ≤ 255)%Z
  ∧ OpentuiCore.colorEscape "38" (Some (hexColor p))
    = OpentuiCore.ESC +:+ "[38;2;" +:+ pretty (channelByte (r p)) +:+ ";"
        +:+ pretty (channelByte (g p)) +:+ ";" +:+ pretty (channelByte (b p)) +:+ "m".
Proof.
  destruct (ColourFacts.toHex_parse (r p)) as (r1 & r2 & Hr & Hrv).
  destruct (ColourFacts.toHex_parse (g p)) as (g1 & g2 & Hg & Hgv).
  destruct (ColourFacts.toHex_parse (b p)) as (b1 & b2 & Hb & Hbv).
  assert (Hparse : OpentuiCore.hexToRgb (hexColor p)
                   = Some (channelByte (r p), channelByte (g p), channelByte (b p))).
  { unfold hexColor. rewrite Hr, Hg, Hb.
    change (OpentuiCore.hexToRgb _)
      with (rv ← OpentuiCore.parseHex2 r1 r2; gv ← OpentuiCore.parseHex2 g1 g2;
            bv ← OpentuiCore.parseHex2 b1 b2; Some (rv, gv, bv)).
    by rewrite Hrv, Hgv, Hbv. }
  split_and!; [exact Hparse | apply ColourFacts.channelByte_range ..|].
  unfold OpentuiCore.colorEscape.
  change (OpentuiCore.text (Some (hexColor p))) with (hexColor p). rewrite Hparse.
  assert (OpentuiCore.truthy (Some (hexColor p)) = true) as ->; [|done].
  unfold hexColor. by rewrite Hr.
Qed.

(** X20.  When [hexToRgb] returns a colour, its three channels are in [0,255] and
    the string had six characters, or seven of which the first is the hash
    sign. *)
Theorem hexToRgb_accepts_six_digits (hex : string) (rv gv bv : Z) :
  OpentuiCore.hexToRgb hex = Some (rv, gv, bv) →
  (0 ≤ rv ≤ 255)%Z ∧ (0 ≤ gv ≤ 255)%Z ∧ (0 ≤ bv ≤ 255)%Z
  ∧ (String.length hex = 6 ∨ (String.length hex = 7 ∧ ∃ rest, hex = String "#" rest)).
Proof.
  unfold OpentuiCore.hexToRgb.
  set (digits := match hex with String "#"%char rest => rest | _ => hex end).
  assert (Hlen : String.length digits = 6 →
                 String.length hex = 6 ∨ (String.length hex = 7 ∧ ∃ rest, hex = String "#" rest)).
  { subst digits. destruct hex as [|c rest]; [by left|].
    destruct (Ascii.ascii_dec c "#") as [->|Hc].
    - intros Hl. right. split; [simpl; lia | by eexists].
    - assert (match String c rest with String "#"%char rest0 => rest0 | _ => String c rest end
              = String c rest) as ->; [|by left].
      destruct c as [[] [] [] [] [] [] [] []]; try done. }
  assert (Hl : String.length digits = length (String.list_ascii_of_string digits)).
  { clear. induction digits; simpl; [done | by f_equal]. }
  destruct (String.list_ascii_of_string digits) as [|r1 [|r2 [|g1 [|g2 [|b1 [|b2 [|]]]]]]]; try done.
  destruct (OpentuiCore.parseHex2 r1 r2) as [x|] eqn:Hr; [|done].
  destruct (OpentuiCore.parseHex2 g1 g2) as [y|] eqn:Hg; [|done].
  destruct (OpentuiCore.parseHex2 b1 b2) as [z|] eqn:Hb; [|done].
  cbn [mbind option_bind]. intros [= <- <- <-].
  apply ColourFacts.parseHex2_range in Hr, Hg, Hb. split_and!; try lia. by apply Hlen.
Qed.

Lemma hexToRgb_accepts_six_digits_witness :
  String.length "#FfA500" = 6 ∨ (String.length "#FfA500" = 7 ∧ ∃ rest, "#FfA500" = String "#" rest).
Proof.
  apply (hexToRgb_accepts_six_digits "#FfA500" 255 165 0). reflexivity.
Defined.

(** ** The map of renderables *)

Module RenderablesFacts.
Import OpentuiCore OpentuiCoreApi.

Lemma find_mapSet_eq (t : TextRenderable) (l : list TextRenderable) :
  List.find (λ u, String.eqb (id u) (id t)) (mapSet t l) = Some t.
Proof.
  induction l as [|u l IH]; cbn [mapSet].
  - simpl. by rewrite String.eqb_refl.
  - destruct (String.eqb (id u) (id t)) eqn:E; simpl.
    + by rewrite String.eqb_refl.
    + by rewrite E.
Qed.

Lemma find_mapSet_ne (k : string) (t : TextRenderable) (l : list TextRenderable) :
  k ≠ id t →
  List.find (λ u, String.eqb (id u) k) (mapSet t l)
  = List.find (λ u, String.eqb (id u) k) l.
Proof.
  intros Hk. apply String.eqb_neq in Hk. rewrite String.eqb_sym in Hk.
  induction l as [|u l IH]; cbn [mapSet].
  - simpl. by rewrite Hk.
  - destruct (String.eqb (id u) (id t)) eqn:E; simpl.
    + rewrite Hk. apply String.eqb_eq in E. by rewrite E, Hk.
    + by rewrite IH.
Qed.

Lemma mapSet_length (t : TextRenderable) (l : list TextRenderable) :
  length (mapSet t l) = if bool_decide (id t ∈ id <$> l) then length l else S (length l).
Proof.
  induction l as [|u l IH]; cbn [mapSet]; [done|].
  destruct (String.eqb (id u) (id t)) eqn:E.
  - apply String.eqb_eq in E. rewrite bool_decide_eq_true_2; [done|].
    rewrite fmap_cons, E. left.
  - apply String.eqb_neq in E. cbn [length]. rewrite IH, fmap_cons.
    case_bool_decide as Hin.
    + rewrite bool_decide_eq_true_2; [done|]. by right.
    + rewrite bool_decide_eq_false_2; [done|].
      intros [Heq|Hin']%elem_of_cons; [by apply E | by apply Hin].
Qed.

End RenderablesFacts.

(** X21.  After [add], [getRenderable] returns the renderable that was added under
    its id and what it returned before under every other id; ids stay
    distinct; the number of renderables grows by one for a new id and stays
    for an id that was present; the record of the last render is
    unchanged. *)
Theorem add_then_get (t : OpentuiCore.TextRenderable) (s : OpentuiCore.SimpleCliRenderer) :
  OpentuiCoreApi.getRenderable (OpentuiCore.id t) (OpentuiCore.add t s) = Some t
  ∧ (∀ k, k ≠ OpentuiCore.id t →
          OpentuiCoreApi.getRenderable k (OpentuiCore.add t s)
          = OpentuiCoreApi.getRenderable k s)
  ∧ (NoDup (OpentuiCore.id <$> OpentuiCore.renderables s) →
     NoDup (OpentuiCore.id <$> OpentuiCore.renderables (OpentuiCore.add t s)))
  ∧ length (OpentuiCore.renderables (OpentuiCore.add t s))
    = (if bool_decide (OpentuiCore.id t ∈ OpentuiCore.id <$> OpentuiCore.renderables s)
       then length (OpentuiCore.renderables s)
       else S (length (OpentuiCore.renderables s)))
  ∧ OpentuiCore.lastRenderState (OpentuiCore.add t s) = OpentuiCore.lastRenderState s.
Proof.
  unfold OpentuiCoreApi.getRenderable, OpentuiCore.add. cbn [OpentuiCore.renderables
    OpentuiCore.set_renderables OpentuiCore.lastRenderState].
  split_and!.
  - apply RenderablesFacts.find_mapSet_eq.
  - intros k Hk. by apply RenderablesFacts.find_mapSet_ne.
  - apply DiffRenderFacts.mapSet_NoDup.
  - apply RenderablesFacts.mapSet_length.
  - done.
Qed.

Lemma add_then_get_witness :
  OpentuiCoreApi.getRenderable "status" (OpentuiCore.add cell_0_1 small_renderer)
  = OpentuiCoreApi.getRenderable "status" small_renderer.
Proof. apply (proj1 (proj2 (add_then_get cell_0_1 small_renderer))). discriminate. Defined.

(** ** The state hash *)

Module SeparatorFacts.

Lemma sep_split (c : ascii) (s1 s2 r1 r2 : string) :
  lacks c s1 → lacks c s2 →
  s1 +:+ String c r1 = s2 +:+ String c r2 → s1 = s2 ∧ r1 = r2.
Proof.
  revert s2. induction s1 as [|a s1 IH]; intros [|d s2] H1 H2 Heq.
  - change (String c r1 = String c r2) in Heq. by injection Heq as ->.
  - change (String c r1 = String d (s2 +:+ String c r2)) in Heq.
    injection Heq as <- _. by destruct H2 as [[] _].
  - change (String a (s1 +:+ String c r1) = String c r2) in Heq.
    injection Heq as -> _. by destruct H1 as [[] _].
  - change (String a (s1 +:+ String c r1) = String d (s2 +:+ String c r2)) in Heq.
    injection Heq as -> Heq. destruct H1 as [_ H1], H2 as [_ H2].
    destruct (IH s2 H1 H2 Heq) as [-> ->]. done.
Qed.

Lemma lacks_app (c : ascii) (s1 s2 : string) :
  lacks c s1 → lacks c s2 → lacks c (s1 +:+ s2).
Proof.
  intros H1 H2. induction s1 as [|a s1 IH]; [done|].
  change (lacks c (String a (s1 +:+ s2))). destruct H1. split; [done | by apply IH].
Qed.

Lemma has_sep (c : ascii) (s1 s2 : string) : ¬ lacks c (s1 +:+ String c s2).
Proof.
  induction s1 as [|a s1 IH].
  - change (¬ lacks c (String c s2)). by intros [[] _].
  - change (¬ lacks c (String a (s1 +:+ String c s2))). intros [_ H]. by apply IH.
Qed.

Lemma pretty_N_go_lacks (c : ascii) (x : N) (s : string) :
  (∀ n, pretty_N_char n ≠ c) → lacks c s → lacks c (pretty_N_go x s).
Proof.
  intros Hc. revert s. induction (N.lt_wf_0 x) as [x _ IH]; intros s Hs.
  destruct (decide (x = 0)%N) as [->|Hx]; [by rewrite pretty_N_go_0|].
  rewrite pretty_N_go_step by lia. apply IH.
  - apply N.div_lt; lia.
  - split; [apply Hc | done].
Qed.

Lemma pretty_N_lacks (c : ascii) (n : N) :
  (∀ n, pretty_N_char n ≠ c) → lacks c (pretty n).
Proof.
  intros Hc. unfold pretty, pretty_N. destruct (decide (n = 0)%N).
  - split; [apply (Hc 0%N) | done].
  - by apply pretty_N_go_lacks.
Qed.

Lemma digit_not_bar (n : N) : pretty_N_char n ≠ "|"%char.
Proof.
  unfold pretty_N_char. destruct n as [|p]; [done|].
  do 4 (try destruct p as [p|p|]); done.
Qed.

Lemma digit_not_dash (n : N) : pretty_N_char n ≠ "-"%char.
Proof.
  unfold pretty_N_char. destruct n as [|p]; [done|].
  do 4 (try destruct p as [p|p|]); done.
Qed.

Lemma pretty_Z_no_bar (z : Z) : no_bar (pretty z).
Proof.
  unfold no_bar. destruct z as [|p|p].
  - by simpl.
  - apply (pretty_N_lacks _ (N.pos p)), digit_not_bar.
  - change (lacks "|" ("-" +:+ pretty (N.pos p))).
    apply lacks_app; [by simpl | apply pretty_N_lacks, digit_not_bar].
Qed.

Lemma pretty_Z_no_dash (z : Z) : (0 ≤ z)%Z → lacks "-" (pretty z).
Proof.
  intros Hz. destruct z as [|p|p]; [by simpl | | lia].
  apply (pretty_N_lacks _ (N.pos p)), digit_not_dash.
Qed.

End SeparatorFacts.

(** X22.  For renderables whose content and colours do not contain the separator
    of the state hash, equal hashes mean equal content, colours as they
    print, and position: a change of one of them is rendered. *)
Theorem state_hash_tells_states_apart (t t' : OpentuiCore.TextRenderable) :
  no_bar (OpentuiCore.content t) → no_bar (OpentuiCore.content t') →
  no_bar (OpentuiCore.text (OpentuiCore.fg t)) → no_bar (OpentuiCore.text (OpentuiCore.fg t')) →
  no_bar (OpentuiCore.text (OpentuiCore.bg t)) → no_bar (OpentuiCore.text (OpentuiCore.bg t')) →
  OpentuiCore.stateHash t = OpentuiCore.stateHash t' →
  OpentuiCore.content t = OpentuiCore.content t'
  ∧ OpentuiCore.text (OpentuiCore.fg t) = OpentuiCore.text (OpentuiCore.fg t')
  ∧ OpentuiCore.text (OpentuiCore.bg t) = OpentuiCore.text (OpentuiCore.bg t')
  ∧ OpentuiCore.x t = OpentuiCore.x t'
  ∧ OpentuiCore.y t = OpentuiCore.y t'.
Proof.
  intros Hc Hc' Hf Hf' Hb Hb' Heq. unfold OpentuiCore.stateHash in Heq.
  apply SeparatorFacts.sep_split in Heq as [Hcontent Heq]; [|done..].
  apply SeparatorFacts.sep_split in Heq as [Hfg Heq]; [|done..].
  apply SeparatorFacts.sep_split in Heq as [Hbg Heq]; [|done..].
  apply SeparatorFacts.sep_split in Heq as [Hx Hy]; [|apply SeparatorFacts.pretty_Z_no_bar..].
  split_and!; [done | done | done | by apply (inj pretty) | by apply (inj pretty)].
Qed.

Lemma state_hash_tells_states_apart_witness :
  let t' := OpentuiCore.mkText "other" "x" 0 1 (Some "#ff0000") (Some "#000000") 5 in
  OpentuiCore.content cell_0_1 = OpentuiCore.content t'
  ∧ OpentuiCore.text (OpentuiCore.fg cell_0_1) = OpentuiCore.text (OpentuiCore.fg t')
  ∧ OpentuiCore.text (OpentuiCore.bg cell_0_1) = OpentuiCore.text (OpentuiCore.bg t')
  ∧ OpentuiCore.x cell_0_1 = OpentuiCore.x t'
  ∧ OpentuiCore.y cell_0_1 = OpentuiCore.y t'.
Proof.
  intros t'.
  refine (state_hash_tells_states_apart cell_0_1 t' _ _ _ _ _ _ _); by vm_compute.
Defined.

(** The separator inside a field makes two different states share a hash:
    such a change is not rendered. *)
Example state_hash_collision :
  let t := OpentuiCore.mkText "t" "a|b" 0 0 (Some "c") None 0 in
  let t' := OpentuiCore.mkText "t" "a" 0 0 (Some "b|c") None 0 in
  t ≠ t' ∧ OpentuiCore.stateHash t = OpentuiCore.stateHash t'.
Proof. by split. Qed.

(** ** Samples are bytes *)

Lemma byteQ_range (c : byte) : (0 <= byteQ c <= 255)%Q.
Proof.
  unfold byteQ. pose proof (Byte.to_N_bounded c) as H.
  split.
  - rewrite <- (Zle_Qle 0). lia.
  - change 255%Q with (inject_Z 255). rewrite <- Zle_Qle. lia.
Qed.

Lemma readByte_range (buf : list byte) (i : Z) : (0 <= readByte buf i <= 255)%Q.
Proof.
  unfold readByte. destruct (i <? 0)%Z; [split; discriminate|].
  destruct (buf !! Z.to_nat i); [apply byteQ_range | split; discriminate].
Qed.

Lemma readByte_pixel_range (buf : list byte) (i : Z) :
  channels_in_range (mkRGB (readByte buf i) (readByte buf (i + 1)) (readByte buf (i + 2))).
Proof. unfold channels_in_range. cbn [r g b]. split_and!; apply readByte_range. Qed.

Lemma black_in_range : channels_in_range black.
Proof. unfold channels_in_range, black. cbn [r g b]. split_and!; discriminate. Qed.

Lemma sum_in_range_add (total : RGB) (count : Z) (pr pg pb : Q) :
  sum_in_range total count →
  (0 <= pr <= 255)%Q → (0 <= pg <= 255)%Q → (0 <= pb <= 255)%Q →
  sum_in_range (mkRGB (r total + pr) (g total + pg) (b total + pb)) (count + 1).
Proof.
  intros (Hc & Hr & Hg & Hb) Hpr Hpg Hpb. unfold sum_in_range. cbn [r g b].
  rewrite inject_Z_plus. change (inject_Z 1) with 1%Q. split_and!; try lia; lra.
Qed.

Lemma mean_in_range (s : Q) (count : Z) :
  (0 < count)%Z → (0 <= s <= 255 * inject_Z count)%Q → (0 <= s / inject_Z count <= 255)%Q.
Proof.
  intros Hc [Hlo Hhi]. assert (0 < inject_Z count)%Q as HcQ by (rewrite <- (Zlt_Qlt 0); lia).
  split.
  - apply Qle_shift_div_l; [done|]. lra.
  - apply Qle_shift_div_r; [done|]. lra.
Qed.

Lemma averageAround_in_range (v : TerminalWebcam.WebcamViewer) (x y : Z) :
  sum_in_range (TerminalWebcam.averageAround v x y).1 (TerminalWebcam.averageAround v x y).2.
Proof.
  unfold TerminalWebcam.averageAround.
  assert (Hstart : sum_in_range (black, 0%Z).1 (black, 0%Z).2).
  { unfold sum_in_range, black. cbn [fst snd r g b]. split_and!; (lia || discriminate). }
  revert Hstart. generalize (black, 0%Z). generalize (TerminalWebcam.neighbourhood 1).
  intros l. induction l as [|d l IH]; intros acc Hacc; [done|].
  cbn [foldl]. apply IH. destruct (_ <? _)%Z; [|done]. cbn [fst snd].
  apply sum_in_range_add; [done | apply readByte_range ..].
Qed.

(** X23.  In both viewers every sample, read from the buffer, averaged over the
    neighbours or black, has its three channels in [0,255], and the cell
    that is drawn for it gets a glyph in every display mode. *)
Theorem samples_are_in_range :
  (∀ (v : TerminalWebcam.WebcamViewer) (termX termY : Z),
     (0 ≤ TerminalWebcam.captureWidth v)%Z →
     channels_in_range (TerminalWebcam.sampleVideoPixel v termX termY)
     ∧ ∃ glyph,
         (TerminalWebcam.renderCell v (TerminalWebcam.sampleVideoPixel v termX termY)).1.1
         = Some glyph)
  ∧ (∀ (v : DynamicRes.WebcamViewer) (termX termY : Z),
       (0 ≤ DynamicRes.videoWidth v)%Z →
       channels_in_range (DynamicRes.sampleVideoPixel v termX termY)
       ∧ ∃ glyph,
           (DynamicRes.renderCell v (DynamicRes.sampleVideoPixel v termX termY)).1.1
           = Some glyph).
Proof.
  split; intros v termX termY _.
  - assert (Hin : channels_in_range (TerminalWebcam.sampleVideoPixel v termX termY)).
    { unfold TerminalWebcam.sampleVideoPixel.
      destruct (TerminalWebcam.videoXY v termX termY) as [videoX videoY].
      destruct (_ <? _)%Z; [|apply black_in_range].
      destruct (Qlt_le_dec 3 _); [|apply readByte_pixel_range].
      pose proof (averageAround_in_range v
                    (clampCoord videoX (TerminalWebcam.captureWidth v))
                    (clampCoord videoY (TerminalWebcam.captureHeight v))) as Hsum.
      destruct (TerminalWebcam.averageAround v _ _) as [total count]. cbn [fst snd] in Hsum.
      destruct (0 <? count)%Z eqn:Hc; [|apply readByte_pixel_range].
      apply Z.ltb_lt in Hc. destruct Hsum as (_ & Hr & Hg & Hb).
      unfold channels_in_range. cbn [r g b]. split_and!; by apply mean_in_range. }
    split; [done|].
    unfold TerminalWebcam.renderCell, TerminalWebcam.getCharForBrightness.
    destruct (TerminalWebcam.displayMode v); cbn [fst];
      first [ by eexists
            | match goal with
              | |- ∃ _, charAt ?ramp (rampIndex _ ?nb) = _ =>
                destruct (rampIndex_lookup ramp nb) as [-> [gl ->]];
                  [discriminate | apply normalize_range | by exists gl]
              end ].
  - assert (Hin : channels_in_range (DynamicRes.sampleVideoPixel v termX termY)).
    { unfold DynamicRes.sampleVideoPixel.
      destruct (DynamicRes.videoXY v termX termY) as [videoX videoY].
      destruct (_ <? _)%Z; [apply readByte_pixel_range | apply black_in_range]. }
    split; [done|].
    unfold DynamicRes.renderCell, DynamicRes.getCharForBrightness.
    destruct (DynamicRes.displayMode v); cbn [fst];
      first [ by eexists
            | match goal with
              | |- ∃ _, charAt ?ramp (rampIndex _ ?nb) = _ =>
                destruct (rampIndex_lookup ramp nb) as [-> [gl ->]];
                  [discriminate | apply normalize_range | by exists gl]
              end ].
Qed.

Lemma samples_are_in_range_witness :
  channels_in_range (TerminalWebcam.sampleVideoPixel small_terminal_webcam 79 22)
  ∧ channels_in_range (DynamicRes.sampleVideoPixel small_dynamic_res 79 23).
Proof.
  split.
  - apply (proj1 samples_are_in_range small_terminal_webcam 79%Z 22%Z). by vm_compute.
  - apply (proj2 samples_are_in_range small_dynamic_res 79%Z 23%Z). by vm_compute.
Defined.

(** ** The quadrant viewer: from the frame to the cell *)

Module QuadrantFacts.
Import Quadrant.

Lemma getPixel_in_range (v : WebcamViewer) (x y : Z) : channels_in_range (getPixel v x y).
Proof.
  unfold getPixel. destruct (_ || _); [apply black_in_range | apply readByte_pixel_range].
Qed.

Lemma getPixel_in_frame (v : WebcamViewer) (x y : Z) :
  length (videoBuffer (asm v)) = Z.to_nat (videoWidth v * videoHeight v * 4) →
  (0 ≤ x < videoWidth v)%Z → (0 ≤ y < videoHeight v)%Z →
  ∃ c0 c1 c2,
    videoBuffer (asm v) !! Z.to_nat ((y * videoWidth v + x) * 4) = Some c0
    ∧ videoBuffer (asm v) !! Z.to_nat ((y * videoWidth v + x) * 4 + 1) = Some c1
    ∧ videoBuffer (asm v) !! Z.to_nat ((y * videoWidth v + x) * 4 + 2) = Some c2
    ∧ getPixel v x y = mkRGB (byteQ c0) (byteQ c1) (byteQ c2).
Proof.
  intros Hlen Hx Hy.
  pose proof (pixel_index_in_frame (videoWidth v) (videoHeight v) 4 x y 0) as H0.
  pose proof (pixel_index_in_frame (videoWidth v) (videoHeight v) 4 x y 1) as H1.
  pose proof (pixel_index_in_frame (videoWidth v) (videoHeight v) 4 x y 2) as H2.
  destruct (lookup_in_frame (videoBuffer (asm v)) _ ((y * videoWidth v + x) * 4) Hlen)
    as [c0 Hc0]; [lia|].
  destruct (lookup_in_frame (videoBuffer (asm v)) _ ((y * videoWidth v + x) * 4 + 1) Hlen)
    as [c1 Hc1]; [lia|].
  destruct (lookup_in_frame (videoBuffer (asm v)) _ ((y * videoWidth v + x) * 4 + 2) Hlen)
    as [c2 Hc2]; [lia|].
  exists c0, c1, c2. split_and!; try done. unfold getPixel.
  rewrite (proj2 (Z.leb_gt _ _)), (proj2 (Z.leb_gt _ _)) by lia. cbn [orb].
  by rewrite (readByte_lookup _ _ c0), (readByte_lookup _ _ c1), (readByte_lookup _ _ c2)
    by (lia || done).
Qed.

Lemma fold_partition_in_range (pixels : list RGB) (isDark : list bool)
    (acc : ColorSum * ColorSum) :
  Forall channels_in_range pixels →
  sum_in_range (sum acc.1) (count acc.1) → sum_in_range (sum acc.2) (count acc.2) →
  let res := foldl (λ (acc : ColorSum * ColorSum) (pd : RGB * bool),
                      if pd.2 then (addColor acc.1 pd.1, acc.2)
                      else (acc.1, addColor acc.2 pd.1))
                   acc (zip pixels isDark) in
  sum_in_range (sum res.1) (count res.1) ∧ sum_in_range (sum res.2) (count res.2).
Proof.
  intros Hall. revert isDark acc.
  induction Hall as [|p ps Hp _ IH]; intros isDark acc H1 H2; [done|].
  destruct isDark as [|d ds]; [done|]. cbn [zip zip_with foldl].
  destruct Hp as (Hr & Hg & Hb).
  apply IH; destruct d; cbn [fst snd addColor sum count]; try done;
    by apply sum_in_range_add.
Qed.

Lemma roundColor_byte (c : ColorSum) :
  (0 < count c)%Z → sum_in_range (sum c) (count c) → byte_colour (sum (roundColor c)).
Proof.
  intros Hc (_ & Hr & Hg & Hb). unfold roundColor, byte_colour. cbn [sum].
  assert (Hround : ∀ q, (0 <= q <= 255)%Q → (0 ≤ Math_round q ≤ 255)%Z).
  { intros q [Hlo Hhi]. unfold Math_round. split.
    - rewrite <- (Qfloor_Z 0). apply Qfloor_resp_le. change (inject_Z 0) with 0%Q. lra.
    - enough (Qfloor (q + 0.5) < 256)%Z by lia.
      rewrite Zlt_Qlt. eapply Qle_lt_trans; [apply Qfloor_le|].
      change (inject_Z 256) with 256%Q. lra. }
  eexists _, _, _. split_and!; [reflexivity | reflexivity | reflexivity | ..];
    apply Hround; by apply mean_in_range.
Qed.

End QuadrantFacts.

(** X24.  In the quadrant viewer, with a video buffer of twice the terminal size
    and four bytes per pixel, the four sub-samples of every cell of the
    terminal are read inside the buffer: each is made of the first three of
    the four bytes of its pixel. *)
Theorem quadrant_cell_reads_the_frame (v : Quadrant.WebcamViewer) (cx cy : Z) :
  Quadrant.videoWidth v = (Quadrant.width v * 2)%Z →
  Quadrant.videoHeight v = (Quadrant.height v * 2)%Z →
  length (videoBuffer (Quadrant.asm v))
  = Z.to_nat (Quadrant.videoWidth v * Quadrant.videoHeight v * 4) →
  (0 ≤ cx < Quadrant.width v)%Z → (0 ≤ cy < Quadrant.height v)%Z →
  ∀ dx dy : Z, (0 ≤ dx ≤ 1)%Z → (0 ≤ dy ≤ 1)%Z →
    let x := (cx * 2 + dx)%Z in
    let y := (cy * 2 + dy)%Z in
    let idx := ((y * Quadrant.videoWidth v + x) * 4)%Z in
    (idx + 3 < Z.of_nat (length (videoBuffer (Quadrant.asm v))))%Z
    ∧ ∃ c0 c1 c2,
        videoBuffer (Quadrant.asm v) !! Z.to_nat idx = Some c0
        ∧ videoBuffer (Quadrant.asm v) !! Z.to_nat (idx + 1) = Some c1
        ∧ videoBuffer (Quadrant.asm v) !! Z.to_nat (idx + 2) = Some c2
        ∧ Quadrant.getPixel v x y = mkRGB (byteQ c0) (byteQ c1) (byteQ c2).
Proof.
  intros Hvw Hvh Hlen Hcx Hcy dx dy Hdx Hdy x y idx. subst x y idx. split.
  - pose proof (pixel_index_in_frame (Quadrant.videoWidth v) (Quadrant.videoHeight v) 4
                  (cx * 2 + dx) (cy * 2 + dy) 3). lia.
  - apply QuadrantFacts.getPixel_in_frame; [done | lia | lia].
Qed.

Lemma quadrant_cell_reads_the_frame_witness :
  ∃ c0 c1 c2,
    Quadrant.getPixel (new_quadrant_viewer 2 1) (1 * 2 + 1) (0 * 2 + 1)
    = mkRGB (byteQ c0) (byteQ c1) (byteQ c2).
Proof.
  destruct (quadrant_cell_reads_the_frame (new_quadrant_viewer 2 1) 1 0
              eq_refl eq_refl eq_refl ltac:(by vm_compute) ltac:(by vm_compute)
              1 1 ltac:(lia) ltac:(lia))
    as (_ & c0 & c1 & c2 & _ & _ & _ & H).
  by exists c0, c1, c2.
Defined.

Lemma renderQuadrant_bytes (pixels : list RGB) :
  pixels ≠ [] → Forall channels_in_range pixels →
  ∃ cell,
    Quadrant.renderQuadrant pixels = Some cell
    ∧ is_Some (char cell)
    ∧ byte_colour (fg cell) ∧ byte_colour (bg cell).
Proof.
  intros Hne Hall. unfold Quadrant.renderQuadrant, Quadrant.darkQuadrants.
  destruct pixels as [|p0 ps]; [done|].
  cbn [fmap list_fmap Quadrant.reduceSum mbind option_bind].
  match goal with |- context [quadrantBits ?l] => set (isDark := l) end.
  pose proof (QuadrantFacts.fold_partition_in_range (p0 :: ps) isDark
                (Quadrant.zeroColor, Quadrant.zeroColor) Hall) as Hfold.
  cbv zeta in Hfold.
  match goal with
  | |- context [foldl ?f ?a (zip ?p ?d)] => set (res := foldl f a (zip p d)) in *
  end.
  destruct res as [darkColor lightColor]. cbn [fst snd] in Hfold.
  destruct Hfold as [Hd Hl].
  { unfold sum_in_range, Quadrant.zeroColor, black. cbn. split_and!; (lia || discriminate). }
  { unfold sum_in_range, Quadrant.zeroColor, black. cbn. split_and!; (lia || discriminate). }
  eexists. split; [reflexivity|]. cbn [char fg bg]. split_and!.
  - apply quadrantChars_total. unfold quadrantBits.
    repeat (destruct (default false _)); simpl; lia.
  - destruct (0 <? count darkColor)%Z eqn:E.
    + apply QuadrantFacts.roundColor_byte; [by apply Z.ltb_lt | done].
    + apply Z.ltb_ge in E. destruct Hd as (Hc & Hr & Hg & Hb).
      assert (count darkColor = 0%Z) as Hz by lia. rewrite Hz in Hr, Hg, Hb.
      change (inject_Z 0) with 0%Q in Hr, Hg, Hb.
      exists 0%Z, 0%Z, 0%Z. change (inject_Z 0) with 0%Q.
      split_and!; try lia; lra.
  - destruct (0 <? count lightColor)%Z eqn:E.
    + apply QuadrantFacts.roundColor_byte; [by apply Z.ltb_lt | done].
    + exists 255%Z, 255%Z, 255%Z. by split_and!.
Qed.

Lemma readByte_byte (buf : list byte) (i : Z) :
  ∃ n : Z, readByte buf i = inject_Z n ∧ (0 ≤ n ≤ 255)%Z.
Proof.
  unfold readByte. destruct (i <? 0)%Z; [by exists 0%Z|].
  destruct (buf !! Z.to_nat i) as [c|]; [|by exists 0%Z].
  exists (Z.of_N (Byte.to_N c)). split; [done|]. pose proof (Byte.to_N_bounded c). lia.
Qed.

Lemma getPixel_byte (v : Quadrant.WebcamViewer) (x y : Z) :
  byte_colour (Quadrant.getPixel v x y).
Proof.
  unfold Quadrant.getPixel. destruct (_ || _).
  - exists 0%Z, 0%Z, 0%Z. split_and!; first [reflexivity | lia].
  - set (buf := videoBuffer _). set (idx := (_ * 4)%Z).
    destruct (readByte_byte buf idx) as (n0 & E0 & B0).
    destruct (readByte_byte buf (idx + 1)) as (n1 & E1 & B1).
    destruct (readByte_byte buf (idx + 2)) as (n2 & E2 & B2).
    exists n0, n1, n2. cbn [r g b]. rewrite E0, E1, E2.
    split_and!; first [reflexivity | lia].
Qed.

(** X25.  The cell computed from sub-samples with channels in [0,255] has a glyph
    and two colours whose channels are integers in [0,255]; this holds for
    the four sub-samples that the quadrant viewer reads for a cell, and the
    two colours of the fallback renderer for them are such colours too. *)
Theorem quadrant_colours_are_bytes :
  (∀ pixels : list RGB,
     pixels ≠ [] → Forall channels_in_range pixels →
     ∃ cell,
       Quadrant.renderQuadrant pixels = Some cell
       ∧ is_Some (char cell)
       ∧ byte_colour (fg cell) ∧ byte_colour (bg cell))
  ∧ (∀ (v : Quadrant.WebcamViewer) (cx cy : Z),
       (0 ≤ cx)%Z → (0 ≤ cy)%Z → (0 ≤ Quadrant.videoWidth v)%Z →
       length (videoBuffer (Quadrant.asm v))
       = Z.to_nat (Quadrant.videoWidth v * Quadrant.videoHeight v * 4) →
       (∃ cell,
          Quadrant.renderQuadrant (Quadrant.quadPixels v cx cy) = Some cell
          ∧ is_Some (char cell)
          ∧ byte_colour (fg cell) ∧ byte_colour (bg cell))
       ∧ (∃ cell,
            SuperSample.renderFallback (Quadrant.quadPixels v cx cy) = Some cell
            ∧ byte_colour (fg cell) ∧ byte_colour (bg cell))).
Proof.
  split; [exact renderQuadrant_bytes|]. intros v cx cy _ _ _ _. split.
  - apply renderQuadrant_bytes; [done|]. unfold Quadrant.quadPixels. cbv zeta.
    repeat constructor; apply QuadrantFacts.getPixel_in_range.
  - unfold Quadrant.quadPixels. cbv zeta.
    destruct (renderFallback_extremes (Quadrant.getPixel v (cx * 2) (cy * 2))
                [Quadrant.getPixel v (cx * 2 + 1) (cy * 2);
                 Quadrant.getPixel v (cx * 2) (cy * 2 + 1);
                 Quadrant.getPixel v (cx * 2 + 1) (cy * 2 + 1)])
      as (dk & lt & glyph & Hrun & [Hdk _] & [Hlt _]).
    exists (mkCell glyph dk lt). split; [exact Hrun|]. cbn [fg bg].
    assert (Hall : ∀ p, p ∈ [Quadrant.getPixel v (cx * 2) (cy * 2);
                             Quadrant.getPixel v (cx * 2 + 1) (cy * 2);
                             Quadrant.getPixel v (cx * 2) (cy * 2 + 1);
                             Quadrant.getPixel v (cx * 2 + 1) (cy * 2 + 1)] →
                        byte_colour p).
    { intros p Hp. repeat (apply elem_of_cons in Hp as [->|Hp]; [apply getPixel_byte|]).
      by apply elem_of_nil in Hp. }
    split; by apply Hall.
Qed.

Lemma quadrant_colours_are_bytes_witness :
  (∃ cell, Quadrant.renderQuadrant sample_quad = Some cell
           ∧ byte_colour (fg cell) ∧ byte_colour (bg cell))
  ∧ (∃ cell, Quadrant.renderQuadrant (Quadrant.quadPixels small_quadrant 1 0) = Some cell
             ∧ byte_colour (fg cell) ∧ byte_colour (bg cell)).
Proof.
  split.
  - destruct (proj1 quadrant_colours_are_bytes sample_quad) as (cell & Hrun & _ & Hfg & Hbg).
    + discriminate.
    + repeat constructor; by vm_compute.
    + exists cell. split_and!; [exact Hrun | exact Hfg | exact Hbg].
  - destruct (proj2 quadrant_colours_are_bytes small_quadrant 1%Z 0%Z)
      as [(cell & Hrun & _ & Hfg & Hbg) _]; [lia | lia | by vm_compute | reflexivity |].
    exists cell. split_and!; [exact Hrun | exact Hfg | exact Hbg].
Defined.

(** ** The camera-selection viewer *)

(** X26.  In the viewer with camera selection, the ramp index of every grey
    level of a frame is in [0, 14], so every cell gets a glyph; level 0 gets
    the space and level 255 the last glyph of the ramp; the index does not
    decrease when the level increases. *)
Theorem grey_ramp_index_in_range :
  (∀ brightness : byte,
     (0 ≤ SelectViewerMain.charIdx (byteQ brightness) ≤ 14)%Z
     ∧ is_Some (SelectViewerMain.cellChar brightness))
  ∧ SelectViewerMain.cellChar "000"%byte = Some " "
  ∧ SelectViewerMain.cellChar "255"%byte = Some "@"
  ∧ (∀ b1 b2 : Q,
       (b1 <= b2)%Q → (SelectViewerMain.charIdx b1 ≤ SelectViewerMain.charIdx b2)%Z).
Proof.
  assert (Hrange : ∀ c : byte, (0 ≤ SelectViewerMain.charIdx (byteQ c) ≤ 14)%Z).
  { intros c. unfold SelectViewerMain.charIdx, Math_floor.
    change (Z.of_nat (length SelectViewerMain.asciiChars)) with 15%Z.
    pose proof (byteQ_range c) as [Hlo Hhi].
    assert (0 ≤ Qfloor (byteQ c / 255 * inject_Z 15))%Z; [|lia].
    rewrite <- (Qfloor_Z 0). apply Qfloor_resp_le.
    change (inject_Z 0) with 0%Q. change (inject_Z 15) with 15%Q.
    assert (0 <= byteQ c / 255)%Q by (apply Qle_shift_div_l; [reflexivity | lra]). nra. }
  split_and!.
  - intros c. split; [apply Hrange|]. unfold SelectViewerMain.cellChar, charAt.
    destruct (Hrange c) as [Hlo Hhi]. rewrite (proj2 (Z.ltb_ge _ _) Hlo).
    apply lookup_lt_is_Some_2. simpl. lia.
  - reflexivity.
  - reflexivity.
  - intros b1 b2 Hb. unfold SelectViewerMain.charIdx, Math_floor.
    apply Z.min_le_compat_l, Qfloor_resp_le.
    apply Qmult_le_compat_r; [|discriminate].
    apply Qmult_le_compat_r; [done | discriminate].
Qed.

Lemma grey_ramp_index_in_range_witness :
  (SelectViewerMain.charIdx 100 ≤ SelectViewerMain.charIdx 200)%Z.
Proof. apply (proj2 (proj2 (proj2 grey_ramp_index_in_range))). discriminate. Defined.

(** X27.  For a list of devices that is not empty, [selectDevice] returns the index
    of a device of the list, which [main] then finds in it: the device at
    the position that was entered when the answer is a number from 1 to the
    length of the list, the first device for every other answer. *)
Theorem selected_device_is_listed
    (devices : list SelectViewerMain.Device) (selection : option Z) :
  devices ≠ [] →
  ∃ d deviceIndex,
    SelectViewerMain.selectDevice devices selection = Some deviceIndex
    ∧ d ∈ devices
    ∧ SelectViewerMain.index d = deviceIndex
    ∧ is_Some (SelectViewerMain.findDevice devices deviceIndex)
    ∧ (∀ n, selection = Some n → (1 ≤ n ≤ Z.of_nat (length devices))%Z →
            devices !! Z.to_nat (n - 1) = Some d)
    ∧ ((∀ n, selection = Some n → ¬ (1 ≤ n ≤ Z.of_nat (length devices))%Z) →
       devices !! 0 = Some d).
Proof.
  intros Hne.
  assert (Hfind : ∀ d, d ∈ devices →
            is_Some (SelectViewerMain.findDevice devices (SelectViewerMain.index d))).
  { intros d Hd. unfold SelectViewerMain.findDevice.
    destruct (List.find _ devices) as [d'|] eqn:E; [by eexists|].
    apply list_elem_of_In in Hd.
    pose proof (find_none _ _ E d Hd) as Hn. simpl in Hn. lia. }
  assert (Hat : ∀ i, i < length devices →
            ∃ d, devices !! i = Some d ∧ d ∈ devices).
  { intros i Hi. destruct (lookup_lt_is_Some_2 devices i Hi) as [d Hd].
    exists d. split; [done | by eapply list_elem_of_lookup_2]. }
  assert (0 < length devices) as Hlen by (destruct devices; simpl; [done | lia]).
  unfold SelectViewerMain.selectDevice. destruct selection as [n|].
  - destruct ((1 <=? n)%Z && (n <=? Z.of_nat (length devices))%Z) eqn:E.
    + apply andb_prop in E as [E1%Z.leb_le E2%Z.leb_le].
      destruct (Hat (Z.to_nat (n - 1))) as (d & Hd & Hin); [lia|].
      exists d, (SelectViewerMain.index d). rewrite Hd.
      split_and!; [done | done | done | by apply Hfind | by intros ? [= <-] | ].
      intros Hout. destruct (Hout n eq_refl). lia.
    + destruct (Hat 0 Hlen) as (d & Hd & Hin).
      exists d, (SelectViewerMain.index d). rewrite Hd.
      split_and!; [done | done | done | by apply Hfind | | done].
      intros m [= <-] Hm. apply andb_false_iff in E as [E%Z.leb_gt|E%Z.leb_gt]; lia.
  - destruct (Hat 0 Hlen) as (d & Hd & Hin).
    exists d, (SelectViewerMain.index d). rewrite Hd.
    split_and!; [done | done | done | by apply Hfind | done | done].
Qed.

Lemma selected_device_is_listed_witness :
  ∃ d deviceIndex,
    SelectViewerMain.selectDevice
      [SelectViewerMain.mkDevice 0 "FaceTime HD Camera"; SelectViewerMain.mkDevice 2 "USB Camera"]
      (Some 7%Z) = Some deviceIndex
    ∧ SelectViewerMain.index d = deviceIndex.
Proof.
  destruct (selected_device_is_listed
              [SelectViewerMain.mkDevice 0 "FaceTime HD Camera";
               SelectViewerMain.mkDevice 2 "USB Camera"] (Some 7%Z))
    as (d & deviceIndex & Hsel & _ & Hidx & _); [discriminate|].
  exists d, deviceIndex. split; [exact Hsel | exact Hidx].
Defined.

(** ** The text grid *)

Module TextGridFacts.
Import TerminalWebcam OpentuiCore OpentuiCoreApi TextGrid.

Lemma key_inj (x y x' y' : Z) :
  (0 ≤ x)%Z → (0 ≤ x')%Z → key x y = key x' y' → x = x' ∧ y = y'.
Proof.
  intros Hx Hx' Heq. unfold key in Heq.
  apply SeparatorFacts.sep_split in Heq as [H1 H2];
    [|by apply SeparatorFacts.pretty_Z_no_dash..].
  split; by apply (inj pretty).
Qed.

Lemma key_not_plain (x y : Z) (k : string) : lacks "-" k → key x y ≠ k.
Proof. intros Hk Heq. rewrite <- Heq in Hk. by apply SeparatorFacts.has_sep in Hk. Qed.

Lemma foldl_positions {A} (f : Z → A → Z → A) (h : Z → list Z) (ys : list Z) (a : A) :
  foldl (λ a y, foldl (f y) a (h y)) a ys
  = foldl (λ a p, f p.2 a p.1) a (positions h ys).
Proof.
  unfold positions. revert a. induction ys as [|y ys IH]; intros a; [done|].
  cbn [foldl]. rewrite bind_cons, foldl_app, IH. f_equal.
  generalize (h y). intros xs. revert a. induction xs as [|x xs IHx]; intros a; [done|].
  cbn [foldl fmap list_fmap]. apply IHx.
Qed.

Lemma elem_of_positions (h : Z → list Z) (ys : list Z) (x y : Z) :
  (x, y) ∈ positions h ys ↔ y ∈ ys ∧ x ∈ h y.
Proof.
  unfold positions. rewrite list_elem_of_bind. split.
  - intros (y' & Hin & Hy). apply list_elem_of_fmap in Hin as (x' & [= -> ->] & Hx). done.
  - intros [Hy Hx]. exists y. split; [|done]. apply list_elem_of_fmap. by exists x.
Qed.

Lemma NoDup_positions (h : Z → list Z) (ys : list Z) :
  NoDup ys → (∀ y, NoDup (h y)) → NoDup (positions h ys).
Proof.
  intros Hys Hh. unfold positions. apply NoDup_bind; [| |done].
  - intros y1 y2 [x y] _ _ H1 H2.
    apply list_elem_of_fmap in H1 as (? & [= _ ->] & _).
    apply list_elem_of_fmap in H2 as (? & [= _ ->] & _). done.
  - intros y _. apply NoDup_fmap_2; [|apply Hh]. by intros ? ? [= ->].
Qed.

Lemma NoDup_keys (ps : list (Z * Z)) :
  (∀ p, p ∈ ps → (0 ≤ p.1)%Z) → NoDup ps → NoDup (keyOf <$> ps).
Proof.
  intros Hpos Hnd. apply NoDup_fmap_2_strong; [|done].
  intros [x y] [x' y'] Hp Hp' Heq. unfold keyOf in Heq. cbn [fst snd] in Heq.
  apply key_inj in Heq as [-> ->]; [done | apply (Hpos _ Hp) | apply (Hpos _ Hp')].
Qed.

(** *** [initTextGrid] *)

Lemma mapSet_fresh (t : TextRenderable) (l : list TextRenderable) :
  id t ∉ id <$> l → mapSet t l = l ++ [t].
Proof.
  induction l as [|u l IH]; intros Hnin; [done|]. cbn [mapSet].
  rewrite fmap_cons in Hnin. apply not_elem_of_cons in Hnin as [Hne Hnin].
  destruct (String.eqb (id u) (id t)) eqn:E.
  - apply String.eqb_eq in E. by destruct Hne.
  - by rewrite IH.
Qed.

Lemma addCells_spec (ps : list (Z * Z)) (g : Grid) :
  NoDup (keyOf <$> ps) →
  (∀ p, p ∈ ps → keyOf p ∉ id <$> renderables (renderer g)) →
  let g' := foldl (λ g p, addCell p.2 g p.1) g ps in
  renderables (renderer g')
  = renderables (renderer g) ++ ((λ p, blankCell p.1 p.2) <$> ps)
  ∧ textElements g' = list_to_set (keyOf <$> ps) ∪ textElements g.
Proof.
  revert g. induction ps as [|[x y] ps IH]; intros g Hnd Hfresh; cbn [foldl fst snd].
  - cbn. rewrite app_nil_r. split; [done | set_solver].
  - rewrite fmap_cons in Hnd. apply NoDup_cons in Hnd as [Hx Hnd].
    assert (Hadd : renderables (renderer (addCell y g x))
                   = renderables (renderer g) ++ [blankCell x y]).
    { unfold addCell, add. cbn [renderer renderables set_renderables].
      apply (mapSet_fresh (blankCell x y)). apply (Hfresh (x, y)). left. }
    destruct (IH (addCell y g x) Hnd) as [Hr Ht].
    { intros p Hp. rewrite Hadd, fmap_app. intros [Hin|Hin]%elem_of_app.
      - by apply (Hfresh p); [right|].
      - apply list_elem_of_singleton in Hin. apply Hx. change (key x y) with (keyOf (x, y)).
        cbn [fmap list_fmap blankCell id] in Hin. unfold keyOf at 1. cbn [fst snd].
        rewrite <- Hin. apply list_elem_of_fmap. by exists p. }
    cbv zeta. rewrite Hr, Ht, Hadd, <- app_assoc. split; [done|].
    rewrite fmap_cons. unfold addCell at 1. cbn [textElements list_to_set].
    unfold keyOf at 3. cbn [fst snd]. set_solver.
Qed.

(** *** Look-up among renderables with distinct ids *)

Lemma find_elem (l : list TextRenderable) (t : TextRenderable) :
  NoDup (id <$> l) → t ∈ l → List.find (λ u, String.eqb (id u) (id t)) l = Some t.
Proof.
  induction l as [|u l IH]; intros Hnd Hin; [by apply elem_of_nil in Hin|].
  rewrite fmap_cons in Hnd. apply NoDup_cons in Hnd as [Hu Hnd]. cbn [List.find].
  apply elem_of_cons in Hin as [->|Hin]; [by rewrite String.eqb_refl|].
  destruct (String.eqb (id u) (id t)) eqn:E; [|by apply IH].
  apply String.eqb_eq in E. destruct Hu. rewrite E. apply list_elem_of_fmap. by exists t.
Qed.

Lemma find_id (l : list TextRenderable) (k : string) (t : TextRenderable) :
  List.find (λ u, String.eqb (id u) k) l = Some t → id t = k ∧ t ∈ l.
Proof.
  intros H. apply find_some in H as [Hin Heq]. apply String.eqb_eq in Heq.
  split; [done | by apply list_elem_of_In].
Qed.

Lemma get_is_Some (k : string) (s : SimpleCliRenderer) :
  k ∈ id <$> renderables s → is_Some (getRenderable k s).
Proof.
  intros Hin. apply list_elem_of_fmap in Hin as (t & -> & Hin). unfold getRenderable.
  destruct (List.find _ _) as [u|] eqn:E; [by eexists|].
  apply list_elem_of_In in Hin. pose proof (find_none _ _ E t Hin) as Hn.
  cbn in Hn. by rewrite String.eqb_refl in Hn.
Qed.

(** *** [renderFrame] *)

Lemma get_mutate (k k' : string) (f : TextRenderable → TextRenderable)
    (s : SimpleCliRenderer) :
  (∀ t, id (f t) = id t) →
  getRenderable k (mutate k' f s)
  = (if String.eqb k k' then f else λ t, t) <$> getRenderable k s.
Proof.
  intros Hf. unfold getRenderable, mutate. cbn [renderables set_renderables].
  induction (renderables s) as [|u l IH]; [done|]. cbn [fmap list_fmap List.find].
  destruct (String.eqb (id u) k') eqn:E'.
  - rewrite Hf. destruct (String.eqb (id u) k) eqn:E; [|apply IH].
    apply String.eqb_eq in E, E'. subst k k'. by rewrite String.eqb_refl.
  - destruct (String.eqb (id u) k) eqn:E; [|apply IH].
    apply String.eqb_eq in E. subst k. by rewrite E'.
Qed.

Lemma ids_mutate (k : string) (f : TextRenderable → TextRenderable)
    (s : SimpleCliRenderer) :
  (∀ t, id (f t) = id t) →
  id <$> renderables (mutate k f s) = id <$> renderables s.
Proof.
  intros Hf. unfold mutate. cbn [renderables set_renderables].
  rewrite <- list_fmap_compose. apply list_fmap_ext. intros i t _. cbn.
  by destruct (String.eqb (id t) k).
Qed.

Lemma paint_id (v : WebcamViewer) (x y : Z) (t : TextRenderable) :
  id (paint v x y t) = id t.
Proof. unfold paint. by destruct (renderCell v _) as [[? ?] ?]. Qed.

Lemma paint_cell (v : WebcamViewer) (x y : Z) (t : TextRenderable) :
  id t = key x y → OpentuiCore.x t = x → OpentuiCore.y t = y → zIndex t = 1%Z →
  paint v x y t = drawnCell v x y.
Proof.
  intros Hid Hx Hy Hz. unfold paint, drawnCell.
  destruct (renderCell v _) as [[char fg] bg].
  unfold set_bg, set_fg, set_content. cbn. by rewrite Hid, Hx, Hy, Hz.
Qed.

Lemma drawStep_textElements (v : WebcamViewer) (ps : list (Z * Z)) (g : Grid) :
  textElements (foldl (drawStep v) g ps) = textElements g.
Proof.
  revert g. induction ps as [|p ps IH]; intros g; [done|]. cbn [foldl]. rewrite IH.
  unfold drawStep, renderCellAt. by destruct (decide _).
Qed.

Lemma drawStep_ids (v : WebcamViewer) (ps : list (Z * Z)) (g : Grid) :
  id <$> renderables (renderer (foldl (drawStep v) g ps))
  = id <$> renderables (renderer g).
Proof.
  revert g. induction ps as [|p ps IH]; intros g; [done|]. cbn [foldl]. rewrite IH.
  unfold drawStep, renderCellAt. destruct (decide _); [|done]. cbn [renderer].
  apply ids_mutate. intros t. apply paint_id.
Qed.

Lemma drawStep_other (v : WebcamViewer) (ps : list (Z * Z)) (g : Grid) (k : string) :
  (∀ p, p ∈ ps → keyOf p ≠ k) →
  getRenderable k (renderer (foldl (drawStep v) g ps)) = getRenderable k (renderer g).
Proof.
  revert g. induction ps as [|p ps IH]; intros g Hk; [done|]. cbn [foldl].
  rewrite IH by (intros q Hq; apply Hk; by right).
  unfold drawStep, renderCellAt. destruct (decide _); [|done]. cbn [renderer].
  rewrite get_mutate by (intros t; apply paint_id).
  assert (String.eqb k (key p.1 p.2) = false) as ->; [|by destruct (getRenderable _ _)].
  apply String.eqb_neq. intros ->. by apply (Hk p); [left|].
Qed.

Lemma drawStep_drawn (v : WebcamViewer) (ps : list (Z * Z)) (g : Grid) (p : Z * Z) :
  NoDup (keyOf <$> ps) → p ∈ ps → keyOf p ∈ textElements g →
  getRenderable (keyOf p) (renderer (foldl (drawStep v) g ps))
  = paint v p.1 p.2 <$> getRenderable (keyOf p) (renderer g).
Proof.
  revert g. induction ps as [|q ps IH]; intros g Hnd Hin Hte;
    [by apply elem_of_nil in Hin|].
  rewrite fmap_cons in Hnd. apply NoDup_cons in Hnd as [Hq Hnd]. cbn [foldl].
  assert (Hte' : textElements (drawStep v g q) = textElements g).
  { unfold drawStep, renderCellAt. by destruct (decide _). }
  destruct (decide (keyOf q = keyOf p)) as [Heq|Hne].
  - rewrite drawStep_other.
    2:{ intros p' Hp' Hk. apply Hq. rewrite Heq, <- Hk. apply list_elem_of_fmap.
        by exists p'. }
    assert (q = p) as ->.
    { apply elem_of_cons in Hin as [->|Hin]; [done|]. destruct Hq. rewrite Heq.
      apply list_elem_of_fmap. by exists p. }
    unfold drawStep, renderCellAt. fold (keyOf p).
    rewrite decide_True by done. cbn [renderer].
    rewrite get_mutate by (intros t; apply paint_id). by rewrite String.eqb_refl.
  - apply elem_of_cons in Hin as [->|Hin]; [done|].
    rewrite IH by (by rewrite ?Hte').
    unfold drawStep, renderCellAt. destruct (decide _); [|done]. cbn [renderer].
    rewrite get_mutate by (intros t; apply paint_id).
    assert (String.eqb (keyOf p) (key q.1 q.2) = false) as ->; [|by destruct (getRenderable _ _)].
    apply String.eqb_neq. intros Hk. by apply Hne.
Qed.

Lemma renderRows_positions (v : WebcamViewer) (g : Grid) :
  foldl (renderRow v) g (seqZ 0 (termHeight v))
  = foldl (drawStep v) g (positions (drawnRow v) (seqZ 0 (termHeight v))).
Proof.
  unfold drawStep. rewrite <- (foldl_positions (renderCellAt v)).
  generalize (seqZ 0 (termHeight v)). intros ys. revert g.
  induction ys as [|y ys IH]; intros g; [done|]. cbn [foldl]. rewrite <- IH. f_equal.
  unfold renderRow, drawnRow. by destruct (_ || _).
Qed.

Lemma elem_of_drawn (v : WebcamViewer) (x y : Z) :
  (x, y) ∈ positions (drawnRow v) (seqZ 0 (termHeight v))
  ↔ (0 ≤ x < termWidth v)%Z ∧ (0 < y < termHeight v - 1)%Z.
Proof.
  rewrite elem_of_positions, elem_of_seqZ. unfold drawnRow.
  destruct ((y =? 0)%Z || (y =? termHeight v - 1)%Z) eqn:E.
  - rewrite elem_of_nil. apply orb_true_iff in E as [E%Z.eqb_eq|E%Z.eqb_eq]; lia.
  - rewrite elem_of_seqZ. apply orb_false_iff in E as [E1%Z.eqb_neq E2%Z.eqb_neq]. lia.
Qed.

Lemma NoDup_drawn (v : WebcamViewer) :
  NoDup (keyOf <$> positions (drawnRow v) (seqZ 0 (termHeight v))).
Proof.
  apply NoDup_keys.
  - intros [x y] Hp. apply elem_of_drawn in Hp. cbn. lia.
  - apply NoDup_positions; [apply NoDup_seqZ|].
    intros y. unfold drawnRow. destruct (_ || _); [constructor | apply NoDup_seqZ].
Qed.

Lemma renderFrame_spec (cameraName : string) (fps : Z) (v : WebcamViewer) (g : Grid) :
  let g' := renderFrame cameraName fps v g in
  textElements g' = textElements g
  ∧ id <$> renderables (renderer g') = id <$> renderables (renderer g)
  ∧ (∀ x y, (0 ≤ x < termWidth v)%Z → (0 < y < termHeight v - 1)%Z →
            key x y ∈ textElements g →
            getRenderable (key x y) (renderer g')
            = paint v x y <$> getRenderable (key x y) (renderer g))
  ∧ (∀ k, k ≠ "status" →
          (∀ x y, (0 ≤ x < termWidth v)%Z → (0 < y < termHeight v - 1)%Z → k ≠ key x y) →
          getRenderable k (renderer g') = getRenderable k (renderer g))
  ∧ getRenderable "status" (renderer g')
    = (if isRestarting v then λ t, t else set_content (statusLine cameraName fps v))
        <$> getRenderable "status" (renderer g).
Proof.
  cbv zeta. unfold renderFrame. rewrite renderRows_positions.
  set (ps := positions (drawnRow v) (seqZ 0 (termHeight v))).
  set (g1 := foldl (drawStep v) g ps).
  assert (Hte : textElements g1 = textElements g) by apply drawStep_textElements.
  assert (Hids : id <$> renderables (renderer g1) = id <$> renderables (renderer g))
    by apply drawStep_ids.
  assert (Hdrawn : ∀ x y, (0 ≤ x < termWidth v)%Z → (0 < y < termHeight v - 1)%Z →
            key x y ∈ textElements g →
            getRenderable (key x y) (renderer g1)
            = paint v x y <$> getRenderable (key x y) (renderer g)).
  { intros x y Hx Hy Hin.
    apply (drawStep_drawn v ps g (x, y)); [apply NoDup_drawn | | done].
    by apply elem_of_drawn. }
  assert (Hother : ∀ k,
            (∀ x y, (0 ≤ x < termWidth v)%Z → (0 < y < termHeight v - 1)%Z → k ≠ key x y) →
            getRenderable k (renderer g1) = getRenderable k (renderer g)).
  { intros k Hk. apply drawStep_other. intros [x y] Hp Heq.
    apply elem_of_drawn in Hp as [Hx Hy]. by apply (Hk x y). }
  assert (Hstatus : getRenderable "status" (renderer g1) = getRenderable "status" (renderer g)).
  { apply Hother. intros x y _ _ Heq. by apply (key_not_plain x y "status"). }
  assert (Hset : ∀ c t, id (set_content c t) = id t) by done.
  destruct (getRenderable "status" (renderer g1)) as [status|] eqn:Est.
  - destruct (isRestarting v) eqn:Er; cbn [negb].
    + split_and!; [done | done | done | by intros; apply Hother |].
      rewrite <- Hstatus. by rewrite Est.
    + cbn [renderer textElements]. fold (statusLine cameraName fps v).
      split_and!; [done | by rewrite ids_mutate | | |].
      * intros x y Hx Hy Hin. rewrite get_mutate by done.
        assert (String.eqb (key x y) "status" = false) as ->.
        { apply String.eqb_neq. by apply key_not_plain. }
        rewrite Hdrawn by done. by destruct (getRenderable (key x y) (renderer g)).
      * intros k Hk Hcells. rewrite get_mutate by done.
        apply String.eqb_neq in Hk. rewrite Hk, Hother by done.
        by destruct (getRenderable k (renderer g)).
      * rewrite get_mutate by done. by rewrite String.eqb_refl, Est, <- Hstatus.
  - split_and!; [done | done | done | by intros; apply Hother |].
    rewrite <- Hstatus. by destruct (isRestarting v).
Qed.

Lemma elem_of_cells (v : WebcamViewer) (x y : Z) :
  (x, y) ∈ cells v ↔ (0 ≤ x < termWidth v)%Z ∧ (0 ≤ y < termHeight v)%Z.
Proof. unfold cells. rewrite elem_of_positions, !elem_of_seqZ. lia. Qed.

Lemma NoDup_cells (v : WebcamViewer) : NoDup (keyOf <$> cells v).
Proof.
  apply NoDup_keys.
  - intros [x y] Hp. apply elem_of_cells in Hp. cbn. lia.
  - apply NoDup_positions; [apply NoDup_seqZ|]. intros _. apply NoDup_seqZ.
Qed.

Lemma length_cells (v : WebcamViewer) :
  length (cells v) = Z.to_nat (termWidth v) * Z.to_nat (termHeight v).
Proof.
  unfold cells, positions.
  assert (H : ∀ ys : list Z,
            length (ys ≫= λ y, (λ x, (x, y)) <$> seqZ 0 (termWidth v))
            = Z.to_nat (termWidth v) * length ys).
  { induction ys as [|y ys IH]; [cbn; lia|].
    rewrite bind_cons, length_app, IH, length_fmap, length_seqZ. cbn [length]. lia. }
  rewrite H, length_seqZ. done.
Qed.

(** The renderables after [initTextGrid] on a renderer that has none: the
    cells row by row, then the three overlays. *)
Lemma initTextGrid_renderables (cameraName : string) (v : WebcamViewer)
    (s : SimpleCliRenderer) :
  renderables s = [] →
  let g := initTextGrid cameraName v (mkGrid s ∅) in
  renderables (renderer g)
  = ((λ p, blankCell p.1 p.2) <$> cells v)
    ++ [mkText "status" (cameraName +:+ " | FPS: 0") 2 0
               (Some "#FFFFFF") (Some "#333333") 1000;
        mkText "mode" ("Mode: " +:+ displayModeName (displayMode v)) (termWidth v - 20) 0
               (Some "#00FF00") (Some "#333333") 1000;
        mkText "resolution"
               ("Capture: " +:+ pretty (captureWidth v) +:+ "x"
                +:+ pretty (captureHeight v) +:+ " | Zoom: 1.0x")
               2 (termHeight v - 1) (Some "#00FFFF") (Some "#111111") 1000]
  ∧ textElements g = list_to_set (keyOf <$> cells v).
Proof.
  intros Hs. cbv zeta. unfold initTextGrid.
  rewrite (foldl_positions (λ y g x, addCell y g x)).
  fold (cells v).
  destruct (addCells_spec (cells v) (mkGrid s ∅)) as [Hr Ht].
  { apply NoDup_cells. }
  { intros p _. cbn [renderer]. rewrite Hs. apply not_elem_of_nil. }
  cbn [renderer textElements] in Hr, Ht. rewrite Hs in Hr. cbn [app] in Hr.
  cbn [renderer textElements]. rewrite Ht. split; [|set_solver].
  assert (Hkeys : ∀ k, lacks "-" k →
            k ∉ id <$> ((λ p, blankCell p.1 p.2) <$> cells v)).
  { intros k Hk Hin. apply list_elem_of_fmap in Hin as (t & -> & Hin).
    apply list_elem_of_fmap in Hin as (p & -> & _). cbn [blankCell id] in Hk.
    by apply SeparatorFacts.has_sep in Hk. }
  unfold add. cbn [renderables set_renderables]. rewrite Hr.
  set (c := (λ p : Z * Z, blankCell p.1 p.2) <$> cells v) in *.
  match goal with |- context [mapSet ?t c] => rewrite (mapSet_fresh t c) end.
  2:{ apply Hkeys. by vm_compute. }
  match goal with |- context [mapSet ?t (c ++ ?l)] => rewrite (mapSet_fresh t (c ++ l)) end.
  2:{ rewrite fmap_app. intros [Hin|Hin]%elem_of_app.
      - revert Hin. apply Hkeys. by vm_compute.
      - apply list_elem_of_singleton in Hin. discriminate. }
  match goal with |- context [mapSet ?t ((c ++ ?l) ++ ?l')] =>
    rewrite (mapSet_fresh t ((c ++ l) ++ l')) end.
  2:{ rewrite !fmap_app. intros [[Hin|Hin]%elem_of_app|Hin]%elem_of_app.
      - revert Hin. apply Hkeys. by vm_compute.
      - apply list_elem_of_singleton in Hin. discriminate.
      - apply list_elem_of_singleton in Hin. discriminate. }
  by rewrite <- !app_assoc.
Qed.

Lemma initTextGrid_NoDup (cameraName : string) (v : WebcamViewer) (s : SimpleCliRenderer) :
  renderables s = [] →
  NoDup (id <$> renderables (renderer (initTextGrid cameraName v (mkGrid s ∅)))).
Proof.
  intros Hs. destruct (initTextGrid_renderables cameraName v s Hs) as [-> _].
  rewrite fmap_app, <- list_fmap_compose. apply NoDup_app. split_and!.
  - apply NoDup_cells.
  - intros k Hin Hk. apply list_elem_of_fmap in Hin as (p & -> & _).
    cbn in Hk. unfold keyOf in Hk.
    assert (lacks "-" (key p.1 p.2)) as Hl; [|by apply SeparatorFacts.has_sep in Hl].
    rewrite !elem_of_cons, elem_of_nil in Hk.
    destruct Hk as [->|[->|[->|[]]]]; by vm_compute.
  - cbn. repeat (apply NoDup_cons; split; [set_solver|]). apply NoDup_nil_2.
Qed.

End TextGridFacts.

Module TextGridRun.
Import TerminalWebcam OpentuiCore OpentuiCoreApi TextGrid TextGridFacts.

Lemma initTextGrid_get (cameraName : string) (v : WebcamViewer) (s : SimpleCliRenderer)
    (t : TextRenderable) :
  renderables s = [] →
  t ∈ renderables (renderer (initTextGrid cameraName v (mkGrid s ∅))) →
  getRenderable (id t) (renderer (initTextGrid cameraName v (mkGrid s ∅))) = Some t.
Proof.
  intros Hs Hin. unfold getRenderable. apply find_elem; [|done].
  by apply initTextGrid_NoDup.
Qed.

Lemma initTextGrid_cell (cameraName : string) (v : WebcamViewer) (s : SimpleCliRenderer)
    (x y : Z) :
  renderables s = [] →
  (0 ≤ x < termWidth v)%Z → (0 ≤ y < termHeight v)%Z →
  let g := initTextGrid cameraName v (mkGrid s ∅) in
  key x y ∈ textElements g
  ∧ getRenderable (key x y) (renderer g) = Some (blankCell x y).
Proof.
  intros Hs Hx Hy. cbv zeta.
  destruct (initTextGrid_renderables cameraName v s Hs) as [Hr Ht].
  assert (Hin : (x, y) ∈ cells v) by (by apply elem_of_cells).
  split.
  - rewrite Ht. apply elem_of_list_to_set, list_elem_of_fmap. by exists (x, y).
  - apply (initTextGrid_get cameraName v s (blankCell x y) Hs).
    rewrite Hr. apply elem_of_app. left. apply list_elem_of_fmap. by exists (x, y).
Qed.

Lemma renderFrame_kept (cameraName : string) (fps : Z) (v v0 : WebcamViewer)
    (g0 g : Grid) :
  termWidth v = termWidth v0 → termHeight v = termHeight v0 →
  (∀ x y, (0 ≤ x < termWidth v0)%Z → (0 < y < termHeight v0 - 1)%Z →
          key x y ∈ textElements g0) →
  kept v0 g0 g → kept v0 g0 (renderFrame cameraName fps v g).
Proof.
  intros Hw Hh Hkeys (Hte & Hids & Hcells & Hother).
  destruct (renderFrame_spec cameraName fps v g) as (Hte' & Hids' & Hdrawn & Hother' & _).
  rewrite Hw, Hh in Hdrawn, Hother'.
  split_and!.
  - by rewrite Hte'.
  - by rewrite Hids'.
  - intros x y Hx Hy. destruct (Hcells x y Hx Hy) as (t & Ht & Hid & Htx & Hty & Hz).
    exists (paint v x y t). rewrite Hdrawn by (rewrite ?Hte; auto). rewrite Ht.
    split; [done|]. rewrite paint_id. unfold paint.
    by destruct (renderCell v _) as [[? ?] ?].
  - intros k Hk Hcell. rewrite Hother' by done. by apply Hother.
Qed.

Lemma renderFrames_kept (cameraName : string) (frames : list (Z * WebcamViewer))
    (v0 : WebcamViewer) (g0 g : Grid) :
  Forall (λ f, termWidth f.2 = termWidth v0 ∧ termHeight f.2 = termHeight v0) frames →
  (∀ x y, (0 ≤ x < termWidth v0)%Z → (0 < y < termHeight v0 - 1)%Z →
          key x y ∈ textElements g0) →
  kept v0 g0 g → kept v0 g0 (renderFrames cameraName frames g).
Proof.
  intros Hf Hkeys. revert g. induction Hf as [|[fps v] frames [Hw Hh] _ IH]; intros g Hg.
  - done.
  - unfold renderFrames. cbn [foldl fst snd]. apply IH. by apply renderFrame_kept.
Qed.

End TextGridRun.

(** X28.  [initTextGrid] on a renderer that was just created gives one renderable
    for each position of the terminal, blank and at z-index 1, under a key
    of its own, and the three overlays: width * height + 3 renderables with
    distinct ids; the keys of the text elements are those of the positions,
    and no key is the id of an overlay. *)
Theorem text_grid_has_a_cell_per_position
    (cameraName : string) (v : TerminalWebcam.WebcamViewer) (columns rows : option Z) :
  let g := TextGrid.initTextGrid cameraName v
             (TextGrid.mkGrid (OpentuiCoreApi.createCliRenderer columns rows) ∅) in
  let s := TextGrid.renderer g in
  NoDup (OpentuiCore.id <$> OpentuiCore.renderables s)
  ∧ length (OpentuiCore.renderables s)
    = Z.to_nat (TerminalWebcam.termWidth v) * Z.to_nat (TerminalWebcam.termHeight v) + 3
  ∧ (∀ x y, (0 ≤ x < TerminalWebcam.termWidth v)%Z →
            (0 ≤ y < TerminalWebcam.termHeight v)%Z →
            TextGrid.key x y ∈ TextGrid.textElements g
            ∧ OpentuiCoreApi.getRenderable (TextGrid.key x y) s
              = Some (TextGrid.blankCell x y))
  ∧ (∀ k, k ∈ TextGrid.textElements g →
          ∃ x y, (0 ≤ x < TerminalWebcam.termWidth v)%Z
                 ∧ (0 ≤ y < TerminalWebcam.termHeight v)%Z ∧ k = TextGrid.key x y)
  ∧ (∀ x y, TextGrid.key x y ∉ ["status"; "mode"; "resolution"])
  ∧ OpentuiCoreApi.getRenderable "status" s
    = Some (OpentuiCore.mkText "status" (cameraName +:+ " | FPS: 0") 2 0
              (Some "#FFFFFF") (Some "#333333") 1000)
  ∧ OpentuiCoreApi.getRenderable "mode" s
    = Some (OpentuiCore.mkText "mode"
              ("Mode: " +:+ TextGrid.displayModeName (TerminalWebcam.displayMode v))
              (TerminalWebcam.termWidth v - 20) 0 (Some "#00FF00") (Some "#333333") 1000)
  ∧ OpentuiCoreApi.getRenderable "resolution" s
    = Some (OpentuiCore.mkText "resolution"
              ("Capture: " +:+ pretty (TerminalWebcam.captureWidth v) +:+ "x"
               +:+ pretty (TerminalWebcam.captureHeight v) +:+ " | Zoom: 1.0x")
              2 (TerminalWebcam.termHeight v - 1) (Some "#00FFFF") (Some "#111111") 1000).
Proof.
  cbv zeta. set (s0 := OpentuiCoreApi.createCliRenderer columns rows).
  assert (Hs : OpentuiCore.renderables s0 = []) by done.
  destruct (TextGridFacts.initTextGrid_renderables cameraName v s0 Hs) as [Hr Ht].
  split_and!.
  - by apply TextGridFacts.initTextGrid_NoDup.
  - rewrite Hr, length_app, length_fmap, TextGridFacts.length_cells. done.
  - intros x y Hx Hy. by apply TextGridRun.initTextGrid_cell.
  - intros k Hk. rewrite Ht in Hk.
    apply elem_of_list_to_set, list_elem_of_fmap in Hk as ([x y] & -> & Hin).
    apply TextGridFacts.elem_of_cells in Hin as [Hx Hy]. exists x, y. split; [done|]. split; done.
  - intros x y Hin. rewrite !elem_of_cons, elem_of_nil in Hin.
    destruct Hin as [H|[H|[H|[]]]]; revert H; apply TextGridFacts.key_not_plain;
      by vm_compute.
  - apply (TextGridRun.initTextGrid_get cameraName v s0 (OpentuiCore.mkText "status" _ _ _ _ _ _) Hs).
    rewrite Hr. apply elem_of_app. right. set_solver.
  - apply (TextGridRun.initTextGrid_get cameraName v s0 (OpentuiCore.mkText "mode" _ _ _ _ _ _) Hs).
    rewrite Hr. apply elem_of_app. right. set_solver.
  - apply (TextGridRun.initTextGrid_get cameraName v s0 (OpentuiCore.mkText "resolution" _ _ _ _ _ _) Hs).
    rewrite Hr. apply elem_of_app. right. set_solver.
Qed.

(** X29.  After any number of frames on the text grid, drawn by viewers of the
    size of the terminal, the renderables are the same in number and order;
    every cell of the rows between the first and the last holds the glyph
    and the colours of its sample in the last frame; the cells of the first
    and of the last row are blank as [initTextGrid] made them; the status
    line holds the text of the last frame when it was not drawn during a
    restart. *)
Theorem frames_leave_the_bar_rows_blank
    (cameraName : string) (columns rows : option Z)
    (v0 : TerminalWebcam.WebcamViewer)
    (frames : list (Z * TerminalWebcam.WebcamViewer))
    (fps : Z) (v : TerminalWebcam.WebcamViewer) :
  Forall (λ f, TerminalWebcam.termWidth f.2 = TerminalWebcam.termWidth v0
               ∧ TerminalWebcam.termHeight f.2 = TerminalWebcam.termHeight v0)
         (frames ++ [(fps, v)]) →
  let g0 := TextGrid.initTextGrid cameraName v0
              (TextGrid.mkGrid (OpentuiCoreApi.createCliRenderer columns rows) ∅) in
  let g := TextGrid.renderFrames cameraName (frames ++ [(fps, v)]) g0 in
  let s := TextGrid.renderer g in
  OpentuiCore.id <$> OpentuiCore.renderables s
  = OpentuiCore.id <$> OpentuiCore.renderables (TextGrid.renderer g0)
  ∧ (∀ x y, (0 ≤ x < TerminalWebcam.termWidth v0)%Z →
            (0 < y < TerminalWebcam.termHeight v0 - 1)%Z →
            OpentuiCoreApi.getRenderable (TextGrid.key x y) s
            = Some (TextGrid.drawnCell v x y))
  ∧ (∀ x y, (0 ≤ x < TerminalWebcam.termWidth v0)%Z →
            (0 ≤ y < TerminalWebcam.termHeight v0)%Z →
            y = 0%Z ∨ y = (TerminalWebcam.termHeight v0 - 1)%Z →
            OpentuiCoreApi.getRenderable (TextGrid.key x y) s
            = Some (TextGrid.blankCell x y))
  ∧ (TerminalWebcam.isRestarting v = false →
     OpentuiCore.content <$> OpentuiCoreApi.getRenderable "status" s
     = Some (TextGrid.statusLine cameraName fps v)).
Proof.
  intros Hf g0 g s. apply Forall_app in Hf as [Hf Hlast].
  apply Forall_singleton in Hlast as [Hw Hh]. cbn [snd] in Hw, Hh.
  set (s0 := OpentuiCoreApi.createCliRenderer columns rows) in *.
  assert (Hs : OpentuiCore.renderables s0 = []) by done.
  assert (Hkeys : ∀ x y, (0 ≤ x < TerminalWebcam.termWidth v0)%Z →
            (0 < y < TerminalWebcam.termHeight v0 - 1)%Z →
            TextGrid.key x y ∈ TextGrid.textElements g0).
  { intros x y Hx Hy.
    apply (TextGridRun.initTextGrid_cell cameraName v0 s0 x y Hs); lia. }
  set (g1 := TextGrid.renderFrames cameraName frames g0).
  assert (Hg : g = TextGrid.renderFrame cameraName fps v g1).
  { unfold g, g1, TextGrid.renderFrames. by rewrite foldl_app. }
  assert (Hk1 : TextGrid.kept v0 g0 g1).
  { apply TextGridRun.renderFrames_kept; [done | done |].
    split_and!; [done | done | | done].
    intros x y Hx Hy. exists (TextGrid.blankCell x y). split; [|done].
    apply (TextGridRun.initTextGrid_cell cameraName v0 s0 x y Hs); lia. }
  destruct Hk1 as (Hte & Hids & Hcells & Hother).
  destruct (TextGridFacts.renderFrame_spec cameraName fps v g1)
    as (Hte' & Hids' & Hdrawn & Hother' & Hstatus).
  rewrite Hw, Hh in Hdrawn, Hother'. unfold s. rewrite Hg.
  assert (Hbar : ∀ k, k ≠ "status" →
            (∀ x y, (0 ≤ x < TerminalWebcam.termWidth v0)%Z →
                    (0 < y < TerminalWebcam.termHeight v0 - 1)%Z → k ≠ TextGrid.key x y) →
            OpentuiCoreApi.getRenderable k
              (TextGrid.renderer (TextGrid.renderFrame cameraName fps v g1))
            = OpentuiCoreApi.getRenderable k (TextGrid.renderer g0)).
  { intros k Hk Hcell. rewrite Hother' by done. by apply Hother. }
  split_and!.
  - by rewrite Hids'.
  - intros x y Hx Hy. destruct (Hcells x y Hx Hy) as (t & Ht & Hid & Htx & Hty & Hz).
    rewrite Hdrawn by (rewrite ?Hte; auto). rewrite Ht. cbn [fmap option_fmap option_map].
    f_equal. by apply TextGridFacts.paint_cell.
  - intros x y Hx Hy Hrow. rewrite Hbar.
    + by apply (TextGridRun.initTextGrid_cell cameraName v0 s0 x y Hs).
    + apply TextGridFacts.key_not_plain. by vm_compute.
    + intros x' y' Hx' Hy' Heq. apply TextGridFacts.key_inj in Heq; lia.
  - intros Hr. rewrite Hstatus, Hr.
    assert (Hsome : is_Some (OpentuiCoreApi.getRenderable "status" (TextGrid.renderer g1))).
    { apply TextGridFacts.get_is_Some. rewrite Hids. unfold g0.
      destruct (TextGridFacts.initTextGrid_renderables cameraName v0 s0 Hs) as [-> _].
      rewrite fmap_app. apply elem_of_app. right. left. }
    by destruct Hsome as [t ->].
Qed.

Lemma frames_leave_the_bar_rows_blank_witness :
  let g0 := TextGrid.initTextGrid "FaceTime HD Camera" viewer_80x24
              (TextGrid.mkGrid (OpentuiCoreApi.createCliRenderer (Some 80%Z) (Some 24%Z)) ∅) in
  let g := TextGrid.renderFrames "FaceTime HD Camera"
             ([(0%Z, viewer_80x24)] ++ [(30%Z, viewer_80x24)]) g0 in
  OpentuiCoreApi.getRenderable (TextGrid.key 5 23) (TextGrid.renderer g)
  = Some (TextGrid.blankCell 5 23).
Proof.
  intros g0 g.
  refine (proj1 (proj2 (proj2
    (frames_leave_the_bar_rows_blank "FaceTime HD Camera" (Some 80%Z) (Some 24%Z)
       viewer_80x24 [(0%Z, viewer_80x24)] 30 viewer_80x24 _))) 5%Z 23%Z _ _ _).
  - repeat constructor.
  - split; [discriminate | reflexivity].
  - split; [discriminate | reflexivity].
  - right. reflexivity.
Defined.

Module FirstPassFacts.
Import TerminalWebcam OpentuiCore OpentuiCoreApi TextGrid TextGridFacts.

Lemma insertByZIndex_last (t : TextRenderable) (l : list TextRenderable) :
  Forall (λ u, by_zIndex u t) l → insertByZIndex t l = l ++ [t].
Proof.
  induction 1 as [|u l Hu _ IH]; cbn [insertByZIndex]; [done|].
  unfold by_zIndex in Hu. rewrite (proj2 (Z.ltb_ge _ _)) by lia. by rewrite IH.
Qed.

Lemma sortByZIndex_sorted_id (l : list TextRenderable) :
  StronglySorted by_zIndex l → sortByZIndex l = l.
Proof.
  unfold sortByZIndex.
  enough (∀ acc, StronglySorted by_zIndex (acc ++ l) →
                 foldl (λ acc t, insertByZIndex t acc) acc l = acc ++ l) as H.
  { intros Hl. by apply (H []). }
  induction l as [|t l IH]; intros acc Hs; cbn [foldl]; [by rewrite app_nil_r|].
  rewrite insertByZIndex_last.
  - rewrite IH; rewrite <- (assoc_L (++)); done.
  - clear IH. induction acc as [|u acc IHacc]; [constructor|].
    cbn [app] in Hs. apply StronglySorted_inv in Hs as [Hs Hall]. constructor.
    + rewrite Forall_app, Forall_cons in Hall. by destruct Hall as (_ & ? & _).
    + by apply IHacc.
Qed.

Lemma initTextGrid_frame (cameraName : string) (v : WebcamViewer) (g : Grid) :
  running (renderer (initTextGrid cameraName v g)) = running (renderer g)
  ∧ lastRenderState (renderer (initTextGrid cameraName v g)) = lastRenderState (renderer g).
Proof.
  unfold initTextGrid. rewrite (foldl_positions (λ y g x, addCell y g x)).
  cbn [renderer add set_renderables running lastRenderState].
  generalize (positions (λ _ : Z, seqZ 0 (termWidth v)) (seqZ 0 (termHeight v))).
  intros ps. revert g. induction ps as [|p ps IH]; intros g; [done|].
  cbn [foldl]. destruct (IH (addCell p.2 g p.1)) as [-> ->]. done.
Qed.

Lemma grid_sorted (cameraName : string) (v : WebcamViewer) (s : SimpleCliRenderer) :
  renderables s = [] →
  StronglySorted by_zIndex
    (renderables (renderer (initTextGrid cameraName v (mkGrid s ∅)))).
Proof.
  intros Hs. destruct (initTextGrid_renderables cameraName v s Hs) as [-> _].
  induction (cells v) as [|p ps IH]; cbn [fmap list_fmap app].
  - repeat constructor; unfold by_zIndex; cbn; lia.
  - constructor; [exact IH|]. rewrite Forall_app. split.
    + apply Forall_fmap, Forall_true. intros q. unfold by_zIndex. cbn. lia.
    + repeat constructor; unfold by_zIndex; cbn; lia.
Qed.

End FirstPassFacts.

(** X30.  The start of the renderer, before the grid exists, writes only the two
    sequences that clear the screen and hide the cursor.  The first pass
    after [initTextGrid] writes every renderable once, in the order of
    insertion: the cells row by row, then the overlays; a second pass
    without a frame in between writes nothing, and so does every pass after
    [stop]. *)
Theorem first_pass_draws_the_whole_grid
    (cameraName : string) (v : TerminalWebcam.WebcamViewer) (columns rows : option Z) :
  let started := OpentuiCoreApi.start (OpentuiCoreApi.createCliRenderer columns rows) in
  let g := TextGrid.initTextGrid cameraName v (TextGrid.mkGrid started.1 ∅) in
  let pass := OpentuiCore.renderLoop (TextGrid.renderer g) in
  started.2 = [OpentuiCore.ESC +:+ "[2J" +:+ OpentuiCore.ESC +:+ "[H";
               OpentuiCore.ESC +:+ "[?25l"]
  ∧ pass.2 = OpentuiCore.cellWrites <$> OpentuiCore.renderables (TextGrid.renderer g)
  ∧ length pass.2
    = Z.to_nat (TerminalWebcam.termWidth v) * Z.to_nat (TerminalWebcam.termHeight v) + 3
  ∧ (OpentuiCore.renderLoop pass.1).2 = []
  ∧ OpentuiCore.renderLoop (OpentuiCoreApi.stop pass.1).1
    = ((OpentuiCoreApi.stop pass.1).1, []).
Proof.
  intros started g pass.
  set (s1 := started.1).
  assert (Hs : OpentuiCore.renderables s1 = []) by done.
  assert (Hrun : OpentuiCore.running (TextGrid.renderer g) = true).
  { unfold g. by rewrite (proj1 (FirstPassFacts.initTextGrid_frame _ _ _)). }
  assert (Hlast : OpentuiCore.lastRenderState (TextGrid.renderer g) = ∅).
  { unfold g. by rewrite (proj2 (FirstPassFacts.initTextGrid_frame _ _ _)). }
  assert (Hnd : NoDup (OpentuiCore.id <$> OpentuiCore.renderables (TextGrid.renderer g)))
    by (by apply TextGridFacts.initTextGrid_NoDup).
  assert (Hsort : OpentuiCore.sortByZIndex (OpentuiCore.renderables (TextGrid.renderer g))
                  = OpentuiCore.renderables (TextGrid.renderer g)).
  { apply FirstPassFacts.sortByZIndex_sorted_id. by apply FirstPassFacts.grid_sorted. }
  assert (Hpass : pass.2
                  = OpentuiCore.cellWrites <$> OpentuiCore.renderables (TextGrid.renderer g)).
  { unfold pass. rewrite RenderPassFacts.renderLoop_writes by done.
    rewrite Hsort, Hlast. f_equal. unfold stale. apply filter_all.
    intros t. by rewrite lookup_empty. }
  split_and!.
  - done.
  - exact Hpass.
  - rewrite Hpass, length_fmap.
    destruct (TextGridFacts.initTextGrid_renderables cameraName v s1 Hs) as [Hr _].
    unfold g. fold s1. rewrite Hr, length_app, length_fmap, TextGridFacts.length_cells. done.
  - assert (Hren : OpentuiCore.renderables pass.1
                   = OpentuiCore.renderables (TextGrid.renderer g)).
    { unfold pass, OpentuiCore.renderLoop. rewrite Hrun. cbn [negb].
      by destruct (foldl _ _ _). }
    assert (Hrun' : OpentuiCore.running pass.1 = true).
    { unfold pass, OpentuiCore.renderLoop. rewrite Hrun. cbn [negb].
      by destruct (foldl _ _ _). }
    rewrite RenderPassFacts.renderLoop_writes by (by rewrite ?Hren).
    rewrite Hren, Hsort. unfold stale. rewrite filter_none; [done|].
    apply Forall_forall. intros t Ht Hst. apply Hst.
    by apply (DiffRenderFacts.renderLoop_fresh (TextGrid.renderer g)).
  - done.
Qed.
